(** * Substitute Soccer (soccer-master/soccer.py): ball, targeting, cost and
      match orchestration, embedded shallowly.

    Numbers.  Python floats and the coordinates of pygame's [Vector2] are
    IEEE-754 binary64 values; they are modelled by Rocq's primitive floats,
    whose operations are specified by [FloatAxioms] against [SpecFloat].
    Frame counters, team numbers and compass directions are Python ints,
    modelled by [Z].

    Errors.  Python exceptions are modelled by the [Py] result type: float
    division by zero raises [ZeroDivisionError], [**] raises
    [OverflowError] when a finite operand overflows, indexing outside a list
    raises [IndexError], [min] of an empty list raises [ValueError],
    ordering two [Vector2] values raises [TypeError], and a sound that
    cannot be played raises a [SoundError].

    Library functions whose code is outside the repository and whose
    results depend on its version (libm's [sin] and [pow], pygame's
    [Vector2] equality and [Rect.collidepoint], Python's [sum] on floats,
    the playing of a sound) are the fields of a
    [Library] record on which the development is parametric; [ref_lib] is a
    concrete instance used to run the definitions.  The arithmetic of
    [Vector2] (difference, scaling, dot product, length, normalisation) is
    modelled directly.  Sprites, the sound effects of the match (played
    under [try], they raise nothing) and the camera are left out; of the
    menus, the handling of the keys is modelled. *)

From Stdlib Require Import ZArith List Bool Lia Floats.
From Stdlib Require Uint63.
Import ListNotations.

Set Warnings "-inexact-float".
Local Open Scope Z_scope.

(** ** Python results *)

Module Py.

Inductive Error : Set :=
| ZeroDivisionError
| OverflowError
| TypeError
| IndexError
| ValueError
| SoundError.

Inductive result (A : Type) : Type :=
| Ok (a : A)
| Raise (e : Error).

Arguments Ok {A} a.
Arguments Raise {A} e.

Definition bind {A B : Type} (m : result A) (k : A -> result B) : result B :=
  match m with
  | Ok a => k a
  | Raise e => Raise e
  end.

(** [l[i]] with Python's negative indices. *)
Definition index {A : Type} (l : list A) (i : Z) : result A :=
  let n := Z.of_nat (length l) in
  let j := if i <? 0 then n + i else i in
  if (j <? 0) || (n <=? j) then Raise IndexError
  else match nth_error l (Z.to_nat j) with
       | Some a => Ok a
       | None => Raise IndexError
       end.

End Py.

Import Py.

Declare Scope py_scope.
Delimit Scope py_scope with py.
Notation "x <- m ;; k" := (Py.bind m (fun x => k))
  (at level 61, m at next level, right associativity) : py_scope.
Notation "' p <- m ;; k" := (Py.bind m (fun p => k))
  (at level 61, p pattern, m at next level, right associativity) : py_scope.
Local Open Scope py_scope.

(** ** Floats *)

Module F.

Local Open Scope float_scope.

(** An int used where a float is expected.  Exact for [|z| < 2^53], which
    covers every int of the program (timers, teams, pixel constants). *)
Definition of_Z (z : Z) : float :=
  match z with
  | Z0 => 0
  | Zpos _ => PrimFloat.of_uint63 (Uint63.of_Z z)
  | Zneg p => - PrimFloat.of_uint63 (Uint63.of_Z (Zpos p))
  end.

(** Python's [a / b] on floats. *)
Definition div (a b : float) : Py.result float :=
  if b =? 0 then Raise ZeroDivisionError else Ok (a / b).

Definition is_finite (x : float) : bool :=
  match Prim2SF x with
  | S754_zero _ | S754_finite _ _ _ => true
  | _ => false
  end.

Definition is_infinite (x : float) : bool :=
  match Prim2SF x with
  | S754_infinity _ => true
  | _ => false
  end.

Definition is_nan (x : float) : bool :=
  match Prim2SF x with
  | S754_nan => true
  | _ => false
  end.

(** The value of Python's [x ** 2] on a float, as CPython's [float_pow]
    computes it: a nan, an infinity, a zero and a one are answered on the
    spot; for any other [x] the C library's [pow] is called on the absolute
    value of [x] and on [2.0]. *)
Definition square (pow : float -> float -> float) (x : float) : float :=
  if is_nan x then x
  else if is_infinite x then abs x
  else if x =? 0 then 0
  else if abs x =? 1 then 1
  else pow (abs x) 2.

(** Python's [x ** 2] on a float: the square, or [OverflowError] when the
    [pow] of a finite [x] is infinite.  ([pow] is taken to report a range
    error by an infinite result only.) *)
Definition sq (pow : float -> float -> float) (x : float) : Py.result float :=
  let y := square pow x in
  if is_finite x && is_infinite y then Raise OverflowError else Ok y.

(** The builtin [max(a, b)]: the first argument is kept unless the second
    is strictly larger. *)
Definition max (a b : float) : float := if a <? b then b else a.

End F.

(** ** Constants of the level *)

Definition LEVEL_W : Z := 1000.
Definition LEVEL_H : Z := 1400.
Definition HALF_LEVEL_W : Z := LEVEL_W / 2.
Definition HALF_LEVEL_H : Z := LEVEL_H / 2.

Definition HALF_PITCH_W : Z := 442.
Definition HALF_PITCH_H : Z := 622.

Definition GOAL_WIDTH : Z := 186.
Definition GOAL_DEPTH : Z := 20.
Definition HALF_GOAL_W : Z := GOAL_WIDTH / 2.

Definition PITCH_BOUNDS_X : Z * Z := (HALF_LEVEL_W - HALF_PITCH_W, HALF_LEVEL_W + HALF_PITCH_W).
Definition PITCH_BOUNDS_Y : Z * Z := (HALF_LEVEL_H - HALF_PITCH_H, HALF_LEVEL_H + HALF_PITCH_H).

Definition GOAL_BOUNDS_X : Z * Z := (HALF_LEVEL_W - HALF_GOAL_W, HALF_LEVEL_W + HALF_GOAL_W).
Definition GOAL_BOUNDS_Y : Z * Z :=
  (HALF_LEVEL_H - HALF_PITCH_H - GOAL_DEPTH, HALF_LEVEL_H + HALF_PITCH_H + GOAL_DEPTH).

(** [pygame.rect.Rect(left, top, width, height)]. *)
Record Rect : Set := mkRect { r_left : Z; r_top : Z; r_width : Z; r_height : Z }.

Definition PITCH_RECT : Rect :=
  mkRect (fst PITCH_BOUNDS_X) (fst PITCH_BOUNDS_Y) (HALF_PITCH_W * 2) (HALF_PITCH_H * 2).
Definition GOAL_0_RECT : Rect :=
  mkRect (fst GOAL_BOUNDS_X) (fst GOAL_BOUNDS_Y) GOAL_WIDTH GOAL_DEPTH.
Definition GOAL_1_RECT : Rect :=
  mkRect (fst GOAL_BOUNDS_X) (snd GOAL_BOUNDS_Y - GOAL_DEPTH) GOAL_WIDTH GOAL_DEPTH.

Definition PLAYER_START_POS : list (Z * Z) :=
  [(350, 550); (650, 450); (200, 850); (500, 750); (800, 950); (350, 1250); (650, 1150)].

Definition LEAD_DISTANCE_1 : Z := 10.
Definition LEAD_DISTANCE_2 : Z := 50.

Definition DRIBBLE_DIST_X : Z := 18.
Definition DRIBBLE_DIST_Y : Z := 16.

Definition HUMAN_PLAYER_WITHOUT_BALL_SPEED : float := 3.3%float.

Record Difficulty : Set := mkDifficulty {
  goalie_enabled : bool;
  second_lead_enabled : bool;
  speed_boost : float;
  holdoff_timer : Z
}.

Definition DIFFICULTY : list Difficulty :=
  [ mkDifficulty false false 0%float 120;
    mkDifficulty false true 0.1%float 90;
    mkDifficulty true true 0.2%float 60 ].

(** ** Ball physics *)

Definition KICK_STRENGTH : float := 11.5%float.
Definition DRAG : float := 0.98%float.

(** [ball_physics(pos, vel, bounds)]: one axis. *)
Definition ball_physics (pos vel : float) (bounds : Z * Z) : float * float :=
  let pos := (pos + vel)%float in
  let '(pos, vel) :=
    if (pos <? F.of_Z (fst bounds))%float || (F.of_Z (snd bounds) <? pos)%float
    then ((pos - vel)%float, (- vel)%float)
    else (pos, vel) in
  (pos, (vel * DRAG)%float).

(** The test of [ball_physics] that decides a bounce. *)
Definition bounces (pos vel : float) (bounds : Z * Z) : bool :=
  ((pos + vel) <? F.of_Z (fst bounds))%float || (F.of_Z (snd bounds) <? (pos + vel))%float.

(** [steps(distance)].  The state of the [while] loop is
    [(distance, steps, vel)]; [fuel] bounds the number of iterations and
    [None] means that the bound was reached with the loop still running. *)
Fixpoint steps_loop (fuel : nat) (distance : float) (steps : Z) (vel : float) : option Z :=
  if (0 <? distance)%float && (0.25 <? vel)%float then
    match fuel with
    | O => None
    | S fuel' => steps_loop fuel' (distance - vel)%float (steps + 1) (vel * DRAG)%float
    end
  else Some steps.

(** No run of the loop needs more iterations than this. *)
Definition STEPS_BOUND : nat := 190.

Definition steps (distance : float) : option Z :=
  steps_loop STEPS_BOUND distance 0 KICK_STRENGTH.

(** The loop state after [k] iterations, when it has not exited before. *)
Fixpoint steps_state (k : nat) (distance : float) : float * float :=
  match k with
  | O => (distance, KICK_STRENGTH)
  | S k' => let '(d, v) := steps_state k' distance in ((d - v)%float, (v * DRAG)%float)
  end.

Definition steps_running (k : nat) (distance : float) : bool :=
  let '(d, v) := steps_state k distance in (0 <? d)%float && (0.25 <? v)%float.

(** ** Vectors: the arithmetic of [pygame.math.Vector2] *)

Record Vector2 : Set := V2 { vx : float; vy : float }.

Module Vec.

Local Open Scope float_scope.

Definition zero : Vector2 := V2 0 0.
Definition add (a b : Vector2) : Vector2 := V2 (vx a + vx b) (vy a + vy b).
Definition sub (a b : Vector2) : Vector2 := V2 (vx a - vx b) (vy a - vy b).

(** [vec * k] for a number [k]. *)
Definition scale (a : Vector2) (k : float) : Vector2 := V2 (vx a * k) (vy a * k).

(** [a * b] for two vectors: the dot product, accumulated from [0]. *)
Definition dot (a b : Vector2) : float := 0 + vx a * vx b + vy a * vy b.

Definition length (a : Vector2) : float := PrimFloat.sqrt (dot a a).

(** [vec.normalize()], called on a vector whose length is not [0]. *)
Definition normalize (a : Vector2) : Vector2 :=
  let l := length a in V2 (vx a / l) (vy a / l).

End Vec.

(** ** Library functions *)

Record Library : Set := mkLibrary {
  (** [math.sin] *)
  math_sin : float -> float;
  (** [==] on two [Vector2] values *)
  vec_eq : Vector2 -> Vector2 -> bool;
  (** [Rect.collidepoint(x, y)] *)
  collidepoint : Rect -> float -> float -> bool;
  (** [sum] on a list of floats: plain additions from the left up to
      Python 3.11, a compensated sum since *)
  float_sum : list float -> float;
  (** the C library's [pow], which computes [**] on floats; it need not be
      correctly rounded *)
  math_pow : float -> float -> float;
  (** [sounds.move.play()]: it plays the sound, or raises an error when
      the sound cannot be loaded or played *)
  sounds_move_play : Py.result unit
}.

Definition math_pi : float := 0x1.921fb54442d18p+1%float.

(** ** Entities *)

(** A reference to a player (its index in [game.players]) or to a goal (its
    index in [game.goals]). *)
Inductive Ref : Set :=
| RPlayer (i : nat)
| RGoal (i : nat).

Definition is_goal (r : Ref) : bool :=
  match r with RGoal _ => true | RPlayer _ => false end.

Record Player : Set := mkPlayer {
  p_vpos : Vector2;
  p_home : Vector2;
  p_team : Z;
  p_dir : Z;
  p_timer : Z;
  p_peer : nat;
  p_mark : option Ref;
  p_lead : option Z
}.

Record Goal : Set := mkGoal {
  g_vpos : Vector2;
  g_team : Z
}.

Inductive Key : Set := UP | DOWN | LEFT | RIGHT | SPACE | KW | KS | KA | KD | LSHIFT.

Definition Key_eqb (a b : Key) : bool :=
  match a, b with
  | UP, UP | DOWN, DOWN | LEFT, LEFT | RIGHT, RIGHT | SPACE, SPACE
  | KW, KW | KS, KS | KA, KA | KD, KD | LSHIFT, LSHIFT => true
  | _, _ => false
  end.

Record Controls : Set := mkControls {
  key_up : Key; key_down : Key; key_left : Key; key_right : Key; key_shoot : Key
}.

(** [Controls(player_num)] *)
Definition Controls_init (player_num : Z) : Controls :=
  if player_num =? 0 then mkControls UP DOWN LEFT RIGHT SPACE
  else mkControls KW KS KA KD LSHIFT.

Record Team : Set := mkTeam {
  controls : option Controls;
  active_control_player : option nat;
  score : Z
}.

Definition Team_human (t : Team) : bool :=
  match controls t with Some _ => true | None => false end.

Record Ball : Set := mkBall {
  b_vpos : Vector2;
  b_vel : Vector2;
  b_owner : option nat;
  b_timer : Z
}.

(** [Ball()] *)
Definition Ball_init : Ball :=
  mkBall (V2 (F.of_Z HALF_LEVEL_W) (F.of_Z HALF_LEVEL_H)) Vec.zero None 0.

(** The module-level state: the [game] object, the [key_status] dictionary
    of [key_just_pressed] and the keyboard as the framework presents it in
    the current frame. *)
Record Game : Set := mkGame {
  teams : list Team;
  difficulty : Difficulty;
  score_timer : Z;
  scoring_team : Z;
  players : list Player;
  goals : list Goal;
  kickoff_player : option nat;
  ball : Ball;
  key_status : Key -> bool;
  keyboard : Key -> bool;
  debug_shoot_target : option Vector2
}.

Definition dummy_player : Player :=
  mkPlayer Vec.zero Vec.zero 0 0 0 O None None.

Definition dummy_goal : Goal := mkGoal Vec.zero 0.

(** The player (goal) a reference denotes.  References are indices; those of
    a game built by [Game_reset] are always in range. *)
Definition player_at (g : Game) (i : nat) : Player := nth i (players g) dummy_player.
Definition goal_at (g : Game) (i : nat) : Goal := nth i (goals g) dummy_goal.

Definition ref_vpos (g : Game) (r : Ref) : Vector2 :=
  match r with
  | RPlayer i => p_vpos (player_at g i)
  | RGoal i => g_vpos (goal_at g i)
  end.

Definition ref_team (g : Game) (r : Ref) : Z :=
  match r with
  | RPlayer i => p_team (player_at g i)
  | RGoal i => g_team (goal_at g i)
  end.

(** *** Field updates *)

Definition set_ball (g : Game) (b : Ball) : Game :=
  mkGame (teams g) (difficulty g) (score_timer g) (scoring_team g) (players g)
         (goals g) (kickoff_player g) b (key_status g) (keyboard g)
         (debug_shoot_target g).

Definition set_players (g : Game) (ps : list Player) : Game :=
  mkGame (teams g) (difficulty g) (score_timer g) (scoring_team g) ps
         (goals g) (kickoff_player g) (ball g) (key_status g) (keyboard g)
         (debug_shoot_target g).

Definition set_teams (g : Game) (ts : list Team) : Game :=
  mkGame ts (difficulty g) (score_timer g) (scoring_team g) (players g)
         (goals g) (kickoff_player g) (ball g) (key_status g) (keyboard g)
         (debug_shoot_target g).

Definition set_key_status (g : Game) (ks : Key -> bool) : Game :=
  mkGame (teams g) (difficulty g) (score_timer g) (scoring_team g) (players g)
         (goals g) (kickoff_player g) (ball g) ks (keyboard g)
         (debug_shoot_target g).

Definition set_kickoff_player (g : Game) (k : option nat) : Game :=
  mkGame (teams g) (difficulty g) (score_timer g) (scoring_team g) (players g)
         (goals g) k (ball g) (key_status g) (keyboard g)
         (debug_shoot_target g).

Definition set_score_timer (g : Game) (t : Z) : Game :=
  mkGame (teams g) (difficulty g) t (scoring_team g) (players g)
         (goals g) (kickoff_player g) (ball g) (key_status g) (keyboard g)
         (debug_shoot_target g).

Definition set_scoring_team (g : Game) (t : Z) : Game :=
  mkGame (teams g) (difficulty g) (score_timer g) t (players g)
         (goals g) (kickoff_player g) (ball g) (key_status g) (keyboard g)
         (debug_shoot_target g).

Definition set_debug_shoot_target (g : Game) (d : option Vector2) : Game :=
  mkGame (teams g) (difficulty g) (score_timer g) (scoring_team g) (players g)
         (goals g) (kickoff_player g) (ball g) (key_status g) (keyboard g) d.

Fixpoint update_nth {A : Type} (i : nat) (f : A -> A) (l : list A) : list A :=
  match l, i with
  | [], _ => []
  | a :: l', O => f a :: l'
  | a :: l', S i' => a :: update_nth i' f l'
  end.

Definition Player_set_timer (t : Z) (p : Player) : Player :=
  mkPlayer (p_vpos p) (p_home p) (p_team p) (p_dir p) t (p_peer p) (p_mark p) (p_lead p).

Definition Player_set_vpos (v : Vector2) (p : Player) : Player :=
  mkPlayer v (p_home p) (p_team p) (p_dir p) (p_timer p) (p_peer p) (p_mark p) (p_lead p).

Definition Player_set_peer (i : nat) (p : Player) : Player :=
  mkPlayer (p_vpos p) (p_home p) (p_team p) (p_dir p) (p_timer p) i (p_mark p) (p_lead p).

Definition Player_set_mark (m : option Ref) (p : Player) : Player :=
  mkPlayer (p_vpos p) (p_home p) (p_team p) (p_dir p) (p_timer p) (p_peer p) m (p_lead p).

Definition Player_set_lead (l : option Z) (p : Player) : Player :=
  mkPlayer (p_vpos p) (p_home p) (p_team p) (p_dir p) (p_timer p) (p_peer p) (p_mark p) l.

Definition Team_set_active (a : option nat) (t : Team) : Team :=
  mkTeam (controls t) a (score t).

Definition Team_set_score (s : Z) (t : Team) : Team :=
  mkTeam (controls t) (active_control_player t) s.

Definition Ball_set_owner (o : option nat) (b : Ball) : Ball :=
  mkBall (b_vpos b) (b_vel b) o (b_timer b).

Definition Ball_set_timer (t : Z) (b : Ball) : Ball :=
  mkBall (b_vpos b) (b_vel b) (b_owner b) t.

Definition Ball_set_vpos (v : Vector2) (b : Ball) : Ball :=
  mkBall v (b_vel b) (b_owner b) (b_timer b).

Definition Ball_set_vel (v : Vector2) (b : Ball) : Ball :=
  mkBall (b_vpos b) v (b_owner b) (b_timer b).

(** [player.timer = t] for the player referred to by [i]. *)
Definition set_player_timer (g : Game) (i : nat) (t : Z) : Game :=
  set_players g (update_nth i (Player_set_timer t) (players g)).

(** [game.teams[team] = f(game.teams[team])], an [IndexError] when [team]
    is not an index of [game.teams]. *)
Definition update_team (g : Game) (team : Z) (f : Team -> Team) : Py.result Game :=
  _ <- Py.index (teams g) team ;;
  let n := Z.of_nat (length (teams g)) in
  let j := if team <? 0 then n + team else team in
  Ok (set_teams g (update_nth (Z.to_nat j) f (teams g))).

(** ** Helpers of the module *)

(** [safe_normalise(vec)] *)
Definition safe_normalise (vec : Vector2) : Vector2 * float :=
  let length := Vec.length vec in
  if (length =? 0)%float then (Vec.zero, 0%float)
  else (Vec.normalize vec, length).

(** [dist_key(pos)] applied to the position of an entity. *)
Definition dist_key (pos : Vector2) (vpos : Vector2) : float :=
  Vec.length (Vec.sub vpos pos).

(** [avg(a, b)] *)
Definition avg (a b : float) : float :=
  if (PrimFloat.abs (b - a) <? 1)%float then b else ((a + b) / 2)%float.

(** [steps(length)] as a number: [steps] never runs out of iterations
    (see [steps_total]), so the default is never used. *)
Definition steps_value (distance : float) : Z :=
  match steps distance with Some n => n | None => 0 end.

(** [min(l, key=key)]: the first element whose key is minimal. *)
Fixpoint min_by_from {A : Type} (key : A -> float) (best : A) (best_key : float)
         (l : list A) : A :=
  match l with
  | [] => best
  | a :: l' =>
      if (key a <? best_key)%float then min_by_from key a (key a) l'
      else min_by_from key best best_key l'
  end.

Definition min_by {A : Type} (key : A -> float) (l : list A) : Py.result A :=
  match l with
  | [] => Raise ValueError
  | a :: l' => Ok (min_by_from key a (key a) l')
  end.

(** A list comprehension [[x for x in l if f(x)]] whose test may raise. *)
Fixpoint filterM {A : Type} (f : A -> Py.result bool) (l : list A) : Py.result (list A) :=
  match l with
  | [] => Ok []
  | a :: l' =>
      b <- f a ;;
      r <- filterM f l' ;;
      Ok (if b then a :: r else r)
  end.

(** A list comprehension [[f(x) for x in l]] whose body may raise. *)
Fixpoint mapM {A B : Type} (f : A -> Py.result B) (l : list A) : Py.result (list B) :=
  match l with
  | [] => Ok []
  | a :: l' =>
      b <- f a ;;
      r <- mapM f l' ;;
      Ok (b :: r)
  end.

(** [key_just_pressed(key)]: the answer and the updated [key_status]. *)
Definition key_just_pressed (g : Game) (key : Key) : bool * Game :=
  let prev_status := key_status g key in
  let result := negb prev_status && keyboard g key in
  (result,
   set_key_status g (fun k => if Key_eqb k key then keyboard g key else key_status g k)).

(** [Controls.shoot()] *)
Definition Controls_shoot (c : Controls) (g : Game) : bool * Game :=
  key_just_pressed g (key_shoot c).

(** [a < b] on two results of [cost]: Python orders tuples by their first
    differing components, and [Vector2] has no order. *)
Definition tuple_lt (veq : Vector2 -> Vector2 -> bool) (a b : float * Vector2)
  : Py.result bool :=
  if (fst a =? fst b)%float then
    if veq (snd a) (snd b) then Ok false else Raise TypeError
  else Ok (fst a <? fst b)%float.

Section WithLibrary.

Variable L : Library.

(** [sin(x)] and [cos(x)] of the module, on compass angles. *)
Definition sin (x : Z) : float := math_sin L (F.of_Z x * math_pi / 4)%float.
Definition cos (x : Z) : float := sin (x + 2).

Definition angle_to_vec (angle : Z) : Vector2 := V2 (sin angle) (- cos angle)%float.

(** The entrance of the own goal of [team]. *)
Definition own_goal_pos (team : Z) : Vector2 :=
  V2 (F.of_Z HALF_LEVEL_W) (F.of_Z (if team =? 1 then 78 else LEVEL_H - 78)).

(** [cost(pos, team, handicap)] *)
Definition cost (g : Game) (pos : Vector2) (team : Z) (handicap : float)
  : Py.result (float * Vector2) :=
  inverse_own_goal_distance <- F.div 3500 (Vec.length (Vec.sub pos (own_goal_pos team))) ;;
  terms <- mapM (fun p => F.div 4000 (F.max 24 (Vec.length (Vec.sub (p_vpos p) pos))))
                (filter (fun p => negb (p_team p =? team)) (players g)) ;;
  square <- F.sq (math_pow L) (vx pos - F.of_Z HALF_LEVEL_W)%float ;;
  let result :=
    (inverse_own_goal_distance
     + float_sum L terms
     + (square / 200 - vy pos * F.of_Z (4 * team - 2))
     + handicap)%float in
  Ok (result, pos).

(** [on_pitch(x, y)] *)
Definition on_pitch (x y : float) : bool :=
  collidepoint L PITCH_RECT x y
  || collidepoint L GOAL_0_RECT x y
  || collidepoint L GOAL_1_RECT x y.

(** The loop of [targetable] over [game.players]: [true] when some player
    makes the function return [False] early. *)
Fixpoint intercepted (target_team : Z) (source_vpos : Vector2) (v0 : Vector2) (d0 : float)
         (ps : list Player) : bool :=
  match ps with
  | [] => false
  | p :: ps' =>
      let '(v1, d1) := safe_normalise (Vec.sub (p_vpos p) source_vpos) in
      if negb (p_team p =? target_team) && (0 <? d1)%float && (d1 <? d0)%float
         && (0.8 <? Vec.dot v0 v1)%float
      then true
      else intercepted target_team source_vpos v0 d0 ps'
  end.

(** [targetable(target, source)] *)
Definition targetable (g : Game) (target : Ref) (source : Player) : Py.result bool :=
  let '(v0, d0) := safe_normalise (Vec.sub (ref_vpos g target) (p_vpos source)) in
  source_team <- Py.index (teams g) (p_team source) ;;
  if negb (Team_human source_team)
     && intercepted (ref_team g target) (p_vpos source) v0 d0 (players g)
  then Ok false
  else Ok ((ref_team g target =? p_team source) && (0 <? d0)%float && (d0 <? 300)%float
           && (0.8 <? Vec.dot v0 (angle_to_vec (p_dir source)))%float).

(** ** [Ball] *)

(** [Ball.collide(p)] *)
Definition Ball_collide (b : Ball) (p : Player) : bool :=
  (p_timer p <? 0)
  && (Vec.length (Vec.sub (p_vpos p) (b_vpos b)) <=? F.of_Z DRIBBLE_DIST_X)%float.

(** The bounds of the physics on each axis: inside a goal, vertically, the
    ball goes no further than the sides of the goal; between the posts,
    horizontally, it goes to the back of the net. *)
Definition Ball_bounds_x (b : Ball) : Z * Z :=
  if (F.of_Z HALF_PITCH_H <? PrimFloat.abs (vy (b_vpos b) - F.of_Z HALF_LEVEL_H))%float
  then GOAL_BOUNDS_X else PITCH_BOUNDS_X.

Definition Ball_bounds_y (b : Ball) : Z * Z :=
  if (PrimFloat.abs (vx (b_vpos b) - F.of_Z HALF_LEVEL_W) <? F.of_Z HALF_GOAL_W)%float
  then GOAL_BOUNDS_Y else PITCH_BOUNDS_Y.

(** The physics of a ball without owner, one axis at a time. *)
Definition Ball_roll (b : Ball) : Ball :=
  let bounds_x := Ball_bounds_x b in
  let bounds_y := Ball_bounds_y b in
  let '(px, velx) := ball_physics (vx (b_vpos b)) (vx (b_vel b)) bounds_x in
  let '(py, vely) := ball_physics (vy (b_vpos b)) (vy (b_vel b)) bounds_y in
  mkBall (V2 px py) (V2 velx vely) (b_owner b) (b_timer b).

(** The first part of [Ball.update]: the ball follows its owner, or is
    dropped when that leaves the pitch; a ball without owner runs the
    physics. *)
Definition Ball_move (g : Game) : Game :=
  let b := ball g in
  match b_owner b with
  | Some o =>
      let owner := player_at g o in
      let new_x := avg (vx (b_vpos b))
                       (vx (p_vpos owner) + F.of_Z DRIBBLE_DIST_X * sin (p_dir owner))%float in
      let new_y := avg (vy (b_vpos b))
                       (vy (p_vpos owner) - F.of_Z DRIBBLE_DIST_Y * cos (p_dir owner))%float in
      if on_pitch new_x new_y then set_ball g (Ball_set_vpos (V2 new_x new_y) b)
      else
        let g := set_player_timer g o 60 in
        set_ball g (Ball_set_owner None
                      (Ball_set_vel (Vec.scale (angle_to_vec (p_dir owner)) 3) b))
  | None => set_ball g (Ball_roll b)
  end.

(** One iteration of the search for a player that can acquire the ball. *)
Definition can_acquire (g : Game) (target : Player) : bool :=
  match b_owner (ball g) with
  | None => true
  | Some o => negb (p_team (player_at g o) =? p_team target)
  end
  && Ball_collide (ball g) target.

Definition Ball_acquire_step (g : Game) (t : nat) : Py.result Game :=
  let target := player_at g t in
  if can_acquire g target then
    let g :=
      match b_owner (ball g) with
      | Some o => set_player_timer g o 60
      | None => g
      end in
    let g := set_ball g (Ball_set_timer (holdoff_timer (difficulty g)) (ball g)) in
    g <- update_team g (p_team target) (Team_set_active (Some t)) ;;
    Ok (set_ball g (Ball_set_owner (Some t) (ball g)))
  else Ok g.

Fixpoint Ball_acquire_loop (g : Game) (ts : list nat) : Py.result Game :=
  match ts with
  | [] => Ok g
  | t :: ts' => g' <- Ball_acquire_step g t ;; Ball_acquire_loop g' ts'
  end.

Definition Ball_acquire (g : Game) : Py.result Game :=
  Ball_acquire_loop g (seq 0 (length (players g))).

(** [game.players + game.goals], as references. *)
Definition all_refs (g : Game) : list Ref :=
  map RPlayer (seq 0 (length (players g))) ++ map RGoal (seq 0 (length (goals g))).

(** The closest targetable player or goal, [None] when there is none. *)
Definition shoot_target (g : Game) (owner : Player) : Py.result (option Ref) :=
  targetable_players <-
    filterM (fun p => if ref_team g p =? p_team owner then targetable g p owner else Ok false)
            (all_refs g) ;;
  match targetable_players with
  | [] => Ok None
  | _ => target <- min_by (fun p => dist_key (p_vpos owner) (ref_vpos g p)) targetable_players ;;
         Ok (Some target)
  end.

(** The decision of a computer-controlled owner. *)
Definition cpu_do_shoot (g : Game) (owner : Player) (target : option Ref) : Py.result bool :=
  if b_timer (ball g) <=? 0 then
    match target with
    | None => Ok false
    | Some t =>
        cost_target <- cost g (ref_vpos g t) (p_team owner) 0%float ;;
        cost_owner <- cost g (p_vpos owner) (p_team owner) 0%float ;;
        tuple_lt (vec_eq L) cost_target cost_owner
    end
  else Ok false.

(** [do_shoot], with the state after a call of [Controls.shoot]. *)
Definition do_shoot (g : Game) (team : Team) (owner : Player) (target : option Ref)
  : Py.result (bool * Game) :=
  match controls team with
  | Some c => Ok (Controls_shoot c g)
  | None => b <- cpu_do_shoot g owner target ;; Ok (b, g)
  end.

(** The refinement loop of the kick direction: [r] and [vec] after
    [iterations] rounds. *)
Fixpoint aim (iterations : nat) (target_vpos dir_vec ball_vpos : Vector2)
         (r : float) (vec : Vector2) : float * Vector2 :=
  match iterations with
  | O => (r, vec)
  | S n =>
      let t := Vec.add target_vpos (Vec.scale dir_vec r) in
      let '(vec, length) := safe_normalise (Vec.sub t ball_vpos) in
      aim n target_vpos dir_vec ball_vpos
          (HUMAN_PLAYER_WITHOUT_BALL_SPEED * F.of_Z (steps_value length))%float vec
  end.

(** The body of [if do_shoot:]. *)
Definition Ball_kick (g : Game) (o : nat) (team : Team) (target : option Ref)
  : Py.result Game :=
  let owner := player_at g o in
  '(vec, target) <-
    match target with
    | Some t =>
        let iterations :=
          if Team_human team && negb (is_goal t) then 8%nat else 1%nat in
        Ok (snd (aim iterations (ref_vpos g t) (angle_to_vec (p_dir owner))
                     (b_vpos (ball g)) 0%float Vec.zero), t)
    | None =>
        let vec := angle_to_vec (p_dir owner) in
        i <- min_by (fun i => dist_key (Vec.add (b_vpos (ball g)) (Vec.scale vec 250))
                                       (p_vpos (player_at g i)))
                    (filter (fun i => p_team (player_at g i) =? p_team owner)
                            (seq 0 (length (players g)))) ;;
        Ok (vec, RPlayer i)
    end ;;
  g <- match target with
       | RPlayer i => update_team g (p_team owner) (Team_set_active (Some i))
       | RGoal _ => Ok g
       end ;;
  let g := set_player_timer g o 10 in
  Ok (set_ball g (Ball_set_owner None
                    (Ball_set_vel (Vec.scale vec KICK_STRENGTH) (ball g)))).

(** [game.debug_shoot_target = target.vpos], when there is a target.  The
    field holds the position vector of the target itself; nothing moves
    between this assignment and the next one, so its value is kept. *)
Definition Ball_note_target (g : Game) (target : option Ref) : Game :=
  match target with
  | Some t => set_debug_shoot_target g (Some (ref_vpos g t))
  | None => g
  end.

(** The last part of [Ball.update]: whether to kick, and the kick. *)
Definition Ball_shoot (g : Game) : Py.result Game :=
  match b_owner (ball g) with
  | None => Ok g
  | Some o =>
      let owner := player_at g o in
      team <- Py.index (teams g) (p_team owner) ;;
      target <- shoot_target g owner ;;
      let g := Ball_note_target g target in
      '(shoot, g) <- do_shoot g team owner target ;;
      if shoot then Ball_kick g o team target else Ok g
  end.

(** [Ball.update()] *)
Definition Ball_tick_timer (g : Game) : Game :=
  set_ball g (Ball_set_timer (b_timer (ball g) - 1) (ball g)).

Definition Ball_update (g : Game) : Py.result Game :=
  let g := Ball_move (Ball_tick_timer g) in
  g <- Ball_acquire g ;;
  Ball_shoot g.

End WithLibrary.

(** ** [Game] *)

(** [Player(x, y, team)] *)
Definition Player_init (x y team : Z) : Player :=
  let kickoff_y := (F.of_Z y / 2 + 550 - F.of_Z (team * 400))%float in
  mkPlayer (V2 (F.of_Z x) kickoff_y) (V2 (F.of_Z x) (F.of_Z y)) team 0 0 O None None.

(** [Goal(team)] *)
Definition Goal_init (team : Z) : Goal :=
  mkGoal (V2 (F.of_Z HALF_LEVEL_W) (F.of_Z (if team =? 0 then 0 else LEVEL_H))) team.

(** The roster built by the first loop of [Game.reset].  [jitter k] is the
    value of the [k]-th call of [random.randint(-32, 32)]; [k0] counts the
    calls made so far. *)
Fixpoint roster (jitter : nat -> Z) (k0 : nat) (start : list (Z * Z)) : list Player :=
  match start with
  | [] => []
  | pos :: start' =>
      Player_init (fst pos + jitter k0) (snd pos + jitter (k0 + 1)%nat) 0
      :: Player_init (LEVEL_W - fst pos + jitter (k0 + 2)%nat)
                     (LEVEL_H - snd pos + jitter (k0 + 3)%nat) 1
      :: roster jitter (k0 + 4)%nat start'
  end.

(** [for a, b in zip(self.players, self.players[::-1]): a.peer = b] *)
Definition assign_peers (ps : list Player) : list Player :=
  map (fun ip => Player_set_peer (length ps - 1 - fst ip)%nat (snd ip))
      (combine (seq 0 (length ps)) ps).

(** [Game.reset()] *)
Definition Game_reset (jitter : nat -> Z) (g : Game) : Py.result Game :=
  let g := set_players g (assign_peers (roster jitter 0 PLAYER_START_POS)) in
  let g := mkGame (teams g) (difficulty g) (score_timer g) (scoring_team g) (players g)
                  (map Goal_init [0; 1]) (kickoff_player g) (ball g)
                  (key_status g) (keyboard g) (debug_shoot_target g) in
  _ <- Py.index (players g) 0 ;;
  g <- update_team g 0 (Team_set_active (Some 0%nat)) ;;
  _ <- Py.index (players g) 1 ;;
  g <- update_team g 1 (Team_set_active (Some 1%nat)) ;;
  let other_team := if scoring_team g =? 0 then 1 else 0 in
  _ <- Py.index (players g) other_team ;;
  let g := set_kickoff_player g (Some (Z.to_nat other_team)) in
  let g := set_players g
             (update_nth (Z.to_nat other_team)
                (Player_set_vpos (V2 (F.of_Z (HALF_LEVEL_W - 30 + other_team * 60))
                                     (F.of_Z HALF_LEVEL_H)))
                (players g)) in
  Ok (set_debug_shoot_target (set_ball g Ball_init) None).

(** [Game(p1_controls, p2_controls, difficulty)] *)
Definition Game_init (jitter : nat -> Z) (p1_controls p2_controls : option Controls)
           (difficulty : Z) (key_status keyboard : Key -> bool) : Py.result Game :=
  d <- Py.index DIFFICULTY difficulty ;;
  Game_reset jitter
    (mkGame [mkTeam p1_controls None 0; mkTeam p2_controls None 0] d 0 1 [] [] None
            Ball_init key_status keyboard None).

(** The beginning of [Game.update]: the score timer, the reset after a goal
    and the detection of a goal. *)
Definition ball_in_goal (b : Ball) : bool :=
  (F.of_Z HALF_PITCH_H <? PrimFloat.abs (vy (b_vpos b) - F.of_Z HALF_LEVEL_H))%float.

Definition Game_update_score (jitter : nat -> Z) (g : Game) : Py.result Game :=
  let g := set_score_timer g (score_timer g - 1) in
  if score_timer g =? 0 then Game_reset jitter g
  else if (score_timer g <? 0) && ball_in_goal (ball g) then
    let g := set_scoring_team g
               (if (vy (b_vpos (ball g)) <? F.of_Z HALF_LEVEL_H)%float then 0 else 1) in
    g <- update_team g (scoring_team g) (fun t => Team_set_score (score t + 1) t) ;;
    Ok (set_score_timer g 60)
  else Ok g.

(** [for b in self.players: b.mark = b.peer; b.lead = None] *)
Definition Game_reset_roles (g : Game) : Game :=
  set_players g
    (map (fun b => Player_set_lead None (Player_set_mark (Some (RPlayer (p_peer b))) b))
         (players g)).

(** [sorted(l, key=key)]: a stable sort. *)
Fixpoint insert_by {A : Type} (key : A -> float) (a : A) (l : list A) : list A :=
  match l with
  | [] => [a]
  | b :: l' => if (key a <? key b)%float then a :: l else b :: insert_by key a l'
  end.

Definition sorted_by {A : Type} (key : A -> float) (l : list A) : list A :=
  fold_left (fun acc a => insert_by key a acc) l [].

(** [[s for t in zip(a + NONE2, b + NONE2) for s in t if s]] *)
Definition interleave (a b : list nat) : list nat :=
  let NONE2 := [None; None] in
  flat_map (fun t => match t with Some s => [s] | None => [] end)
    (flat_map (fun t => [fst t; snd t])
       (combine (map Some a ++ NONE2) (map Some b ++ NONE2))).

Definition set_player_mark (g : Game) (i : nat) (m : option Ref) : Game :=
  set_players g (update_nth i (Player_set_mark m) (players g)).

Definition set_player_lead (g : Game) (i : nat) (l : option Z) : Game :=
  set_players g (update_nth i (Player_set_lead l) (players g)).

(** The goalie of the hardest difficulty. *)
Definition assign_goalie (g : Game) (o : nat) : Py.result Game :=
  let team := p_team (player_at g o) in
  if goalie_enabled (difficulty g) then
    owners_target_goal <- Py.index (goals g) team ;;
    nearest <- min_by (fun i => dist_key (g_vpos owners_target_goal) (p_vpos (player_at g i)))
                      (filter (fun i => negb (p_team (player_at g i) =? team))
                              (seq 0 (length (players g)))) ;;
    let g := set_player_mark g (p_peer (player_at g o)) (p_mark (player_at g nearest)) in
    let n := Z.of_nat (length (goals g)) in
    Ok (set_player_mark g nearest
          (Some (RGoal (Z.to_nat (if team <? 0 then n + team else team)))))
  else
    _ <- Py.index (goals g) team ;;
    Ok g.

(** The list [l] of [Game.update]: the opponents of the owner that may
    chase it, nearest first. *)
Definition chasers (g : Game) (o : nat) : Py.result (list nat) :=
  let owner := player_at g o in
  let team := p_team owner in
  let other_team := if team =? 0 then 1 else 1 in
  l <- filterM
         (fun i =>
            let p := player_at g i in
            if negb (p_team p =? team) && (p_timer p <=? 0) then
              t <- Py.index (teams g) other_team ;;
              let free :=
                if negb (Team_human t) then true
                else negb (match active_control_player t with
                           | Some a => Nat.eqb i a
                           | None => false
                           end) in
              Ok (free && negb (match p_mark p with Some m => is_goal m | None => false end))
            else Ok false)
         (seq 0 (length (players g))) ;;
  Ok (sorted_by (fun i => dist_key (p_vpos owner) (p_vpos (player_at g i))) l).

(** The role assignment of [Game.update], run when the ball has an owner. *)
Definition Game_assign_roles (g : Game) : Py.result Game :=
  match b_owner (ball g) with
  | None => Ok g
  | Some o =>
      let pos := p_vpos (player_at g o) in
      let team := p_team (player_at g o) in
      g <- assign_goalie g o ;;
      l <- chasers g o ;;
      let upfield (i : nat) :=
        if team =? 0 then (vy pos <? vy (p_vpos (player_at g i)))%float
        else (vy (p_vpos (player_at g i)) <? vy pos)%float in
      let a := filter upfield l in
      let b := filter (fun i => negb (existsb (Nat.eqb i) a)) l in
      let zipped := interleave a b in
      first <- Py.index zipped 0 ;;
      let g := set_player_lead g first (Some LEAD_DISTANCE_1) in
      g <- (if second_lead_enabled (difficulty g) then
              second <- Py.index zipped 1 ;;
              Ok (set_player_lead g second (Some LEAD_DISTANCE_2))
            else Ok g) ;;
      Ok (set_kickoff_player g None)
  end.

(** [Game.update] up to the updates of the players and of the ball. *)
Definition Game_update_head (jitter : nat -> Z) (g : Game) : Py.result Game :=
  g <- Game_update_score jitter g ;;
  Game_assign_roles (set_debug_shoot_target (Game_reset_roles g) None).

(** ** The cost, as the specification states it *)

(** 3500 over the distance to the own-goal reference point, which is
    (500, 78) for team 1 and (500, 1322) for team 0; plus the sum, over the
    opposing players, of 4000 over the distance floored at 24; plus the
    squared offset from the horizontal centre (as [**] computes a square)
    over 200, minus [y * (4 * team - 2)]; plus the handicap. *)
Definition spec_cost (L : Library) (g : Game) (pos : Vector2) (team : Z)
           (handicap : float) : float :=
  let reference := if team =? 1 then V2 500 78 else V2 500 1322 in
  let opponents := filter (fun p => negb (p_team p =? team)) (players g) in
  (3500 / Vec.length (Vec.sub pos reference)
   + float_sum L
       (map (fun p => 4000 / F.max 24 (Vec.length (Vec.sub (p_vpos p) pos))) opponents)
   + (F.square (math_pow L) (vx pos - 500) / 200 - vy pos * F.of_Z (4 * team - 2))
   + handicap)%float.

(** The square of the horizontal offset of [pos] overflows: the offset is
    finite and the C library's [pow] gives an infinity for it. *)
Definition square_overflows (L : Library) (pos : Vector2) : bool :=
  let dx := (vx pos - F.of_Z HALF_LEVEL_W)%float in
  F.is_finite dx && F.is_infinite (F.square (math_pow L) dx).

(** The state of the ball after the physics of one tick. *)
Definition rolled (g : Game) : Ball :=
  Ball_roll (Ball_set_timer (b_timer (ball g) - 1) (ball g)).

(** ** The owners of the ball within one tick *)

(** The owner after each iteration of the search for a player that can
    acquire the ball, then after the decision to kick. *)
Fixpoint Ball_acquire_owners (L : Library) (g : Game) (ts : list nat) : list (option nat) :=
  match ts with
  | [] =>
      match Ball_shoot L g with
      | Ok g' => [b_owner (ball g')]
      | Raise _ => []
      end
  | t :: ts' =>
      match Ball_acquire_step g t with
      | Ok g' => b_owner (ball g') :: Ball_acquire_owners L g' ts'
      | Raise _ => []
      end
  end.

(** The owner before [Ball.update], after the move of the ball, after each
    iteration of the search and after the kick. *)
Definition Ball_update_owners (L : Library) (g : Game) : list (option nat) :=
  let g1 := Ball_move L (Ball_tick_timer g) in
  b_owner (ball g) :: b_owner (ball g1)
  :: Ball_acquire_owners L g1 (seq 0 (length (players g1))).

(** From one owner to the next: never from a player straight to another
    player of the same team. *)
Definition handover (g : Game) (a b : option nat) : Prop :=
  match a, b with
  | Some i, Some j => i = j \/ p_team (player_at g i) <> p_team (player_at g j)
  | _, _ => True
  end.

(** The players have the same teams in [g'] as in [g]. *)
Definition same_roster (g g' : Game) : Prop :=
  forall i, p_team (player_at g' i) = p_team (player_at g i).

(** Player [p] has the ball, or has lost it in this tick and has its timer
    at 60. *)
Definition kept_or_lost (p : nat) (g : Game) : Prop :=
  (p < length (players g))%nat
  /\ (b_owner (ball g) = Some p
      \/ (b_owner (ball g) <> Some p /\ p_timer (player_at g p) = 60)).

(** [R] relates each element of the list to the next. *)
Inductive chain {A : Type} (R : A -> A -> Prop) : list A -> Prop :=
| chain_nil : chain R []
| chain_one (a : A) : chain R [a]
| chain_cons (a b : A) (l : list A) : R a b -> chain R (b :: l) -> chain R (a :: b :: l).

(** ** Frames of the match, seen from the score *)

(** The score of team [t]. *)
Definition score_of (g : Game) (t : Z) : Z :=
  match Py.index (teams g) t with
  | Ok team => score team
  | Raise _ => 0
  end.

(** What the rest of a frame leaves alone: [score_timer], [scoring_team]
    and the scores are assigned nowhere but at the beginning of
    [Game.update] (and by [Game()]). *)
Definition same_score_state (g g' : Game) : Prop :=
  score_timer g' = score_timer g
  /\ scoring_team g' = scoring_team g
  /\ map score (teams g') = map score (teams g).

(** [frames n g g']: [n] frames lead from [g] to [g'].  Each frame runs the
    beginning of [Game.update] and then the rest of the frame, of which
    only [same_score_state] is known. *)
Inductive frames (jitter : nat -> Z) : nat -> Game -> Game -> Prop :=
| frames_O (g : Game) : frames jitter O g g
| frames_S (n : nat) (g g1 g2 g3 : Game) :
    frames jitter n g g1 ->
    Game_update_score jitter g1 = Ok g2 ->
    same_score_state g2 g3 ->
    frames jitter (S n) g g3.

(** The kickoff formation of [Game.reset]: the player of roster slot [k]
    (the [k]-th start position) of team [team], for the jitter [jx], [jy]. *)
Definition formation_player (k : nat) (team : Z) (jx jy : Z) (peer : nat) : Player :=
  let start := nth k PLAYER_START_POS (0, 0) in
  let x := (if team =? 0 then fst start else LEVEL_W - fst start) + jx in
  let y := (if team =? 0 then snd start else LEVEL_H - snd start) + jy in
  mkPlayer (V2 (F.of_Z x) (F.of_Z y / 2 + 550 - F.of_Z (team * 400))%float)
           (V2 (F.of_Z x) (F.of_Z y)) team 0 0 peer None None.

(** The whole roster in kickoff formation: the slots in order, team 0 then
    team 1 in each, the [k]-th call of the random generator giving
    [jitter k], each player with the peer at the mirrored index. *)
Definition formation (jitter : nat -> Z) : list Player :=
  flat_map
    (fun k =>
       [ formation_player k 0 (jitter (4 * k)%nat) (jitter (4 * k + 1)%nat) (13 - 2 * k)%nat;
         formation_player k 1 (jitter (4 * k + 2)%nat) (jitter (4 * k + 3)%nat)
                          (12 - 2 * k)%nat ])
    (seq 0 7).

(** Where the kickoff player of team [team] stands, next to the centre spot. *)
Definition kickoff_spot (team : Z) : Vector2 :=
  V2 (F.of_Z (HALF_LEVEL_W - 30 + team * 60)) (F.of_Z HALF_LEVEL_H).

(** ** Chasers, as the specification states them *)

(** Player [i] is no candidate to chase the owner [o]: it is no opponent,
    or its hold-off timer is positive, or it is the player that the human
    of [team1] controls, or it marks a goal.  [team1] is [game.teams[1]]:
    [other_team] is 1 for either team of the owner. *)
Definition filtered_out (g : Game) (team1 : Team) (o i : nat) : bool :=
  let p := player_at g i in
  (p_team p =? p_team (player_at g o))
  || (0 <? p_timer p)
  || (Team_human team1
      && match active_control_player team1 with
         | Some a => Nat.eqb i a
         | None => false
         end)
  || match p_mark p with
     | Some m => is_goal m
     | None => false
     end.

(** ** Classes of binary64 values, on their specification *)

Module SF.

(** The least exponent of binary64. *)
Definition emin : Z := SpecFloat.emin prec emax.

(** Not a zero and, when finite, with an exponent of at least [b]. *)
Definition nz_above (b : Z) (f : spec_float) : Prop :=
  match f with
  | S754_zero _ => False
  | S754_finite _ _ e => b <= e
  | _ => True
  end.

(** Strictly positive, or [nan]. *)
Definition posnz (f : spec_float) : Prop :=
  match f with
  | S754_finite false _ _ | S754_infinity false | S754_nan => True
  | _ => False
  end.

(** Positive, [+0] or [nan]. *)
Definition nonneg (f : spec_float) : Prop :=
  match f with
  | S754_zero false | S754_finite false _ _ | S754_infinity false | S754_nan => True
  | _ => False
  end.

End SF.

(** ** A reference library, to run the definitions *)

Module Ref.

(** [math.sin] on the angles [k * math.pi / 4], [-2 <= k <= 11], as the C
    library computes them; other arguments are not needed by the program
    and are answered by [nan]. *)
Definition sin_table : list (float * float) :=
  [ (-0x1.921fb54442d18p+0, -0x1.0000000000000p+0);
    (-0x1.921fb54442d18p-1, -0x1.6a09e667f3bccp-1);
    (0x0.0p+0, 0x0.0p+0);
    (0x1.921fb54442d18p-1, 0x1.6a09e667f3bccp-1);
    (0x1.921fb54442d18p+0, 0x1.0000000000000p+0);
    (0x1.2d97c7f3321d2p+1, 0x1.6a09e667f3bcdp-1);
    (0x1.921fb54442d18p+1, 0x1.1a62633145c07p-53);
    (0x1.f6a7a2955385ep+1, -0x1.6a09e667f3bccp-1);
    (0x1.2d97c7f3321d2p+2, -0x1.0000000000000p+0);
    (0x1.5fdbbe9bba775p+2, -0x1.6a09e667f3bcep-1);
    (0x1.921fb54442d18p+2, -0x1.1a62633145c07p-52);
    (0x1.c463abeccb2bbp+2, 0x1.6a09e667f3bcbp-1);
    (0x1.f6a7a2955385ep+2, 0x1.0000000000000p+0);
    (0x1.1475cc9eedf00p+3, 0x1.6a09e667f3bd4p-1) ]%float.

Fixpoint lookup (x : float) (t : list (float * float)) : float :=
  match t with
  | [] => PrimFloat.nan
  | (a, v) :: t' => if (x =? a)%float then v else lookup x t'
  end.

Definition sin (x : float) : float := lookup x sin_table.

(** pygame compares vectors coordinate by coordinate, up to [1e-6]. *)
Definition close (a b : float) : bool := (PrimFloat.abs (a - b) <? 1e-6)%float.

Definition vec_eq (a b : Vector2) : bool :=
  close (vx a) (vx b) && close (vy a) (vy b).

(** The integer part of a float, towards zero. *)
Definition trunc (x : float) : Z :=
  match Prim2SF x with
  | S754_finite s m e =>
      let v := match e with
               | Zneg k => Z.shiftr (Zpos m) (Zpos k)
               | _ => Z.shiftl (Zpos m) e
               end in
      if s then - v else v
  | _ => 0
  end.

(** pygame converts the coordinates to ints and tests
    [left <= x < left + width] and [top <= y < top + height]. *)
Definition collidepoint (r : Rect) (x y : float) : bool :=
  let xi := trunc x in
  let yi := trunc y in
  (r_left r <=? xi) && (xi <? r_left r + r_width r)
  && (r_top r <=? yi) && (yi <? r_top r + r_height r).

(** [sum], as CPython computes it up to version 3.11. *)
Definition sum (l : list float) : float :=
  fold_left (fun acc x => (acc + x)%float) l 0%float.

(** [pow(x, 2.0)], correctly rounded; the C library may be off by a unit
    in the last place.  Other exponents are not needed by the program and
    are answered by [nan]. *)
Definition pow (x y : float) : float :=
  if (y =? 2)%float then (x * x)%float else PrimFloat.nan.

(** A machine on which the sound plays. *)
Definition lib : Library := mkLibrary sin vec_eq collidepoint sum pow (Ok tt).

End Ref.

Definition ref_lib : Library := Ref.lib.

(** ** Example games *)

Module Ex.

Definition no_keys : Key -> bool := fun _ => false.
Definition no_jitter : nat -> Z := fun _ => 0.

(** The value of a result known to be [Ok]. *)
Definition get (m : Py.result Game) (d : Game) : Game :=
  match m with Ok g => g | Raise _ => d end.

Definition empty_game : Game :=
  mkGame [] (mkDifficulty false false 0%float 0) 0 0 [] [] None Ball_init no_keys no_keys
         None.

(** A match between two computer-controlled teams, hardest difficulty,
    just after [Game()]. *)
Definition cpu_match : Game :=
  Eval vm_compute in get (Game_init no_jitter None None 2 no_keys no_keys) empty_game.

(** The same with a human on team 0. *)
Definition human_match : Game :=
  Eval vm_compute in
    get (Game_init no_jitter (Some (Controls_init 0)) None 2 no_keys no_keys) empty_game.

(** Player [i] placed at [(x, y)], facing [dir], with hold-off timer [t]. *)
Definition place (i : nat) (x y : float) (dir t : Z) (g : Game) : Game :=
  set_players g
    (update_nth i (fun p => mkPlayer (V2 x y) (p_home p) (p_team p) dir t
                                     (p_peer p) (p_mark p) (p_lead p))
       (players g)).

Definition with_ball (b : Ball) (g : Game) : Game := set_ball g b.

Definition press (key : Key) (g : Game) : Game :=
  mkGame (teams g) (difficulty g) (score_timer g) (scoring_team g) (players g)
         (goals g) (kickoff_player g) (ball g) (key_status g)
         (fun k => if Key_eqb k key then true else keyboard g k)
         (debug_shoot_target g).

(** A free ball rolls up the pitch, into the reach of the human player 0,
    in the frame in which the shoot key goes down. *)
Definition caught_and_kicked : Game :=
  with_ball (mkBall (V2 470 710) (V2 0 (-2)) None 0)
    (place 0 470 700 0 (-1) (press SPACE human_match)).

(** A free ball rolls up the pitch, into the reach of player 0, whose team
    is computer-controlled. *)
Definition caught : Game :=
  with_ball (mkBall (V2 470 710) (V2 0 (-2)) None 0)
    (place 0 470 700 0 (-1) cpu_match).

(** Player 0 has the ball and faces up the pitch; its team-mate, player 2,
    stands 100 pixels ahead.  The ball's hold-off timer has [t] frames
    left. *)
Definition pass_ahead (t : Z) : Game :=
  with_ball (mkBall (V2 500 684) Vec.zero (Some 0%nat) t)
    (place 2 500 600 0 (-1) (place 0 500 700 0 (-1) cpu_match)).

(** A match between two computer-controlled teams at the middle
    difficulty, whose hold-off timer for the ball is 90 frames. *)
Definition cpu_match_medium : Game :=
  Eval vm_compute in get (Game_init no_jitter None None 1 no_keys no_keys) empty_game.

(** Player 0 dribbles; the opponent, player 1, is in reach of the ball. *)
Definition tackle : Game :=
  with_ball (mkBall (V2 500 684) Vec.zero (Some 0%nat) 5)
    (place 1 505 690 4 (-1) (place 0 500 700 0 (-70) cpu_match_medium)).

(** The 61st frame after the tackle, when the players have been updated
    and the ball has not yet: every [update] since the tackle took one off
    its timer, which leaves -1 to player 0, who lost the ball at the tackle,
    and 30 to the ball.  Player 1 still dribbles, at (500, 700) facing up,
    and player 0 has come back in reach of the ball. *)
Definition retake : Game :=
  with_ball (mkBall (V2 500 684) Vec.zero (Some 1%nat) 30)
    (place 1 500 700 0 (-62) (place 0 505 690 0 (-1)
       (get (Ball_update ref_lib tackle) empty_game))).

(** The ball lies in the net of the top goal, in open play. *)
Definition in_net : Game :=
  with_ball (mkBall (V2 500 70) (V2 0 (-1)) None (-40))
    (set_score_timer cpu_match (-100)).

(** Player 0 has the ball, the roles of the frame have been reset, and
    every player of team 1 has lost the ball less than 60 frames ago. *)
Definition all_held : Game :=
  Game_reset_roles
    (set_players (with_ball (mkBall (V2 470 684) Vec.zero (Some 0%nat) 20) cpu_match)
       (map (fun p => if p_team p =? 1 then Player_set_timer 25 p else p)
            (players cpu_match))).

End Ex.

(** ** More of the module: movement, facing, switching, menus *)

Definition WIDTH : Z := 800.
Definition HEIGHT : Z := 480.

Definition AI_MIN_X : Z := 78.
Definition AI_MAX_X : Z := LEVEL_W - 78.
Definition AI_MIN_Y : Z := 98.
Definition AI_MAX_Y : Z := LEVEL_H - 98.

(** The builtin [min(a, b)]: the first argument is kept unless the second
    is strictly smaller. *)
Definition py_min (a b : float) : float := if (b <? a)%float then b else a.

(** [max(lo, min(hi, x))], the idiom of [Player.update] and [Game.draw]. *)
Definition clamp (lo hi : Z) (x : float) : float :=
  F.max (F.of_Z lo) (py_min (F.of_Z hi) x).

(** [Player.update], "Stay on the pitch": the target of a lead player. *)
Definition stay_on_pitch (target : Vector2) : Vector2 :=
  V2 (clamp AI_MIN_X AI_MAX_X (vx target)) (clamp AI_MIN_Y AI_MAX_Y (vy target)).

(** [Game.draw]: the scrolling offsets. *)
Definition draw_offset (camera_focus : Vector2) : Vector2 :=
  V2 (clamp 0 (LEVEL_W - WIDTH) (vx camera_focus - F.of_Z WIDTH / 2)%float)
     (clamp 0 (LEVEL_H - HEIGHT) (vy camera_focus - F.of_Z HEIGHT / 2)%float).

(** [Player.update], the facing direction: one step towards [target_dir]. *)
Definition TURN_STEPS : list Z := [0; 1; 1; 1; 1; 7; 7; 7].

Definition turn (dir target_dir : Z) : Py.result Z :=
  let dir_diff := target_dir - dir in
  step <- Py.index TURN_STEPS (dir_diff mod 8) ;;
  Ok ((dir + step) mod 8).

(** [n] frames of turning towards the same direction. *)
Fixpoint turn_frames (n : nat) (dir target_dir : Z) : Py.result Z :=
  match n with
  | O => Ok dir
  | S n' => d <- turn dir target_dir ;; turn_frames n' d target_dir
  end.

(** The end of [Game.update]: the manual switch of the controlled player.
    [owner] is the owner of the ball after the updates of the frame; as a
    condition, an actor is true and [None] is false. *)
Definition dist_key_weighted (g : Game) (owner : option nat) (team_num : Z) (p : Player)
  : float :=
  let dist_to_ball := Vec.length (Vec.sub (p_vpos p) (b_vpos (ball g))) in
  let goal_dir := 2 * team_num - 1 in
  if match owner with Some _ => true | None => false end
     && ((vy (p_vpos p) - vy (b_vpos (ball g))) * F.of_Z goal_dir <? 0)%float
  then (dist_to_ball / 2)%float
  else dist_to_ball.

Definition Game_switch_team (g : Game) (owner : option nat) (team_num : Z)
  : Py.result Game :=
  team_obj <- Py.index (teams g) team_num ;;
  match controls team_obj with
  | None => Ok g
  | Some c =>
      let '(pressed, g) := Controls_shoot c g in
      if pressed then
        i <- min_by (fun i => dist_key_weighted g owner team_num (player_at g i))
                    (filter (fun i => p_team (player_at g i) =? team_num)
                            (seq 0 (length (players g)))) ;;
        update_team g team_num (Team_set_active (Some i))
      else Ok g
  end.

Definition Game_switch (g : Game) : Py.result Game :=
  let owner := b_owner (ball g) in
  g <- Game_switch_team g owner 0 ;;
  Game_switch_team g owner 1.

(** ** The states of the program *)

Inductive State : Set := MENU | PLAY | GAME_OVER.

Inductive MenuState : Set := NUM_PLAYERS | DIFFICULTY_MENU.

(** The module-level variables of [update()]. *)
Record App : Set := mkApp {
  state : State;
  menu_state : option MenuState;
  menu_num_players : Z;
  menu_difficulty : Z;
  game : Game
}.

(** [Game(p1_controls, p2_controls, difficulty)] while the program runs: the
    keyboard and [key_status] are those of the old game object. *)
Definition new_game (jitter : nat -> Z) (old : Game) (p1 p2 : option Controls)
           (difficulty : Z) : Py.result Game :=
  Game_init jitter p1 p2 difficulty (key_status old) (keyboard old).

Definition set_game (a : App) (g : Game) : App :=
  mkApp (state a) (menu_state a) (menu_num_players a) (menu_difficulty a) g.

(** [selection_change] in the menu branch of [update()]: 1 when the down
    arrow has just been pressed, otherwise -1 when the up arrow has, and 0
    when neither has. *)
Definition menu_selection (g : Game) : Z * Game :=
  let '(down, g) := key_just_pressed g DOWN in
  if down then (1, g)
  else let '(up, g) := key_just_pressed g UP in
       if up then (-1, g) else (0, g).

(** The menu branch of [update()], up to its call of [game.update()]. *)
Definition menu_keys (L : Library) (jitter : nat -> Z) (a : App) : Py.result App :=
  let '(space, g) := key_just_pressed (game a) SPACE in
  if space then
    match menu_state a with
    | Some NUM_PLAYERS =>
        if menu_num_players a =? 1 then
          Ok (mkApp (state a) (Some DIFFICULTY_MENU) (menu_num_players a)
                    (menu_difficulty a) g)
        else
          g' <- new_game jitter g (Some (Controls_init 0)) (Some (Controls_init 1)) 2 ;;
          Ok (mkApp PLAY None (menu_num_players a) (menu_difficulty a) g')
    | _ =>
        g' <- new_game jitter g (Some (Controls_init 0)) None (menu_difficulty a) ;;
        Ok (mkApp PLAY None (menu_num_players a) (menu_difficulty a) g')
    end
  else
    let '(selection_change, g) := menu_selection g in
    if negb (selection_change =? 0) then
      _ <- sounds_move_play L ;;
      match menu_state a with
      | Some NUM_PLAYERS =>
          Ok (mkApp (state a) (menu_state a) (if menu_num_players a =? 1 then 2 else 1)
                    (menu_difficulty a) g)
      | _ =>
          Ok (mkApp (state a) (menu_state a) (menu_num_players a)
                    ((menu_difficulty a + selection_change) mod 3) g)
      end
    else Ok (set_game a g).

(** [max(l)] on ints. *)
Definition py_max_list (l : list Z) : Py.result Z :=
  match l with
  | [] => Raise ValueError
  | x :: l' => Ok (fold_left (fun m y => if m <? y then y else m) l' x)
  end.

(** The test of the play branch of [update()]: the match is over. *)
Definition match_over (g : Game) : Py.result bool :=
  m <- py_max_list (map score (teams g)) ;;
  Ok ((m =? 9) && (score_timer g =? 1)).

(** [play n g g']: [n] frames of the play branch of [update()] lead from
    [g] to [g'], none of them ending the match.  Of [game.update()] the
    beginning is run and the rest only known by [same_score_state]. *)
Inductive play (jitter : nat -> Z) : nat -> Game -> Game -> Prop :=
| play_O (g : Game) : play jitter O g g
| play_S (n : nat) (g g1 g2 g3 : Game) :
    play jitter n g g1 ->
    match_over g1 = Ok false ->
    Game_update_score jitter g1 = Ok g2 ->
    same_score_state g2 g3 ->
    play jitter (S n) g g3.

(** No score above 9, and a score of 9 only while the timer of the last
    goal runs. *)
Definition scores_bounded (g : Game) : Prop :=
  Forall (fun s => s <= 9) (map score (teams g))
  /\ (Exists (fun s => s = 9) (map score (teams g)) -> 1 <= score_timer g <= 60).

(** ** Invariants of a game, and what a tick leaves alone *)

(** The players are the same but for their timers. *)
Definition same_but_timers (g g' : Game) : Prop :=
  map (Player_set_timer 0) (players g') = map (Player_set_timer 0) (players g).

(** The owner of the ball, if any, is a player of the roster. *)
Definition owner_ok (g : Game) : Prop :=
  match b_owner (ball g) with
  | Some o => (o < length (players g))%nat
  | None => True
  end.

(** Two teams, and every player on team 0 or 1. *)
Definition roster_ok (g : Game) : Prop :=
  length (teams g) = 2%nat
  /\ forall i, (i < length (players g))%nat ->
       p_team (player_at g i) = 0 \/ p_team (player_at g i) = 1.

(** The player that each team controls is a player of that team. *)
Definition active_ok (g : Game) : Prop :=
  forall (t : nat) (team : Team) (a : nat),
    nth_error (teams g) t = Some team ->
    active_control_player team = Some a ->
    (a < length (players g))%nat /\ p_team (player_at g a) = Z.of_nat t.

(** Every team is computer-controlled. *)
Definition all_cpu (g : Game) : Prop :=
  Forall (fun t => controls t = None) (teams g).

(** What [Ball.update] leaves alone: everything but the ball, the hold-off
    timers of the players, the players that the teams control, [key_status]
    and [debug_shoot_target]. *)
Definition untouched (g g' : Game) : Prop :=
  same_but_timers g g'
  /\ goals g' = goals g
  /\ difficulty g' = difficulty g
  /\ kickoff_player g' = kickoff_player g
  /\ keyboard g' = keyboard g
  /\ map controls (teams g') = map controls (teams g)
  /\ same_score_state g g'.

(** What the manual switch leaves alone: everything but [key_status] and
    the players that the teams control. *)
Definition switch_frame (g g' : Game) : Prop :=
  players g' = players g /\ ball g' = ball g /\ goals g' = goals g
  /\ difficulty g' = difficulty g /\ score_timer g' = score_timer g
  /\ scoring_team g' = scoring_team g /\ kickoff_player g' = kickoff_player g
  /\ keyboard g' = keyboard g /\ debug_shoot_target g' = debug_shoot_target g
  /\ map controls (teams g') = map controls (teams g)
  /\ map score (teams g') = map score (teams g).

(** The weighted distance from player [i] to the ball, as the switch of
    team [n] measures it. *)
Definition switch_key (g : Game) (n i : nat) : float :=
  dist_key_weighted g (b_owner (ball g)) (Z.of_nat n) (player_at g i).

(** Player [i] is the first of the players of team [n] with the least
    weighted distance to the ball: no player of the team has a smaller one,
    and no player of the team before [i] in the roster has one that is
    smaller or equal. *)
Definition nearest_of_team (g : Game) (n i : nat) : Prop :=
  (i < length (players g))%nat
  /\ p_team (player_at g i) = Z.of_nat n
  /\ (forall j, (j < length (players g))%nat -> p_team (player_at g j) = Z.of_nat n ->
        (switch_key g n j <? switch_key g n i)%float = false)
  /\ (forall j, (j < i)%nat -> p_team (player_at g j) = Z.of_nat n ->
        (switch_key g n j <=? switch_key g n i)%float = false).

(** The manual switch of team [n] leads from [g] to [g']: the other teams
    are as they were; a computer team changes nothing; a human team reads
    its shoot key and, when the key has just been pressed, takes the nearest
    of its players, otherwise keeps the teams as they were. *)
Definition team_switched (g g' : Game) (n : nat) : Prop :=
  exists t,
    nth_error (teams g) n = Some t
    /\ (forall m, m <> n -> nth_error (teams g') m = nth_error (teams g) m)
    /\ match controls t with
       | None => g' = g
       | Some c =>
           key_status g' = key_status (snd (Controls_shoot c g))
           /\ if fst (Controls_shoot c g)
              then exists i, nth_error (teams g') n = Some (Team_set_active (Some i) t)
                             /\ nearest_of_team g n i
              else teams g' = teams g
       end.

(** The invariant of the references of a game. *)
Definition well_formed (g : Game) : Prop := roster_ok g /\ owner_ok g /\ active_ok g.

(** [well_formed], decided. *)
Definition team_active_ok (g : Game) (t : nat) (team : Team) : bool :=
  match active_control_player team with
  | Some a => (a <? length (players g))%nat && (p_team (player_at g a) =? Z.of_nat t)
  | None => true
  end.

Definition well_formedb (g : Game) : bool :=
  (length (teams g) =? 2)%nat
  && forallb (fun p => (p_team p =? 0) || (p_team p =? 1)) (players g)
  && match b_owner (ball g) with
     | Some o => (o <? length (players g))%nat
     | None => true
     end
  && forallb (fun tt => team_active_ok g (fst tt) (snd tt))
             (combine (seq 0 (length (teams g))) (teams g)).

(** The same game in a later frame, in which the keyboard is [kb]. *)
Definition next_frame (g : Game) (kb : Key -> bool) : Game :=
  mkGame (teams g) (difficulty g) (score_timer g) (scoring_team g) (players g)
         (goals g) (kickoff_player g) (ball g) (key_status g) kb
         (debug_shoot_target g).

(** The player stands in the half of its own team: team 0 below the
    half-way line, team 1 above. *)
Definition in_own_half (p : Player) : bool :=
  if p_team p =? 0 then (F.of_Z HALF_LEVEL_H <? vy (p_vpos p))%float
  else (vy (p_vpos p) <? F.of_Z HALF_LEVEL_H)%float.

(** Every value of [random.randint(-32, 32)] lies between its bounds. *)
Definition jitter_ok (jitter : nat -> Z) : Prop := forall k, -32 <= jitter k <= 32.

(** The number of lead players that the difficulty asks for. *)
Definition leads_needed (g : Game) : nat :=
  if second_lead_enabled (difficulty g) then 2%nat else 1%nat.

(** The integers from [lo], [n] of them. *)
Fixpoint Z_range (lo : Z) (n : nat) : list Z :=
  match n with
  | O => []
  | S n' => lo :: Z_range (lo + 1) n'
  end.

Module Ex2.

(** A human on team 0 dribbles at (470, 700), facing up the pitch, and
    presses no key. *)
Definition human_dribble : Game :=
  Ex.with_ball (mkBall (V2 470 684) Vec.zero (Some 0%nat) 30)
    (Ex.place 0 470 700 0 (-1) Ex.human_match).

(** The ball is free and the human of team 0 presses the shoot key. *)
Definition switch_pressed : Game := Ex.press SPACE Ex.human_match.

(** Player 0 has the ball, the roles of the frame have been reset, and of
    team 1 only player 5, whose home is at x = 800, has no hold-off time
    left.  The difficulty is the middle one, which asks for two lead
    players. *)
Definition one_chaser : Game :=
  Game_reset_roles
    (set_players (Ex.with_ball (mkBall (V2 470 684) Vec.zero (Some 0%nat) 20)
                    Ex.cpu_match_medium)
       (map (fun p => if (p_team p =? 1) && negb (vx (p_home p) =? 800)%float
                      then Player_set_timer 25 p else p)
            (players Ex.cpu_match_medium))).

(** Player 1, of team 1, has the ball at (500, 900), and the human of team
    0 presses the shoot key.  Of team 0, player 6 stands at (500, 925). *)
Definition switch_weighted : Game :=
  Ex.press SPACE
    (Ex.with_ball (mkBall (V2 500 900) Vec.zero (Some 1%nat) 0) Ex.human_match).

(** The program in its menu, on the choice of the difficulty, when the
    down arrow goes down. *)
Definition menu : App :=
  mkApp MENU (Some DIFFICULTY_MENU) 1 2 (Ex.press DOWN Ex.cpu_match).

End Ex2.

(* ================================================================== *)
(** * Properties *)

(** ** Rounding to binary64 never turns a positive value into zero *)

Module Rounding.

Import SF.

(** The number of digits of a mantissa. *)
Lemma digits2_size (p : positive) : digits2_pos p = Pos.size p.
Proof. induction p; simpl; now rewrite ?IHp. Qed.

Lemma digits_lower (p : positive) : 2 ^ (Z.pos (digits2_pos p) - 1) <= Z.pos p.
Proof.
  rewrite digits2_size.
  pose proof (Pos.size_le p) as H.
  assert (H' : 2 ^ Z.pos (Pos.size p) <= 2 * Z.pos p).
  { change (2 * Z.pos p) with (Z.pos p~0). rewrite <- Pos2Z.inj_pow. exact H. }
  replace (Z.pos (Pos.size p)) with (Z.succ (Z.pos (Pos.size p) - 1)) in H' by lia.
  rewrite Z.pow_succ_r in H' by lia. lia.
Qed.

Lemma digits_upper (p : positive) : Z.pos p < 2 ^ Z.pos (digits2_pos p).
Proof.
  rewrite digits2_size. pose proof (Pos.size_gt p) as H.
  rewrite <- Pos2Z.inj_pow. exact H.
Qed.

(** Shifting a mantissa to the right. *)
Lemma shr_1_m (mrs : shr_record) :
  0 <= shr_m mrs -> shr_m (shr_1 mrs) = Z.div2 (shr_m mrs).
Proof.
  destruct mrs as [m r s]. simpl. destruct m as [|[p|p|]|p]; simpl; try reflexivity; lia.
Qed.

Lemma iter_shr_m (p : positive) (mrs : shr_record) :
  0 <= shr_m mrs ->
  shr_m (iter_pos shr_1 p mrs) = Z.shiftr (shr_m mrs) (Z.pos p).
Proof.
  revert mrs. induction p as [p IH|p IH|]; intros mrs H; simpl iter_pos.
  - assert (H1 : 0 <= shr_m (shr_1 mrs)).
    { rewrite shr_1_m by exact H. apply Z.div2_nonneg. exact H. }
    assert (H2 : 0 <= shr_m (iter_pos shr_1 p (shr_1 mrs))).
    { rewrite IH by exact H1. apply Z.shiftr_nonneg. exact H1. }
    rewrite IH by exact H2. rewrite IH by exact H1. rewrite shr_1_m by exact H.
    rewrite Z.div2_spec. rewrite !Z.shiftr_shiftr by lia. f_equal. lia.
  - assert (H2 : 0 <= shr_m (iter_pos shr_1 p mrs)).
    { rewrite IH by exact H. apply Z.shiftr_nonneg. exact H. }
    rewrite IH by exact H2. rewrite IH by exact H.
    rewrite !Z.shiftr_shiftr by lia. f_equal. lia.
  - rewrite shr_1_m by exact H. now rewrite Z.div2_spec.
Qed.

Lemma shr_record_m (m : Z) (l : location) : shr_m (shr_record_of_loc m l) = m.
Proof. destruct l as [|[]]; reflexivity. Qed.


(** A positive mantissa with an exponent of at least [emin] stays positive
    when it is shifted to its canonical exponent. *)
Lemma shr_fexp_pos (m e : Z) (l : location) :
  0 < m -> emin <= e ->
  0 < shr_m (fst (shr_fexp prec emax m e l))
  /\ e <= snd (shr_fexp prec emax m e l)
  /\ fexp prec emax (Zdigits2 m + e) <= snd (shr_fexp prec emax m e l).
Proof.
  intros Hm He. unfold shr_fexp, shr.
  destruct m as [|p|p]; try lia. simpl Zdigits2.
  set (d := Z.pos (digits2_pos p)).
  assert (Hf : fexp prec emax (d + e) = Z.max (d + e - prec) emin) by reflexivity.
  set (f := fexp prec emax (d + e)) in *. clearbody f.
  change prec with 53 in Hf. unfold emin in *. change (SpecFloat.emin 53 emax) with (-1074) in *.
  destruct (f - e) as [|n|n] eqn:En; simpl.
  - rewrite shr_record_m. lia.
  - rewrite iter_shr_m by (rewrite shr_record_m; lia).
    rewrite shr_record_m.
    assert (Hn : Z.pos n = d - 53) by lia.
    split; [|lia].
    rewrite Z.shiftr_div_pow2 by lia.
    apply Z.div_str_pos. split; [apply Z.pow_pos_nonneg; lia|].
    pose proof (digits_lower p) as Hl. fold d in Hl.
    apply Z.le_trans with (2 ^ (d - 1)); [|exact Hl].
    apply Z.pow_le_mono_r; lia.
  - rewrite shr_record_m. lia.
Qed.

Lemma round_nearest_even_ge (m : Z) (l : location) : m <= round_nearest_even m l.
Proof.
  destruct l as [|[]]; simpl; try lia. destruct (Z.even m); lia.
Qed.


Lemma round_nonzero (s : bool) (m e : Z) (l : location) :
  0 < m -> emin <= e ->
  nz_above (fexp prec emax (Zdigits2 m + e)) (binary_round_aux prec emax s m e l).
Proof.
  intros Hm He. unfold binary_round_aux.
  destruct (shr_fexp_pos m e l Hm He) as (H1 & H2 & H3).
  destruct (shr_fexp prec emax m e l) as [mrs' e']. simpl in H1, H2, H3.
  pose proof (round_nearest_even_ge (shr_m mrs') (loc_of_shr_record mrs')) as Hr.
  set (m2 := round_nearest_even (shr_m mrs') (loc_of_shr_record mrs')) in *.
  assert (Hm2 : 0 < m2) by lia.
  assert (He' : emin <= e') by lia.
  destruct (shr_fexp_pos m2 e' loc_Exact Hm2 He') as (H4 & H5 & _).
  destruct (shr_fexp prec emax m2 e' loc_Exact) as [mrs'' e'']. simpl in H4, H5.
  destruct (shr_m mrs'') as [|p|p]; try lia.
  destruct (e'' <=? emax - prec); simpl; [lia|exact I].
Qed.

Lemma round_shape (m e : Z) (l : location) :
  match binary_round_aux prec emax false m e l with
  | S754_zero false | S754_infinity false | S754_nan | S754_finite false _ _ => True
  | _ => False
  end.
Proof.
  unfold binary_round_aux.
  destruct (shr_fexp prec emax m e l) as [mrs' e'].
  destruct (shr_fexp prec emax _ e' loc_Exact) as [mrs'' e''].
  destruct (shr_m mrs''); [exact I| |exact I].
  destruct (e'' <=? emax - prec)%Z; exact I.
Qed.



Lemma round_posnz (m e : Z) (l : location) :
  0 < m -> emin <= e -> posnz (binary_round_aux prec emax false m e l).
Proof.
  intros Hm He. pose proof (round_nonzero false m e l Hm He) as Hn.
  pose proof (round_shape m e l) as Hs.
  destruct (binary_round_aux prec emax false m e l) as [b|b| |b p e']; try destruct b;
    simpl in *; try contradiction; exact I.
Qed.

Lemma sq_posnz (d : spec_float) : nz_above (-537) d -> posnz (SFmul prec emax d d).
Proof.
  destruct d as [s|s| |s m e]; simpl; intros He; try contradiction;
    try exact I; try (destruct s; exact I).
  destruct s; simpl; (apply round_posnz; [lia|]);
    unfold emin; change (SpecFloat.emin prec emax) with (-1074); lia.
Qed.

Lemma sq_nonneg (d : spec_float) : nonneg (SFmul prec emax d d).
Proof.
  destruct d as [s|s| |s m e]; simpl; try exact I; try (destruct s; exact I).
  replace (xorb s s) with false by (now destruct s).
  pose proof (round_shape (Z.pos (m * m)) (e + e) loc_Exact) as Hs.
  destruct (binary_round_aux prec emax false _ _ _) as [b|b| |b p e']; try destruct b;
    simpl in *; try contradiction; exact I.
Qed.

Lemma add_zero_posnz (a : spec_float) :
  posnz a -> SFadd prec emax (S754_zero false) a = a.
Proof. destruct a as [s|s| |s m e]; simpl; try contradiction; reflexivity. Qed.

Lemma add_zero_nonneg (a : spec_float) :
  nonneg a -> nonneg (SFadd prec emax (S754_zero false) a).
Proof. destruct a as [s|s| |s m e]; simpl; try destruct s; simpl; try contradiction; auto. Qed.

Lemma valid_exponent (s : bool) (m : positive) (e : Z) :
  valid_binary (S754_finite s m e) = true -> emin <= e.
Proof.
  simpl. unfold bounded, canonical_mantissa. intros H.
  apply andb_prop in H as [H _]. apply Z.eqb_eq in H.
  unfold fexp in H. unfold emin. lia.
Qed.

Lemma binary_round_posnz (m : positive) (e : Z) :
  emin <= e -> posnz (binary_round prec emax false m e).
Proof.
  intros He. unfold binary_round, shl_align.
  set (f := fexp prec emax (Z.pos (digits2_pos m) + e)).
  assert (Hf : emin <= f) by (unfold f, fexp, emin; lia).
  destruct (f - e) as [|n|n] eqn:En; apply round_posnz; lia.
Qed.

Lemma add_posnz (a b : spec_float) :
  valid_binary a = true -> valid_binary b = true ->
  (posnz a /\ nonneg b) \/ (nonneg a /\ posnz b) ->
  posnz (SFadd prec emax a b).
Proof.
  intros Va Vb H.
  destruct a as [sa|sa| |sa ma ea], b as [sb|sb| |sb mb eb];
    try destruct sa; try destruct sb; simpl in H;
    try (exfalso; tauto); try exact I.
  apply valid_exponent in Va, Vb.
  simpl. unfold binary_normalize.
  set (x := fst (shl_align ma ea (Z.min ea eb))).
  set (y := fst (shl_align mb eb (Z.min ea eb))).
  change (Z.pos x + Z.pos y) with (Z.pos (x + y)).
  apply binary_round_posnz. lia.
Qed.

Lemma sqrt_posnz (a : spec_float) :
  valid_binary a = true -> posnz a -> posnz (SFsqrt prec emax a).
Proof.
  intros Va H. destruct a as [s|s| |s m e]; try destruct s; simpl in H; try contradiction;
    try exact I.
  apply valid_exponent in Va. simpl. unfold SFsqrt_core_binary.
  set (d := Zdigits2 (Z.pos m)).
  set (e' := Z.min (fexp prec emax (Z.div2 (d + e + 1))) (Z.div2 e)).
  assert (He' : emin <= e' /\ 2 * e' <= e).
  { unfold e', fexp, emin in *. change (SpecFloat.emin prec emax) with (-1074) in *.
    rewrite !Z.div2_div. split.
    - apply Z.min_glb; [lia|]. apply Z.div_le_lower_bound; lia.
    - assert (2 * (e / 2) <= e) by (apply Z.mul_div_le; lia). lia. }
  destruct He' as [He1 He2].
  set (m' := match e - 2 * e' with
             | Z.pos _ => Z.shiftl (Z.pos m) (e - 2 * e')
             | 0 => Z.pos m
             | Z.neg _ => 0
             end).
  assert (Hm' : 0 < m').
  { unfold m'. destruct (e - 2 * e') as [|n|n] eqn:En; try lia.
    rewrite Z.shiftl_mul_pow2 by lia.
    apply Z.mul_pos_pos; [lia|apply Z.pow_pos_nonneg; lia]. }
  pose proof (Z.sqrtrem_sqrt m') as Hq.
  destruct (Z.sqrtrem m') as [q r]. simpl in Hq. subst q.
  apply round_posnz; [|exact He1].
  now apply Z.sqrt_pos.
Qed.

Lemma posnz_not_zero (f : spec_float) : posnz f -> SFeqb f (S754_zero false) = false.
Proof. destruct f as [s|s| |s m e]; try destruct s; simpl; try contradiction; reflexivity. Qed.

(** Aligning a mantissa to a smaller exponent. *)
Lemma iter_xO_value (m d : positive) : Z.pos (Pos.iter xO m d) = Z.pos m * 2 ^ Z.pos d.
Proof.
  induction d as [|d IH] using Pos.peano_ind.
  - simpl. lia.
  - rewrite Pos.iter_succ, Pos2Z.inj_succ, Z.pow_succ_r by lia.
    change (Z.pos (Pos.iter xO m d)~0) with (2 * Z.pos (Pos.iter xO m d)). lia.
Qed.

Lemma iter_xO_digits (m d : positive) :
  Z.pos (digits2_pos (Pos.iter xO m d)) = Z.pos (digits2_pos m) + Z.pos d.
Proof.
  induction d as [|d IH] using Pos.peano_ind.
  - simpl. lia.
  - rewrite Pos.iter_succ. simpl digits2_pos. lia.
Qed.

Lemma shl_align_value (m : positive) (e e' : Z) :
  e' <= e -> Z.pos (fst (shl_align m e e')) = Z.pos m * 2 ^ (e - e').
Proof.
  intros H. unfold shl_align. destruct (e' - e) as [|d|d] eqn:Ed; simpl; try lia.
  - replace (e - e') with 0 by lia. rewrite Z.pow_0_r. lia.
  - rewrite iter_xO_value. replace (e - e') with (Z.pos d) by lia. reflexivity.
Qed.

Lemma shl_align_digits (m : positive) (e e' : Z) :
  Z.pos (digits2_pos (fst (shl_align m e e'))) + snd (shl_align m e e')
  = Z.pos (digits2_pos m) + e
  /\ (snd (shl_align m e e') = e \/ snd (shl_align m e e') = e').
Proof.
  unfold shl_align. destruct (e' - e) as [|d|d] eqn:Ed; cbn [fst snd]; try lia.
  rewrite iter_xO_digits. lia.
Qed.

Lemma binary_round_nz (s : bool) (p : positive) (e : Z) :
  emin <= e ->
  nz_above (Z.pos (digits2_pos p) + e - prec) (binary_round prec emax s p e).
Proof.
  intros He. unfold binary_round.
  set (f := fexp prec emax (Z.pos (digits2_pos p) + e)).
  pose proof (shl_align_digits p e f) as [Hd Hs].
  destruct (shl_align p e f) as [mz ez]. cbn [fst snd] in Hd, Hs.
  assert (Hez : emin <= ez).
  { destruct Hs as [->| ->]; [exact He|]. unfold f, fexp, emin. lia. }
  pose proof (round_nonzero s (Z.pos mz) ez loc_Exact eq_refl Hez) as Hn.
  change (Zdigits2 (Z.pos mz)) with (Z.pos (digits2_pos mz)) in Hn. rewrite Hd in Hn.
  destruct (binary_round_aux prec emax s (Z.pos mz) ez loc_Exact); cbn [nz_above] in *;
    try assumption.
  unfold fexp in Hn. lia.
Qed.

Lemma digits_ge (p : positive) (j : Z) : 0 <= j -> 2 ^ j <= Z.pos p -> j < Z.pos (digits2_pos p).
Proof.
  intros Hj H. pose proof (digits_upper p) as Hu.
  apply (Z.pow_lt_mono_r_iff 2); lia.
Qed.

Lemma valid_finite (s : bool) (m : positive) (e : Z) :
  valid_binary (S754_finite s m e) = true ->
  emin <= e /\ Z.pos m < 2 ^ 53 /\ (emin < e -> 2 ^ 52 <= Z.pos m).
Proof.
  unfold valid_binary, SpecFloat.valid_binary, bounded, canonical_mantissa. intros H.
  apply andb_prop in H as [H _]. apply Z.eqb_eq in H.
  unfold fexp in H. change (SpecFloat.emin prec emax) with (-1074) in H.
  change prec with 53 in H. unfold emin. change (SpecFloat.emin prec emax) with (-1074).
  pose proof (digits_upper m) as Hu. pose proof (digits_lower m) as Hl.
  set (d := Z.pos (digits2_pos m)) in *.
  split; [lia|]. split.
  - apply Z.lt_le_trans with (2 ^ d); [exact Hu|]. apply Z.pow_le_mono_r; lia.
  - intros He. assert (d = 53) by lia. replace 52 with (d - 1) by lia. exact Hl.
Qed.

Lemma nz_above_le (b b' : Z) (f : spec_float) : b' <= b -> nz_above b f -> nz_above b' f.
Proof. destruct f; simpl; intros; try assumption; try exact I. lia. Qed.

Lemma binary_normalize_nz (M e : Z) (j : Z) :
  emin <= e -> 0 <= j -> 2 ^ j <= Z.abs M -> -484 <= j + 1 + e ->
  nz_above (-537) (binary_normalize prec emax M e false).
Proof.
  intros He Hj HM Hb.
  assert (Hpos : 0 < 2 ^ j) by (apply Z.pow_pos_nonneg; lia).
  destruct M as [|p|p]; simpl in HM; try lia; simpl binary_normalize.
  - apply nz_above_le with (Z.pos (digits2_pos p) + e - prec).
    + pose proof (digits_ge p j Hj HM). change prec with 53. lia.
    + now apply binary_round_nz.
  - apply nz_above_le with (Z.pos (digits2_pos p) + e - prec).
    + pose proof (digits_ge p j Hj HM). change prec with 53. lia.
    + now apply binary_round_nz.
Qed.

Lemma compare_cont_refl (p : positive) : Pos.compare_cont Eq p p = Eq.
Proof. apply Pos.compare_refl. Qed.

Lemma sub_nz (x : spec_float) (mc : positive) (ec : Z) :
  valid_binary x = true ->
  2 ^ 52 <= Z.pos mc < 2 ^ 53 -> -100 <= ec ->
  SFeqb x (S754_finite false mc ec) = false ->
  nz_above (-537) (SFsub prec emax x (S754_finite false mc ec)).
Proof.
  intros Vx Hmc Hec Hne.
  assert (H52 : 2 ^ 52 = 4503599627370496) by reflexivity.
  assert (H53 : 2 ^ 53 = 9007199254740992) by reflexivity.
  rewrite H52, H53 in Hmc.
  destruct x as [s|s| |sx mx ex]; try exact I.
  - simpl. lia.
  - apply valid_finite in Vx. destruct Vx as (Hex & Hmx & Hnorm).
    rewrite H53 in Hmx. rewrite H52 in Hnorm.
    unfold emin in *. change (SpecFloat.emin prec emax) with (-1074) in *.
    cbn [SFsub].
    set (ez := Z.min ex ec).
    pose proof (shl_align_value mx ex ez ltac:(unfold ez; lia)) as HX.
    pose proof (shl_align_value mc ec ez ltac:(unfold ez; lia)) as HC.
    set (X := Z.pos (fst (shl_align mx ex ez))) in *.
    set (C := Z.pos (fst (shl_align mc ec ez))) in *.
    cbn [cond_Zopp].
    destruct (Z_le_gt_dec ex (ec - 2)) as [Hfar|Hnear].
    + (* the exponent of [x] is far below that of the constant *)
      assert (Hez : ez = ex) by (unfold ez; lia).
      rewrite Hez in *. replace (ex - ex) with 0 in HX by lia.
      rewrite Z.pow_0_r in HX.
      set (k := ec - ex) in *.
      assert (Hk : 2 <= k) by (unfold k; lia).
      assert (HP : 4 <= 2 ^ k).
      { change 4 with (2 ^ 2). apply Z.pow_le_mono_r; lia. }
      set (P := 2 ^ k) in *.
      assert (HCP : 4503599627370496 * P <= C) by (rewrite HC; nia).
      apply binary_normalize_nz with (j := 51 + k).
      * unfold emin. change (SpecFloat.emin prec emax) with (-1074). lia.
      * lia.
      * rewrite Z.pow_add_r by lia. fold P.
        change (2 ^ 51) with 2251799813685248.
        destruct sx; cbn [cond_Zopp]; lia.
      * unfold k. lia.
    + (* the exponents are close, or [x] is the larger *)
      apply binary_normalize_nz with (j := 0).
      * unfold emin. change (SpecFloat.emin prec emax) with (-1074). unfold ez. lia.
      * lia.
      * rewrite Z.pow_0_r.
        assert (HM : cond_Zopp sx X - C <> 0); [|lia].
        destruct sx; cbn [cond_Zopp]; [unfold X, C; lia|].
        intros HXC. assert (HXC' : X = C) by lia. clear HXC.
        destruct (Z.lt_trichotomy ex ec) as [Hlt|[Heq|Hgt]].
        --
           assert (Hez : ez = ex) by (unfold ez; lia).
           rewrite Hez in *. replace (ex - ex) with 0 in HX by lia.
           rewrite Z.pow_0_r in HX.
           replace (ec - ex) with 1 in HC by lia. rewrite Z.pow_1_r in HC. lia.
        -- subst ec. assert (Hez : ez = ex) by (unfold ez; lia).
           rewrite Hez in *. replace (ex - ex) with 0 in HX, HC by lia.
           rewrite Z.pow_0_r in HX, HC.
           assert (mx = mc) by lia. subst mc.
           simpl in Hne. unfold SFeqb in Hne. simpl in Hne.
           rewrite Z.compare_refl, compare_cont_refl in Hne. discriminate Hne.
        -- assert (Hez : ez = ec) by (unfold ez; lia).
           rewrite Hez in *. replace (ec - ec) with 0 in HC by lia.
           rewrite Z.pow_0_r in HC.
           assert (HP : 2 <= 2 ^ (ex - ec)).
           { change 2 with (2 ^ 1) at 1. apply Z.pow_le_mono_r; lia. }
           specialize (Hnorm ltac:(lia)). nia.
      * unfold ez. lia.
Qed.

End Rounding.

(** ** Facts on binary64 comparisons and signs *)

Module FloatFacts.

Local Open Scope float_scope.

Lemma ltb_leb (a b : float) : (a <? b) = true -> (a <=? b) = true.
Proof.
  rewrite ltb_spec, leb_spec. unfold SFltb, SFleb.
  destruct (SFcompare (Prim2SF a) (Prim2SF b)) as [[]|]; congruence.
Qed.

Lemma ltb_not_eqb (a b : float) : (a <? b) = true -> (a =? b) = false.
Proof.
  rewrite ltb_spec, eqb_spec. unfold SFltb, SFeqb.
  destruct (SFcompare (Prim2SF a) (Prim2SF b)) as [[]|]; congruence.
Qed.

Lemma eqb_zero_not_pos (d : float) : (d =? 0) = true -> (0 <? d) = false.
Proof.
  rewrite ltb_spec, eqb_spec.
  change (Prim2SF 0) with (S754_zero false).
  destruct (Prim2SF d) as [s|s| |s m e]; try destruct s; cbn; congruence.
Qed.

Lemma ge24_nonzero (y : float) : (24 <=? y) = true -> (y =? 0) = false.
Proof.
  rewrite leb_spec, eqb_spec.
  change (Prim2SF 24) with (S754_finite false 6755399441055744 (-48)).
  change (Prim2SF 0) with (S754_zero false).
  destruct (Prim2SF y) as [s|s| |s m e]; try destruct s; cbn; congruence.
Qed.

(** Rounding does not look at the sign. *)
Lemma SFabs_round (s : bool) (m e : Z) (l : location) :
  SFabs (binary_round_aux prec emax s m e l) = binary_round_aux prec emax false m e l.
Proof.
  unfold binary_round_aux.
  destruct (shr_fexp prec emax m e l) as [mrs' e'].
  destruct (shr_fexp prec emax _ e' loc_Exact) as [mrs'' e''].
  destruct (shr_m mrs''); [reflexivity| |reflexivity].
  destruct (e'' <=? emax - prec)%Z; reflexivity.
Qed.

Lemma SFabs_mul (a c : spec_float) :
  SFabs (SFmul prec emax a c) = SFmul prec emax (SFabs a) (SFabs c).
Proof.
  destruct a as [sa|sa| |sa ma ea], c as [sc|sc| |sc mc ec]; try reflexivity.
  simpl. apply SFabs_round.
Qed.

Lemma abs_mul (a c : float) : abs (a * c) = abs a * abs c.
Proof.
  apply Prim2SF_inj. rewrite abs_spec, !mul_spec, !abs_spec. apply SFabs_mul.
Qed.

Lemma abs_opp (a : float) : abs (- a) = abs a.
Proof.
  apply Prim2SF_inj. rewrite !abs_spec, opp_spec.
  destruct (Prim2SF a); reflexivity.
Qed.

Lemma mul_comm (a c : float) : a * c = c * a.
Proof.
  apply Prim2SF_inj. rewrite !mul_spec.
  destruct (Prim2SF a) as [sa|sa| |sa ma ea], (Prim2SF c) as [sc|sc| |sc mc ec];
    simpl; rewrite ?(xorb_comm sa sc); try reflexivity.
  now rewrite (Pos.mul_comm ma mc), (Z.add_comm ea ec).
Qed.

(** A square root that is not zero and is below something is positive. *)
Lemma sqrt_positive (s x : float) :
  (sqrt s =? 0) = false -> (sqrt s <? x) = true -> (0 <? sqrt s) = true.
Proof.
  rewrite !ltb_spec, eqb_spec, sqrt_spec.
  change (Prim2SF 0) with (S754_zero false).
  unfold SF64sqrt.
  destruct (Prim2SF s) as [b|b| |b m e]; try destruct b; cbn; try congruence.
  destruct (SFsqrt_core_binary prec emax (Z.pos m) e) as [[mz ez] lz].
  pose proof (Rounding.round_shape mz ez lz) as H.
  destruct (binary_round_aux prec emax false mz ez lz) as [b|b| |b m' e'];
    try destruct b; cbn; try congruence; try contradiction.
Qed.

Lemma mul_zero_shape (x : float) :
  match Prim2SF (x * 0) with
  | S754_zero _ | S754_nan => True
  | _ => False
  end.
Proof.
  rewrite mul_spec. change (Prim2SF 0) with (S754_zero false).
  destruct (Prim2SF x) as [b|b| |b m e]; exact I.
Qed.

(** The dot product with the zero vector is a zero or [nan]. *)
Lemma dot_zero_small (x y : float) : (0.8 <? 0 + x * 0 + y * 0) = false.
Proof.
  rewrite ltb_spec, !add_spec.
  pose proof (mul_zero_shape x) as Hx. pose proof (mul_zero_shape y) as Hy.
  change (Prim2SF 0) with (S754_zero false).
  change (Prim2SF 0.8) with (S754_finite false 7205759403792794 (-53)).
  destruct (Prim2SF (x * 0)) as [b|b| |b m e]; try contradiction;
  destruct (Prim2SF (y * 0)) as [c|c| |c m' e']; try contradiction;
  try destruct b; try destruct c; reflexivity.
Qed.

(** Equality with a positive constant is equality. *)
Lemma eqb_finite_eq (x c : float) (mc : positive) (ec : Z) :
  Prim2SF c = S754_finite false mc ec -> (x =? c) = true -> x = c.
Proof.
  intros Hc H. apply Prim2SF_inj. rewrite eqb_spec, Hc in H. rewrite Hc.
  unfold SFeqb in H.
  destruct (Prim2SF x) as [s|s| |s m e]; try destruct s; simpl in H; try discriminate.
  destruct (e ?= ec)%Z eqn:Ee; try discriminate.
  apply Z.compare_eq in Ee. subst e.
  destruct (Pos.compare_cont Eq m mc) eqn:Em; try discriminate.
  apply Pos.compare_eq in Em. now subst m.
Qed.

(** The distance to a point of the level is not zero anywhere else: the
    differences are exact enough and the squares do not underflow. *)
Lemma hypot_nonzero (x y cx cy : float) (mx my : positive) (ex ey : Z) :
  Prim2SF cx = S754_finite false mx ex -> (2 ^ 52 <= Z.pos mx < 2 ^ 53)%Z -> (-100 <= ex)%Z ->
  Prim2SF cy = S754_finite false my ey -> (2 ^ 52 <= Z.pos my < 2 ^ 53)%Z -> (-100 <= ey)%Z ->
  (x =? cx) = false \/ (y =? cy) = false ->
  (sqrt (0 + (x - cx) * (x - cx) + (y - cy) * (y - cy)) =? 0) = false.
Proof.
  intros Hcx Hmx Hex Hcy Hmy Hey Hne.
  rewrite eqb_spec. change (Prim2SF 0) with (S754_zero false).
  apply Rounding.posnz_not_zero. rewrite sqrt_spec. apply Rounding.sqrt_posnz; [apply Prim2SF_valid|].
  rewrite add_spec. apply Rounding.add_posnz; try apply Prim2SF_valid.
  rewrite add_spec, !mul_spec, !sub_spec.
  change (Prim2SF 0) with (S754_zero false). rewrite Hcx, Hcy.
  destruct Hne as [Hx|Hy].
  - left. split.
    + rewrite eqb_spec, Hcx in Hx.
      pose proof (Rounding.sub_nz (Prim2SF x) mx ex (Prim2SF_valid x) Hmx Hex Hx) as Hd.
      apply Rounding.sq_posnz in Hd. unfold SF64add, SF64mul, SF64sub.
      rewrite Rounding.add_zero_posnz; assumption.
    + apply Rounding.sq_nonneg.
  - right. split.
    + apply Rounding.add_zero_nonneg, Rounding.sq_nonneg.
    + rewrite eqb_spec, Hcy in Hy.
      pose proof (Rounding.sub_nz (Prim2SF y) my ey (Prim2SF_valid y) Hmy Hey Hy) as Hd.
      now apply Rounding.sq_posnz in Hd.
Qed.

End FloatFacts.

(** ** [steps] *)

(** Unfolding of one iteration, from an arbitrary loop state. *)
Lemma steps_loop_exit (fuel : nat) (d : float) (n : Z) (v : float) :
  (0 <? d)%float && (0.25 <? v)%float = false ->
  steps_loop fuel d n v = Some n.
Proof. intros H; destruct fuel; simpl; now rewrite H. Qed.

Lemma steps_loop_slow (k fuel : nat) (d : float) (n : Z) (v : float) :
  (0.25 <? Nat.iter k (fun x => x * DRAG)%float v)%float = false ->
  (k <= fuel)%nat ->
  exists m, steps_loop fuel d n v = Some m /\ n <= m <= n + Z.of_nat k.
Proof.
  revert fuel d n v; induction k as [|k IH]; intros fuel d n v Hv Hk.
  - simpl in Hv. exists n; split; [|lia].
    apply steps_loop_exit; rewrite Hv; apply andb_false_r.
  - destruct ((0 <? d)%float && (0.25 <? v)%float) eqn:E.
    + destruct fuel as [|fuel]; [lia|]. simpl; rewrite E.
      destruct (IH fuel (d - v)%float (n + 1) (v * DRAG)%float) as (m & Hm & Hb).
      * now rewrite Nat.iter_succ_r in Hv.
      * lia.
      * exists m; split; [exact Hm|lia].
    + exists n; split; [now apply steps_loop_exit|lia].
Qed.

Lemma steps_vel_bound : (0.25 <? Nat.iter 190 (fun x => x * DRAG)%float KICK_STRENGTH)%float = false.
Proof. vm_compute. reflexivity. Qed.

Lemma steps_loop_enough (fuel : nat) (d : float) :
  (190 <= fuel)%nat ->
  exists m, steps_loop fuel d 0 KICK_STRENGTH = Some m /\ 0 <= m <= 190.
Proof.
  intros Hf.
  destruct (steps_loop_slow 190 fuel d 0 KICK_STRENGTH steps_vel_bound Hf) as (m & Hm & Hb).
  exists m; split; [exact Hm|]. change (Z.of_nat 190) with 190 in Hb. lia.
Qed.

(** The result is the number of the first loop state at which the test of
    the [while] fails. *)
Lemma steps_loop_exit_state (fuel k : nat) (d : float) (m : Z) :
  steps_loop fuel (fst (steps_state k d)) (Z.of_nat k) (snd (steps_state k d)) = Some m ->
  exists j, m = Z.of_nat j /\ (k <= j)%nat /\ steps_running j d = false
            /\ forall i, (k <= i < j)%nat -> steps_running i d = true.
Proof.
  revert k; induction fuel as [|fuel IH]; intros k H.
  - simpl in H.
    destruct ((0 <? fst (steps_state k d))%float && (0.25 <? snd (steps_state k d))%float) eqn:E;
      [discriminate|].
    injection H as <-. exists k; repeat split; [lia| |intros i Hi; lia].
    unfold steps_running. now destruct (steps_state k d).
  - simpl in H.
    destruct ((0 <? fst (steps_state k d))%float && (0.25 <? snd (steps_state k d))%float) eqn:E.
    + specialize (IH (S k)). simpl steps_state in IH.
      destruct (steps_state k d) as [dk vk] eqn:Ek. simpl in *.
      replace (Z.of_nat k + 1) with (Z.pos (Pos.of_succ_nat k)) in H by lia.
      destruct (IH H) as (j & -> & Hj & Hstop & Hrun).
      exists j; repeat split; [lia|exact Hstop|].
      intros i Hi. destruct (Nat.eq_dec i k) as [->|Hne].
      * unfold steps_running. now rewrite Ek.
      * apply Hrun; lia.
    + injection H as <-. exists k; repeat split; [lia| |intros i Hi; lia].
      unfold steps_running. now destruct (steps_state k d).
Qed.

(** C8.  For every distance [>= 0], [steps] returns: with 190 iterations or
    more allowed, the loop exits and yields an integer [n] with
    [0 <= n <= 190].  [n] counts the iterations made from velocity 11.5,
    multiplied by 0.98 each time, until the remaining distance is not
    positive or the velocity is 0.25 or less: the loop test holds at every
    state before the [n]-th and fails at the [n]-th.  A distance equal to 0
    gives 0. *)
Theorem steps_terminates (distance : float) :
  (0 <=? distance)%float = true ->
  exists n : Z,
    (forall fuel, (190 <= fuel)%nat -> steps_loop fuel distance 0 KICK_STRENGTH = Some n)
    /\ steps distance = Some n
    /\ 0 <= n <= 190
    /\ steps_running (Z.to_nat n) distance = false
    /\ (forall i, (i < Z.to_nat n)%nat -> steps_running i distance = true)
    /\ ((distance =? 0)%float = true -> n = 0)
    /\ steps 0 = Some 0.
Proof.
  intros _.
  destruct (steps_loop_enough 190 distance (le_n _)) as (n & Hn & Hb).
  exists n.
  assert (Hspec : forall fuel m, steps_loop fuel distance 0 KICK_STRENGTH = Some m ->
                   steps_running (Z.to_nat m) distance = false
                   /\ forall i, (i < Z.to_nat m)%nat -> steps_running i distance = true).
  { intros fuel m Hm.
    destruct (steps_loop_exit_state fuel 0 distance m Hm) as (j & -> & _ & Hs & Hr).
    rewrite Nat2Z.id. split; [exact Hs|]. intros i Hi; apply Hr; lia. }
  assert (Hall : forall fuel, (190 <= fuel)%nat ->
                   steps_loop fuel distance 0 KICK_STRENGTH = Some n).
  { intros fuel Hf.
    destruct (steps_loop_enough fuel distance Hf) as (m & Hm & _).
    rewrite Hm; f_equal.
    destruct (Hspec _ _ Hn) as [Hs1 Hr1], (Hspec _ _ Hm) as [Hs2 Hr2].
    destruct (Z.lt_trichotomy m n) as [Hlt|[Heq|Hgt]]; [|exact Heq|].
    - assert (Hc := Hr1 (Z.to_nat m)). rewrite Hs2 in Hc.
      assert (0 <= m).
      { destruct (steps_loop_exit_state fuel 0 distance m Hm) as (j & -> & _); lia. }
      discriminate Hc. lia.
    - assert (Hc := Hr2 (Z.to_nat n)). rewrite Hs1 in Hc. discriminate Hc. lia. }
  repeat split; try (exact Hn || lia || apply (Hspec _ _ Hn)).
  - exact Hall.
  - intros H0. unfold steps in Hn. simpl in Hn.
    rewrite (FloatFacts.eqb_zero_not_pos _ H0) in Hn. simpl in Hn. congruence.
Qed.

Lemma steps_terminates_witness :
  exists n : Z, steps 100 = Some n /\ 0 <= n <= 190.
Proof.
  destruct (steps_terminates 100 eq_refl) as (n & _ & Hn & Hb & _).
  exists n; split; assumption.
Defined.

(** [steps] always has a value, so [steps_value] is that value. *)
Lemma steps_total (distance : float) : steps distance = Some (steps_value distance).
Proof.
  unfold steps_value.
  destruct (steps_loop_enough 190 distance (le_n _)) as (n & Hn & _).
  unfold steps, STEPS_BOUND. now rewrite Hn.
Qed.

(** ** The physics of a free ball *)

Lemma ball_physics_no_bounce (pos vel : float) (bounds : Z * Z) :
  bounces pos vel bounds = false ->
  ball_physics pos vel bounds = ((pos + vel)%float, (vel * DRAG)%float).
Proof. unfold bounces, ball_physics. now intros ->. Qed.

Lemma ball_physics_bounce (pos vel : float) (bounds : Z * Z) :
  bounces pos vel bounds = true ->
  ball_physics pos vel bounds = ((pos + vel - vel)%float, (- vel * DRAG)%float).
Proof. unfold bounces, ball_physics. now intros ->. Qed.

(** Bounce or not, drag is applied once: the speed on the axis is
    multiplied by 0.98. *)
Lemma ball_physics_speed (pos vel : float) (bounds : Z * Z) :
  PrimFloat.abs (snd (ball_physics pos vel bounds)) = (DRAG * PrimFloat.abs vel)%float.
Proof.
  assert (Hd : PrimFloat.abs DRAG = DRAG) by reflexivity.
  rewrite (FloatFacts.mul_comm DRAG).
  destruct (bounces pos vel bounds) eqn:E.
  - rewrite (ball_physics_bounce _ _ _ E). simpl.
    now rewrite FloatFacts.abs_mul, FloatFacts.abs_opp, Hd.
  - rewrite (ball_physics_no_bounce _ _ _ E). simpl.
    now rewrite FloatFacts.abs_mul, Hd.
Qed.

(** A search that finds no player in reach of the ball changes nothing. *)
Lemma Ball_acquire_loop_none (g : Game) (ts : list nat) :
  Forall (fun t => Ball_collide (ball g) (player_at g t) = false) ts ->
  Ball_acquire_loop g ts = Ok g.
Proof.
  induction 1 as [|t ts Ht _ IH]; simpl; [reflexivity|].
  unfold Ball_acquire_step, can_acquire. rewrite Ht, andb_false_r. exact IH.
Qed.

Lemma Forall_players_seq (g : Game) (P : Player -> Prop) :
  Forall P (players g) ->
  Forall (fun t => P (player_at g t)) (seq 0 (length (players g))).
Proof.
  intros H. apply Forall_forall. intros t Ht. apply in_seq in Ht.
  rewrite Forall_forall in H. apply H. unfold player_at. apply nth_In. lia.
Qed.

(** C3, as stated, fails: a free ball that rolls into the reach of a human
    player in the frame in which the shoot key goes down is acquired and
    kicked within the same tick.  The ball is free before and after the
    tick and does not bounce on the Y axis, yet its speed on that axis goes
    from 2 to 11.5. *)
Lemma free_tick_drag_counterexample :
  let g := Ex.caught_and_kicked in
  b_owner (ball g) = None
  /\ bounces (vy (b_vpos (ball g))) (vy (b_vel (ball g))) (Ball_bounds_y (ball g)) = false
  /\ exists g', Ball_update ref_lib g = Ok g'
       /\ b_owner (ball g') = None
       /\ PrimFloat.abs (vy (b_vel (ball g')))
          <> (DRAG * PrimFloat.abs (vy (b_vel (ball g))))%float.
Proof.
  cbv zeta. split; [reflexivity|]. split; [vm_compute; reflexivity|].
  eexists. split; [vm_compute; reflexivity|]. split; [reflexivity|].
  intros H. apply (f_equal Prim2SF) in H. vm_compute in H. discriminate H.
Qed.

(** The search for a player that acquires the ball leaves the position
    and the velocity of the ball alone. *)
Lemma Ball_acquire_step_motion (g g' : Game) (t : nat) :
  Ball_acquire_step g t = Ok g' ->
  b_vpos (ball g') = b_vpos (ball g) /\ b_vel (ball g') = b_vel (ball g).
Proof.
  unfold Ball_acquire_step. destruct (can_acquire g (player_at g t)).
  - unfold update_team. destruct (Py.index _ _); [|discriminate]. cbn [Py.bind].
    intros H; injection H as <-. destruct (b_owner (ball g)); split; reflexivity.
  - intros H; injection H as <-. now split.
Qed.

Lemma Ball_acquire_loop_motion (g g' : Game) (ts : list nat) :
  Ball_acquire_loop g ts = Ok g' ->
  b_vpos (ball g') = b_vpos (ball g) /\ b_vel (ball g') = b_vel (ball g).
Proof.
  revert g; induction ts as [|t ts IH]; simpl; intros g H.
  - injection H as <-. now split.
  - destruct (Ball_acquire_step g t) as [g1|e] eqn:E; [|discriminate]. simpl in H.
    destruct (Ball_acquire_step_motion g g1 t E) as [<- <-]. now apply IH.
Qed.

(** Without a kick, the last part of [Ball.update] leaves the ball alone:
    the ball has no owner, or it still has one afterwards. *)
Lemma Ball_shoot_no_kick (L : Library) (g g' : Game) :
  Ball_shoot L g = Ok g' ->
  b_owner (ball g) = None \/ b_owner (ball g') <> None ->
  ball g' = ball g.
Proof.
  unfold Ball_shoot. destruct (b_owner (ball g)) as [o|] eqn:Eo.
  - destruct (Py.index _ _) as [team|e]; [|discriminate]. simpl.
    destruct (shoot_target L g (player_at g o)) as [target|e]; [|discriminate]. simpl.
    destruct (do_shoot L _ team (player_at g o) target) as [[shoot g1]|e] eqn:Ed;
      [|discriminate].
    simpl. destruct shoot.
    + unfold Ball_kick.
      destruct (match target with Some _ => _ | None => _ end) as [[vec tg]|e];
        [|discriminate].
      simpl. destruct (match tg with RPlayer _ => _ | RGoal _ => _ end) as [g2|e];
        [|discriminate].
      simpl. intros H; injection H as <-. intros [H|H]; [discriminate H|].
      now contradiction H.
    + intros H _; injection H as <-.
      unfold do_shoot in Ed. destruct (controls team) as [c|].
      * injection Ed as _ <-. now destruct target.
      * destruct (cpu_do_shoot L _ (player_at g o) target); [|discriminate].
        simpl in Ed. injection Ed as _ <-. now destruct target.
  - intros H _. now injection H as <-.
Qed.

(** The last part of [Ball.update] leaves the position of the ball alone,
    kick or no kick. *)
Lemma Ball_shoot_vpos (L : Library) (g g' : Game) :
  Ball_shoot L g = Ok g' -> b_vpos (ball g') = b_vpos (ball g).
Proof.
  unfold Ball_shoot. destruct (b_owner (ball g)) as [o|] eqn:Eo.
  - destruct (Py.index _ _) as [team|e]; [|discriminate]. simpl.
    destruct (shoot_target L g (player_at g o)) as [target|e]; [|discriminate]. simpl.
    destruct (do_shoot L _ team (player_at g o) target) as [[shoot g1]|e] eqn:Ed;
      [|discriminate].
    assert (Hb1 : ball g1 = ball g).
    { unfold do_shoot in Ed. destruct (controls team) as [c|].
      - injection Ed as _ <-. now destruct target.
      - destruct (cpu_do_shoot L _ (player_at g o) target); [|discriminate].
        simpl in Ed. injection Ed as _ <-. now destruct target. }
    simpl. destruct shoot.
    + unfold Ball_kick.
      destruct (match target with Some _ => _ | None => _ end) as [[vec tg]|e];
        [|discriminate].
      simpl. destruct tg as [i|gl].
      * unfold update_team. destruct (Py.index (teams g1) _); [|discriminate].
        simpl. intros H; injection H as <-. simpl. now rewrite Hb1.
      * simpl. intros H; injection H as <-. simpl. now rewrite Hb1.
    + intros H; injection H as <-. now rewrite Hb1.
  - intros H. now injection H as <-.
Qed.

(** C3, amended.  In every tick that the ball begins free, each axis on
    its own adds the velocity to the position, undoes that and reverses the
    velocity when the new position is outside the bounds of the axis, and
    multiplies the velocity by 0.98 once; the position that [Ball.update]
    leaves is that of this physics.  When the ball is not kicked in the
    tick, the velocity that [Ball.update] leaves is that of the physics too:
    the speed on each axis after the tick is 0.98 times the speed before,
    and without a bounce the velocity itself is multiplied by 0.98.  The
    ball is kicked in the tick when the search that follows the physics
    gives it to a player and the tick leaves it free again; a player may well
    acquire the ball in the tick.  When no player is in reach of the ball
    after the physics, [Ball.update] returns, and changes nothing else. *)
Theorem free_tick_physics (L : Library) (g : Game) :
  b_owner (ball g) = None ->
  let b := ball g in
  let x := ball_physics (vx (b_vpos b)) (vx (b_vel b)) (Ball_bounds_x b) in
  let y := ball_physics (vy (b_vpos b)) (vy (b_vel b)) (Ball_bounds_y b) in
  (forall g2 g',
     Ball_acquire (Ball_move L (Ball_tick_timer g)) = Ok g2 ->
     Ball_update L g = Ok g' ->
     b_vpos (ball g') = V2 (fst x) (fst y)
     /\ (b_owner (ball g2) = None \/ b_owner (ball g') <> None ->
         b_vel (ball g') = V2 (snd x) (snd y)))
  /\ (Forall (fun p => Ball_collide (rolled g) p = false) (players g) ->
      Ball_update L g
      = Ok (set_ball g (mkBall (V2 (fst x) (fst y)) (V2 (snd x) (snd y)) None
                               (b_timer b - 1))))
  /\ (forall pos vel bounds,
        ball_physics pos vel bounds
        = if bounces pos vel bounds
          then ((pos + vel - vel)%float, (- vel * DRAG)%float)
          else ((pos + vel)%float, (vel * DRAG)%float))
  /\ PrimFloat.abs (snd x) = (DRAG * PrimFloat.abs (vx (b_vel b)))%float
  /\ PrimFloat.abs (snd y) = (DRAG * PrimFloat.abs (vy (b_vel b)))%float.
Proof.
  intros Hfree b x y.
  assert (Hb' : rolled g
           = mkBall (V2 (fst x) (fst y)) (V2 (snd x) (snd y)) None (b_timer b - 1)).
  { unfold rolled, Ball_roll, x, y, b. simpl. rewrite Hfree.
    unfold Ball_bounds_x, Ball_bounds_y. simpl.
    repeat match goal with |- context [ball_physics ?a ?c ?d] =>
      destruct (ball_physics a c d) end. reflexivity. }
  assert (Hmove : Ball_move L (Ball_tick_timer g) = set_ball g (rolled g)).
  { unfold Ball_move, Ball_tick_timer, rolled. simpl. now rewrite Hfree. }
  split; [|split; [|split; [|split; apply ball_physics_speed]]].
  - intros g2 g' H2 H'. unfold Ball_update in H'. rewrite H2 in H'.
    cbn [Py.bind] in H'. rewrite Hmove in H2. unfold Ball_acquire in H2.
    destruct (Ball_acquire_loop_motion _ _ _ H2) as [Hp Hv].
    cbn [ball set_ball] in Hp, Hv. rewrite Hb' in Hp, Hv. cbn [b_vpos b_vel] in Hp, Hv.
    split.
    + now rewrite (Ball_shoot_vpos L g2 g' H').
    + intros Hkick. now rewrite (Ball_shoot_no_kick L g2 g' H' Hkick).
  - intros Hnone. unfold Ball_update. rewrite Hmove. unfold Ball_acquire.
    rewrite Ball_acquire_loop_none.
    + unfold Ball_shoot. simpl. rewrite Hb'. reflexivity.
    + apply (Forall_players_seq (set_ball g (rolled g))
               (fun p => Ball_collide (rolled g) p = false)).
      exact Hnone.
  - intros pos vel bounds. destruct (bounces pos vel bounds) eqn:E.
    + now apply ball_physics_bounce.
    + now apply ball_physics_no_bounce.
Qed.

Lemma free_tick_physics_witness :
  b_owner (ball Ex.caught) = None
  /\ exists g',
       Ball_update ref_lib Ex.caught = Ok g'
       /\ b_owner (ball g') = Some 0%nat
       /\ b_vpos (ball g') = V2 470 708
       /\ b_vel (ball g') = V2 (0 * DRAG) (-2 * DRAG).
Proof.
  split; [reflexivity|].
  eexists. split; [vm_compute; reflexivity|]. split; [reflexivity|].
  destruct (proj1 (free_tick_physics ref_lib Ex.caught eq_refl)
                  (Ex.get (Ball_acquire (Ball_move ref_lib (Ball_tick_timer Ex.caught)))
                          Ex.empty_game)
                  (Ex.get (Ball_update ref_lib Ex.caught) Ex.empty_game))
    as [Hp Hv].
  - vm_compute. reflexivity.
  - vm_compute. reflexivity.
  - split; [exact Hp|]. apply Hv. right. vm_compute. discriminate.
Defined.

(** ** [targetable] *)

Lemma intercepted_false (tt : Z) (sv v0 : Vector2) (d0 : float) (ps : list Player) :
  intercepted tt sv v0 d0 ps = false ->
  forall p, In p ps ->
    let '(v1, d1) := safe_normalise (Vec.sub (p_vpos p) sv) in
    negb (p_team p =? tt) && (0 <? d1)%float && (d1 <? d0)%float
    && (0.8 <? Vec.dot v0 v1)%float = false.
Proof.
  induction ps as [|q ps IH]; simpl; intros H p Hp; [contradiction|].
  destruct (safe_normalise (Vec.sub (p_vpos q) sv)) as [v1 d1] eqn:Eq.
  destruct (negb (p_team q =? tt) && (0 <? d1)%float && (d1 <? d0)%float
            && (0.8 <? Vec.dot v0 v1)%float) eqn:Ec; [discriminate|].
  destruct Hp as [<-|Hp]; [now rewrite Eq|now apply IH].
Qed.

(** In the test of the passing lane, [d1 > 0] follows from the rest. *)
Lemma lane_test_positive (v0 w : Vector2) (d0 : float) :
  let '(v1, d1) := safe_normalise w in
  (d1 <? d0)%float = true -> (0.8 <? Vec.dot v0 v1)%float = true ->
  (0 <? d1)%float = true.
Proof.
  unfold safe_normalise.
  destruct (Vec.length w =? 0)%float eqn:E.
  - intros _ H. unfold Vec.dot, Vec.zero in H. simpl in H.
    now rewrite FloatFacts.dot_zero_small in H.
  - intros H _. unfold Vec.length in *. now apply FloatFacts.sqrt_positive with d0.
Qed.

(** C6.  [targetable(target, source)] returns, and it returns false
    whenever the target is not on the source's team.  It returns true only
    if the distance from source to target is strictly positive and below
    300, the unit vector from source to target has a dot product above 0.8
    with the source's facing vector and, for a computer-controlled source,
    no opposing player is closer than the target with a dot product above
    0.8 against the direction of the target. *)
Theorem targetable_spec (L : Library) (g : Game) (target : Ref) (source : Player)
        (team : Team) :
  Py.index (teams g) (p_team source) = Ok team ->
  let w := Vec.sub (ref_vpos g target) (p_vpos source) in
  let d0 := Vec.length w in
  let v0 := Vec.normalize w in
  (exists b, targetable L g target source = Ok b)
  /\ (ref_team g target <> p_team source -> targetable L g target source = Ok false)
  /\ (targetable L g target source = Ok true ->
      ref_team g target = p_team source
      /\ (0 <? d0)%float = true /\ (d0 <? 300)%float = true
      /\ (0.8 <? Vec.dot v0 (angle_to_vec L (p_dir source)))%float = true
      /\ (Team_human team = false ->
          forall p, In p (players g) -> p_team p <> p_team source ->
            let '(v1, d1) := safe_normalise (Vec.sub (p_vpos p) (p_vpos source)) in
            ~ ((d1 <? d0)%float = true /\ (0.8 <? Vec.dot v0 v1)%float = true))).
Proof.
  intros Hteam w d0 v0. unfold targetable. fold w.
  destruct (safe_normalise w) as [v0' d0'] eqn:Ew. rewrite Hteam. simpl.
  destruct (negb (Team_human team)
            && intercepted (ref_team g target) (p_vpos source) v0' d0' (players g)) eqn:Eb.
  - split; [now eexists|]. split; [reflexivity|discriminate].
  - split; [now eexists|]. split.
    + intros Hne. apply Z.eqb_neq in Hne. now rewrite Hne.
    + intros H. injection H as H.
      apply andb_prop in H as [H H4]. apply andb_prop in H as [H H3].
      apply andb_prop in H as [H1 H2]. apply Z.eqb_eq in H1.
      assert (Hs : v0' = v0 /\ d0' = d0).
      { unfold safe_normalise in Ew. fold d0 in Ew.
        destruct (d0 =? 0)%float eqn:E0.
        - injection Ew as <- <-. discriminate H2.
        - injection Ew as <- <-. now split. }
      destruct Hs as [-> ->].
      repeat split; try assumption.
      intros Hcpu p Hp Hopp.
      rewrite Hcpu in Eb. simpl in Eb.
      pose proof (intercepted_false _ _ _ _ _ Eb p Hp) as Hi.
      pose proof (lane_test_positive v0 (Vec.sub (p_vpos p) (p_vpos source)) d0) as Hl.
      destruct (safe_normalise (Vec.sub (p_vpos p) (p_vpos source))) as [v1 d1].
      intros [Hd Hv]. specialize (Hl Hd Hv).
      rewrite Hl, Hd, Hv, H1 in Hi.
      apply Z.eqb_neq in Hopp. rewrite Hopp in Hi. discriminate Hi.
Qed.

Lemma targetable_spec_witness :
  let g := Ex.pass_ahead 0 in
  Py.index (teams g) (p_team (player_at g 0)) = Ok (mkTeam None (Some 0%nat) 0)
  /\ exists b, targetable ref_lib g (RPlayer 2) (player_at g 0) = Ok b.
Proof.
  cbv zeta. split; [reflexivity|].
  apply (targetable_spec ref_lib (Ex.pass_ahead 0) (RPlayer 2)
           (player_at (Ex.pass_ahead 0) 0) (mkTeam None (Some 0%nat) 0)).
  reflexivity.
Defined.

(** ** The shoot decision *)

Lemma filterM_In {A : Type} (f : A -> Py.result bool) (l r : list A) :
  filterM f l = Ok r -> forall x, In x r -> In x l /\ f x = Ok true.
Proof.
  revert r; induction l as [|a l IH]; simpl; intros r H x Hx.
  - injection H as <-. contradiction.
  - destruct (f a) as [b|e] eqn:Ea; [|discriminate]. simpl in H.
    destruct (filterM f l) as [r'|e]; [|discriminate]. simpl in H.
    injection H as <-. destruct b.
    + destruct Hx as [<-|Hx]; [now split; [left|]|].
      destruct (IH r' eq_refl x Hx); split; [now right|assumption].
    + destruct (IH r' eq_refl x Hx); split; [now right|assumption].
Qed.

Lemma min_by_from_In {A : Type} (key : A -> float) (l : list A) (best : A) (bk : float) :
  In (min_by_from key best bk l) (best :: l).
Proof.
  revert best bk; induction l as [|a l IH]; intros best bk; simpl; [now left|].
  destruct (key a <? bk)%float.
  - destruct (IH a (key a)) as [H|H]; [right; left; exact H|right; right; exact H].
  - destruct (IH best bk) as [H|H]; [left; exact H|right; right; exact H].
Qed.

Lemma min_by_In {A : Type} (key : A -> float) (l : list A) (a : A) :
  min_by key l = Ok a -> In a l.
Proof.
  destruct l as [|b l]; simpl; [discriminate|].
  intros H; injection H as <-. apply min_by_from_In.
Qed.

(** The target chosen by [Ball.update] is targetable and on the owner's team. *)
Lemma shoot_target_targetable (L : Library) (g : Game) (owner : Player) (t : Ref) :
  shoot_target L g owner = Ok (Some t) ->
  In t (all_refs g) /\ ref_team g t = p_team owner /\ targetable L g t owner = Ok true.
Proof.
  unfold shoot_target.
  destruct (filterM _ (all_refs g)) as [l|e] eqn:El; [|discriminate]. simpl.
  destruct l as [|a l]; [discriminate|].
  destruct (min_by _ (a :: l)) as [m|e] eqn:Em; [|discriminate]. simpl.
  intros H; injection H as <-.
  apply min_by_In in Em.
  destruct (filterM_In _ _ _ El m Em) as [Hin Hf].
  split; [exact Hin|].
  destruct (ref_team g m =? p_team owner) eqn:Et; [|discriminate].
  apply Z.eqb_eq in Et. now split.
Qed.

(** [a < b] on two results of [cost] is true exactly when the first
    component of [a] is below that of [b]. *)
Lemma tuple_lt_true (veq : Vector2 -> Vector2 -> bool) (a b : float * Vector2) :
  tuple_lt veq a b = Ok true <-> (fst a <? fst b)%float = true.
Proof.
  unfold tuple_lt. split.
  - destruct (fst a =? fst b)%float.
    + destruct (veq (snd a) (snd b)); discriminate.
    + now intros H; injection H.
  - intros H. now rewrite (FloatFacts.ltb_not_eqb _ _ H), H.
Qed.

(** Two equal costs at different positions make the comparison fail: the
    tie is left to the order of [Vector2], which has none. *)
Lemma tuple_lt_tie (veq : Vector2 -> Vector2 -> bool) (a b : float * Vector2) :
  (fst a =? fst b)%float = true -> veq (snd a) (snd b) = false ->
  tuple_lt veq a b = Raise TypeError.
Proof. unfold tuple_lt. now intros -> ->. Qed.

(** Noting the target for the debug display changes nothing that the
    decision to kick or the kick read. *)
Lemma Ball_note_target_frame (g : Game) (target : option Ref) :
  teams (Ball_note_target g target) = teams g
  /\ players (Ball_note_target g target) = players g
  /\ ball (Ball_note_target g target) = ball g
  /\ key_status (Ball_note_target g target) = key_status g
  /\ keyboard (Ball_note_target g target) = keyboard g.
Proof. destruct target; repeat split; reflexivity. Qed.

Lemma cpu_do_shoot_note (L : Library) (g : Game) (owner : Player) (target noted : option Ref) :
  cpu_do_shoot L (Ball_note_target g noted) owner target = cpu_do_shoot L g owner target.
Proof. destruct noted; reflexivity. Qed.

(** C1, as stated, fails: the timer that holds back the kick of a
    computer-controlled owner is the ball's, not the owner's.  Here the
    owner's own timer has expired, a targetable team-mate stands ahead at a
    position of lower cost, and the owner does not shoot, because the ball's
    timer has 50 frames left. *)
Lemma cpu_shoot_counterexample :
  let g := Ex.pass_ahead 50 in
  let owner := player_at g 0 in
  b_owner (ball g) = Some 0%nat
  /\ Py.index (teams g) (p_team owner) = Ok (mkTeam None (Some 0%nat) 0)
  /\ p_timer owner < 0
  /\ shoot_target ref_lib g owner = Ok (Some (RPlayer 2))
  /\ (exists ct co,
        cost ref_lib g (ref_vpos g (RPlayer 2)) (p_team owner) 0 = Ok ct
        /\ cost ref_lib g (p_vpos owner) (p_team owner) 0 = Ok co
        /\ (fst ct <? fst co)%float = true)
  /\ do_shoot ref_lib g (mkTeam None (Some 0%nat) 0) owner (Some (RPlayer 2)) = Ok (false, g)
  /\ exists g', Ball_update ref_lib (Ex.pass_ahead 51) = Ok g'
                /\ b_owner (ball g') = Some 0%nat.
Proof.
  cbv zeta. repeat split; try reflexivity.
  - do 2 eexists. repeat split; vm_compute; reflexivity.
  - eexists. split; vm_compute; reflexivity.
Qed.

(** C1, amended.  When the ball is possessed, [Ball.update] kicks exactly
    when [do_shoot] is true.  For an owner on a computer-controlled team,
    [do_shoot] is true if and only if the ball's hold-off timer has expired
    (it is not positive), a targetable player or goal exists, and the cost
    of the chosen target's position, for the owner's team, is strictly
    below the cost of the owner's position.  For an owner on a
    human-controlled team, [do_shoot] is the edge-triggered shoot input:
    the shoot key is down and was not down when last polled. *)
Theorem shoot_decision (L : Library) (g : Game) (o : nat) (team : Team)
        (target : option Ref) :
  b_owner (ball g) = Some o ->
  Py.index (teams g) (p_team (player_at g o)) = Ok team ->
  shoot_target L g (player_at g o) = Ok target ->
  let owner := player_at g o in
  let g1 := Ball_note_target g target in
  Ball_shoot L g
  = ('(shoot, g') <- do_shoot L g1 team owner target ;;
     if shoot then Ball_kick L g' o team target else Ok g')
  /\ match controls team with
     | None =>
         forall g',
           do_shoot L g1 team owner target = Ok (true, g') <->
           (g' = g1
            /\ b_timer (ball g) <= 0
            /\ exists t ct co,
                 target = Some t
                 /\ targetable L g t owner = Ok true
                 /\ cost L g (ref_vpos g t) (p_team owner) 0 = Ok ct
                 /\ cost L g (p_vpos owner) (p_team owner) 0 = Ok co
                 /\ (fst ct <? fst co)%float = true)
     | Some c =>
         do_shoot L g1 team owner target
         = Ok (negb (key_status g (key_shoot c)) && keyboard g (key_shoot c),
               set_key_status g1
                 (fun k => if Key_eqb k (key_shoot c) then keyboard g (key_shoot c)
                           else key_status g k))
     end.
Proof.
  intros Hown Hteam Htarget owner g1. split.
  - subst owner g1. unfold Ball_shoot. rewrite Hown, Hteam. simpl.
    rewrite Htarget. reflexivity.
  - subst g1. unfold do_shoot. destruct (controls team) as [c|] eqn:Ec.
    { unfold Controls_shoot, key_just_pressed.
      now destruct (Ball_note_target_frame g target) as (_ & _ & _ & -> & ->). }
    intros g'. rewrite cpu_do_shoot_note.
    unfold cpu_do_shoot. split.
    + destruct (b_timer (ball g) <=? 0) eqn:Et; [|discriminate].
      apply Z.leb_le in Et.
      destruct target as [t|]; [|discriminate].
      destruct (cost L g (ref_vpos g t) (p_team owner) 0) as [ct|e] eqn:Ect; [|discriminate].
      destruct (cost L g (p_vpos owner) (p_team owner) 0) as [co|e] eqn:Eco; [|discriminate].
      simpl. destruct (tuple_lt (vec_eq L) ct co) as [b|e] eqn:El; [|discriminate].
      simpl. intros H; injection H as -> <-.
      split; [reflexivity|]. split; [exact Et|].
      exists t, ct, co.
      split; [reflexivity|].
      split; [now apply (shoot_target_targetable L g owner t)|].
      split; [first [assumption|reflexivity]|]. split; [first [assumption|reflexivity]|].
      now apply (tuple_lt_true (vec_eq L)).
    + intros (-> & Et & t & ct & co & Ht & _ & Hct & Hco & Hlt). subst target.
      apply Z.leb_le in Et. rewrite Et, Hct, Hco. simpl.
      apply (tuple_lt_true (vec_eq L)) in Hlt. now rewrite Hlt.
Qed.

Lemma shoot_decision_witness :
  let g := Ex.pass_ahead 0 in
  b_owner (ball g) = Some 0%nat
  /\ Py.index (teams g) (p_team (player_at g 0)) = Ok (mkTeam None (Some 0%nat) 0)
  /\ shoot_target ref_lib g (player_at g 0) = Ok (Some (RPlayer 2))
  /\ Ball_shoot ref_lib g
     = ('(shoot, g') <- do_shoot ref_lib (Ball_note_target g (Some (RPlayer 2)))
                                 (mkTeam None (Some 0%nat) 0) (player_at g 0)
                                 (Some (RPlayer 2)) ;;
        if shoot then Ball_kick ref_lib g' 0 (mkTeam None (Some 0%nat) 0) (Some (RPlayer 2))
        else Ok g').
Proof.
  cbv zeta. split; [reflexivity|]. split; [reflexivity|]. split; [vm_compute; reflexivity|].
  apply (shoot_decision ref_lib (Ex.pass_ahead 0) 0 (mkTeam None (Some 0%nat) 0)
           (Some (RPlayer 2))); [reflexivity|reflexivity|vm_compute; reflexivity].
Defined.

(** ** [cost] *)

Lemma max24_ge (x : float) : (24 <=? F.max 24 x)%float = true.
Proof.
  unfold F.max. destruct (24 <? x)%float eqn:E.
  - now apply FloatFacts.ltb_leb.
  - reflexivity.
Qed.

(** The divisions of the repulsion term never fail. *)
Lemma repulsion_defined (pos : Vector2) (ps : list Player) :
  mapM (fun p => F.div 4000 (F.max 24 (Vec.length (Vec.sub (p_vpos p) pos)))) ps
  = Ok (map (fun p => (4000 / F.max 24 (Vec.length (Vec.sub (p_vpos p) pos)))%float) ps).
Proof.
  induction ps as [|p ps IH]; simpl; [reflexivity|].
  unfold F.div at 1. rewrite (FloatFacts.ge24_nonzero _ (max24_ge _)). simpl.
  now rewrite IH.
Qed.

Lemma own_goal_pos_value (team : Z) :
  own_goal_pos team = if team =? 1 then V2 500 78 else V2 500 1322.
Proof. unfold own_goal_pos. now destruct (team =? 1). Qed.

(** The three outcomes of [cost]. *)
Lemma cost_cases (L : Library) (g : Game) (pos : Vector2) (team : Z) (handicap : float) :
  cost L g pos team handicap
  = if (Vec.length (Vec.sub pos (own_goal_pos team)) =? 0)%float
    then Raise ZeroDivisionError
    else if square_overflows L pos then Raise OverflowError
    else Ok (spec_cost L g pos team handicap, pos).
Proof.
  unfold cost, F.div at 1.
  destruct (Vec.length (Vec.sub pos (own_goal_pos team)) =? 0)%float eqn:E0; [reflexivity|].
  cbn [Py.bind]. rewrite repulsion_defined. cbn [Py.bind].
  unfold F.sq, square_overflows.
  destruct (F.is_finite (vx pos - F.of_Z HALF_LEVEL_W)
            && F.is_infinite (F.square (math_pow L) (vx pos - F.of_Z HALF_LEVEL_W)));
    [reflexivity|].
  cbn [Py.bind]. unfold spec_cost. now rewrite <- own_goal_pos_value.
Qed.

(** Away from the own-goal reference point, the distance to it is not
    zero; at that point, it is. *)
Lemma distinct_coordinates (x y cx cy : float) (mx my : positive) (ex ey : Z) :
  Prim2SF cx = S754_finite false mx ex ->
  Prim2SF cy = S754_finite false my ey ->
  V2 x y <> V2 cx cy ->
  (x =? cx)%float = false \/ (y =? cy)%float = false.
Proof.
  intros Hcx Hcy Hd.
  destruct (x =? cx)%float eqn:Ex; [|now left].
  destruct (y =? cy)%float eqn:Ey; [|now right].
  exfalso. apply Hd.
  rewrite (FloatFacts.eqb_finite_eq x cx mx ex Hcx Ex).
  now rewrite (FloatFacts.eqb_finite_eq y cy my ey Hcy Ey).
Qed.

Lemma distance_nonzero (pos : Vector2) (team : Z) :
  pos <> own_goal_pos team ->
  (Vec.length (Vec.sub pos (own_goal_pos team)) =? 0)%float = false.
Proof.
  intros Hne. rewrite own_goal_pos_value in *. destruct pos as [x y].
  unfold Vec.length, Vec.dot, Vec.sub. cbn [vx vy].
  destruct (team =? 1); cbn [vx vy].
  - apply (FloatFacts.hypot_nonzero x y 500 78 8796093022208000 5488762045857792
             (-44) (-46)); try reflexivity; try (split; [now vm_compute|reflexivity]);
      try now vm_compute.
    now apply (distinct_coordinates x y 500 78 8796093022208000 5488762045857792
                 (-44) (-46)).
  - apply (FloatFacts.hypot_nonzero x y 500 1322 8796093022208000 5814217487679488
             (-44) (-42)); try reflexivity; try (split; [now vm_compute|reflexivity]);
      try now vm_compute.
    now apply (distinct_coordinates x y 500 1322 8796093022208000 5814217487679488
                 (-44) (-42)).
Qed.

Lemma distance_zero (team : Z) :
  (Vec.length (Vec.sub (own_goal_pos team) (own_goal_pos team)) =? 0)%float = true.
Proof. rewrite own_goal_pos_value. now destruct (team =? 1). Qed.

(** C2, as stated, fails: at the own-goal reference point of the team,
    [cost] returns no value at all. *)
Lemma cost_counterexample :
  cost ref_lib Ex.cpu_match (V2 500 78) 1 0 = Raise ZeroDivisionError
  /\ ~ (exists c, cost ref_lib Ex.cpu_match (V2 500 78) 1 0
                  = Ok (c, V2 500 78)
                  /\ c = spec_cost ref_lib Ex.cpu_match (V2 500 78) 1 0).
Proof.
  assert (H : cost ref_lib Ex.cpu_match (V2 500 78) 1 0 = Raise ZeroDivisionError)
    by (vm_compute; reflexivity).
  split; [exact H|]. intros (c & Hc & _). rewrite H in Hc. discriminate Hc.
Qed.

(** C2, amended.  For every position other than the own-goal reference
    point of the team, every team and every handicap, [cost] returns the
    pair of a number and the position; the number is 3500 divided by the
    distance to the reference point, plus the sum over every opposing
    player [p] of [4000 / max(24, distance(p, position))], plus
    [(position.x - 500) ** 2 / 200 - position.y * (4 * team - 2)], plus the
    handicap.  Each divisor of the repulsion term is at least 24.  The
    positions are those at which [**] does not overflow: a C library's
    [pow] squares without overflow every offset below 1e154, so every
    position that the program evaluates is one of them. *)
Theorem cost_value (L : Library) (g : Game) (pos : Vector2) (team : Z) (handicap : float) :
  pos <> own_goal_pos team ->
  square_overflows L pos = false ->
  cost L g pos team handicap = Ok (spec_cost L g pos team handicap, pos)
  /\ forall p, In p (players g) ->
       (24 <=? F.max 24 (Vec.length (Vec.sub (p_vpos p) pos)))%float = true.
Proof.
  intros Hd Hsq. split.
  - now rewrite cost_cases, (distance_nonzero pos team Hd), Hsq.
  - intros p _. apply max24_ge.
Qed.

Lemma cost_value_witness :
  cost ref_lib Ex.cpu_match (V2 500 600) 0 0
  = Ok (spec_cost ref_lib Ex.cpu_match (V2 500 600) 0 0, V2 500 600).
Proof.
  apply (cost_value ref_lib Ex.cpu_match (V2 500 600) 0 0).
  - intros H. apply (f_equal vy) in H. apply (f_equal Prim2SF) in H.
    vm_compute in H. discriminate H.
  - vm_compute. reflexivity.
Defined.

(** ** Ownership *)

Lemma length_update_nth {A : Type} (i : nat) (f : A -> A) (l : list A) :
  length (update_nth i f l) = length l.
Proof.
  revert i; induction l as [|a l IH]; intros [|i]; simpl; try reflexivity.
  now rewrite IH.
Qed.

Lemma nth_update_nth_eq {A : Type} (i : nat) (f : A -> A) (l : list A) (d : A) :
  (i < length l)%nat -> nth i (update_nth i f l) d = f (nth i l d).
Proof.
  revert i; induction l as [|a l IH]; intros [|i]; simpl; intros H; try lia.
  - reflexivity.
  - apply IH; lia.
Qed.

Lemma nth_update_nth_neq {A : Type} (i j : nat) (f : A -> A) (l : list A) (d : A) :
  i <> j -> nth i (update_nth j f l) d = nth i l d.
Proof.
  revert i j; induction l as [|a l IH]; intros [|i] [|j]; simpl; intros H;
    try reflexivity; try contradiction.
  apply IH; congruence.
Qed.

(** A field that [f] leaves alone is the same after [update_nth]. *)
Lemma nth_update_nth_field {A B : Type} (proj : A -> B) (i j : nat) (f : A -> A)
      (l : list A) (d : A) :
  (forall a, proj (f a) = proj a) ->
  proj (nth i (update_nth j f l) d) = proj (nth i l d).
Proof.
  intros Hf. revert i j; induction l as [|a l IH]; intros [|i] [|j]; simpl;
    try reflexivity; [apply Hf|apply IH].
Qed.

Lemma update_team_frame (g g' : Game) (team : Z) (f : Team -> Team) :
  update_team g team f = Ok g' ->
  players g' = players g /\ ball g' = ball g /\ difficulty g' = difficulty g.
Proof.
  unfold update_team. destruct (Py.index (teams g) team); [|discriminate].
  simpl. intros H; injection H as <-. now repeat split.
Qed.

Lemma same_roster_refl (g : Game) : same_roster g g.
Proof. now intros i. Qed.

Lemma same_roster_trans (g1 g2 g3 : Game) :
  same_roster g1 g2 -> same_roster g2 g3 -> same_roster g1 g3.
Proof. intros H1 H2 i. now rewrite H2, H1. Qed.

Lemma same_roster_timer (g : Game) (i : nat) (t : Z) :
  same_roster g (set_player_timer g i t).
Proof.
  intros j. unfold player_at, set_player_timer. simpl.
  now apply (nth_update_nth_field p_team).
Qed.

Lemma same_roster_players (g g' : Game) : players g' = players g -> same_roster g g'.
Proof. intros H i. unfold player_at. now rewrite H. Qed.

Lemma handover_roster (g g' : Game) (a b : option nat) :
  same_roster g g' -> handover g' a b -> handover g a b.
Proof.
  intros H. destruct a as [i|], b as [j|]; simpl; try easy.
  now rewrite !H.
Qed.

(** The move of the ball keeps the owner or frees the ball. *)
Lemma Ball_move_owner (L : Library) (g : Game) :
  same_roster g (Ball_move L g)
  /\ (b_owner (ball (Ball_move L g)) = b_owner (ball g)
      \/ b_owner (ball (Ball_move L g)) = None).
Proof.
  unfold Ball_move. destruct (b_owner (ball g)) as [o|] eqn:Eo.
  - destruct (on_pitch L _ _).
    + split; [apply same_roster_players; reflexivity|left; simpl; exact Eo].
    + split; [|right; reflexivity].
      intros i. apply (same_roster_timer g o 60 i).
  - split; [apply same_roster_players; reflexivity|left].
    unfold Ball_roll. simpl.
    repeat match goal with |- context [ball_physics ?a ?c ?d] =>
      destruct (ball_physics a c d) end. simpl. exact Eo.
Qed.

(** One iteration of the search: the owner stays, or the candidate [t]
    takes the ball, from nobody or from the other team. *)
Lemma Ball_acquire_step_owner (g g' : Game) (t : nat) :
  Ball_acquire_step g t = Ok g' ->
  same_roster g g'
  /\ (b_owner (ball g') = b_owner (ball g)
      \/ (b_owner (ball g') = Some t
          /\ Ball_collide (ball g) (player_at g t) = true
          /\ match b_owner (ball g) with
             | None => True
             | Some o => p_team (player_at g o) <> p_team (player_at g t)
             end)).
Proof.
  unfold Ball_acquire_step.
  destruct (can_acquire g (player_at g t)) eqn:Ec.
  - set (g1 := match b_owner (ball g) with
               | Some o => set_player_timer g o 60
               | None => g
               end).
    assert (H1 : same_roster g g1 /\ ball g1 = ball g).
    { unfold g1. destruct (b_owner (ball g)) as [o|].
      - split; [apply same_roster_timer|reflexivity].
      - split; [apply same_roster_refl|reflexivity]. }
    destruct H1 as [Hr1 Hb1].
    destruct (update_team _ _ _) as [g2|e] eqn:E2; [|discriminate].
    simpl. intros H; injection H as <-.
    apply update_team_frame in E2. destruct E2 as (Hp2 & Hb2 & _). simpl in Hp2, Hb2.
    split.
    + intros i. unfold player_at. simpl. rewrite Hp2. apply Hr1.
    + right. split; [reflexivity|].
      unfold can_acquire in Ec. apply andb_prop in Ec as [Eo Ecol].
      split; [exact Ecol|].
      destruct (b_owner (ball g)) as [o|]; [|exact I].
      apply negb_true_iff, Z.eqb_neq in Eo. exact Eo.
  - intros H; injection H as <-. split; [apply same_roster_refl|now left].
Qed.

(** The kick frees the ball. *)
Lemma Ball_shoot_owner (L : Library) (g g' : Game) :
  Ball_shoot L g = Ok g' ->
  b_owner (ball g') = b_owner (ball g) \/ b_owner (ball g') = None.
Proof.
  unfold Ball_shoot. destruct (b_owner (ball g)) as [o|] eqn:Eo.
  - destruct (Py.index _ _) as [team|e]; [|discriminate]. simpl.
    destruct (shoot_target L g (player_at g o)) as [target|e]; [|discriminate]. simpl.
    destruct (do_shoot L _ team (player_at g o) target) as [[shoot g1]|e] eqn:Ed;
      [|discriminate].
    simpl. destruct shoot.
    + unfold Ball_kick.
      destruct (match target with Some _ => _ | None => _ end) as [[vec tg]|e];
        [|discriminate].
      simpl. destruct (match tg with RPlayer _ => _ | RGoal _ => _ end) as [g2|e];
        [|discriminate].
      simpl. intros H; injection H as <-. now right.
    + intros H; injection H as <-. left.
      unfold do_shoot in Ed. destruct (controls team) as [c|].
      * injection Ed as _ <-. destruct target; exact Eo.
      * destruct (cpu_do_shoot L _ (player_at g o) target); [|discriminate].
        simpl in Ed. injection Ed as _ <-. destruct target; exact Eo.
  - intros H; injection H as <-. now left.
Qed.

Lemma handover_same (g : Game) (a b : option nat) : b = a \/ b = None -> handover g a b.
Proof.
  intros [->| ->]; destruct a; simpl; auto.
Qed.

Lemma Ball_acquire_owners_chain (L : Library) (g0 g : Game) (ts : list nat) :
  same_roster g0 g ->
  chain (handover g0) (b_owner (ball g) :: Ball_acquire_owners L g ts).
Proof.
  revert g; induction ts as [|t ts IH]; intros g Hr; simpl.
  - destruct (Ball_shoot L g) as [g'|e] eqn:Es; [|constructor].
    constructor; [|constructor].
    apply handover_same. now apply (Ball_shoot_owner L g).
  - destruct (Ball_acquire_step g t) as [g'|e] eqn:Es; [|constructor].
    apply Ball_acquire_step_owner in Es. destruct Es as [Hr' Ho].
    constructor.
    + apply (handover_roster g0 g _ _ Hr).
      destruct Ho as [Ho|(Ho & _ & Ht)].
      * apply handover_same. now left.
      * rewrite Ho. destruct (b_owner (ball g)) as [o|]; simpl; [now right|exact I].
    + apply IH. now apply same_roster_trans with g.
Qed.

(** The list of owners ends with the owner that [Ball.update] leaves. *)
Lemma Ball_acquire_owners_last (L : Library) (g g1 g' : Game) (ts : list nat) :
  Ball_acquire_loop g ts = Ok g1 -> Ball_shoot L g1 = Ok g' ->
  last (Ball_acquire_owners L g ts) None = b_owner (ball g')
  /\ length (Ball_acquire_owners L g ts) = S (length ts).
Proof.
  revert g; induction ts as [|t ts IH]; simpl; intros g H1 H2.
  - injection H1 as ->. now rewrite H2.
  - destruct (Ball_acquire_step g t) as [g2|e]; [|discriminate]. simpl in H1.
    destruct (IH g2 H1 H2) as [Hl Hn]. split; [|simpl; now rewrite Hn].
    simpl. destruct (Ball_acquire_owners L g2 ts); [discriminate Hn|exact Hl].
Qed.

(** C4.  The ball has no owner or exactly one, and within a tick the
    owner never passes straight from a player to another player of the same
    team: in the sequence of owners that [Ball.update] goes through (before
    the tick, after the move of the ball, after each iteration of the search
    for a player that can acquire it, after the kick), two consecutive
    owners are the same player, players of opposite teams, or one of them is
    nobody.  The sequence ends with the owner that [Ball.update] leaves. *)
Theorem ownership_handover (L : Library) (g : Game) :
  (b_owner (ball g) = None \/ exists! o, b_owner (ball g) = Some o)
  /\ chain (handover g) (Ball_update_owners L g)
  /\ forall g', Ball_update L g = Ok g' ->
       last (Ball_update_owners L g) None = b_owner (ball g')
       /\ length (Ball_update_owners L g) = (length (players g) + 3)%nat
       /\ (b_owner (ball g') = None \/ exists! o, b_owner (ball g') = Some o).
Proof.
  assert (Huniq : forall b, b_owner b = None \/ exists! o, b_owner b = Some o).
  { intros b. destruct (b_owner b) as [o|]; [right|now left].
    exists o. split; [reflexivity|]. now intros o' H; injection H. }
  split; [apply Huniq|].
  unfold Ball_update_owners.
  set (g1 := Ball_move L (Ball_tick_timer g)).
  assert (Hr0 : same_roster g (Ball_tick_timer g))
    by (apply same_roster_players; reflexivity).
  destruct (Ball_move_owner L (Ball_tick_timer g)) as [Hr1 Ho1]. fold g1 in Hr1, Ho1.
  assert (Hr : same_roster g g1) by (now apply same_roster_trans with (Ball_tick_timer g)).
  split.
  - constructor.
    + apply handover_same. exact Ho1.
    + now apply Ball_acquire_owners_chain.
  - intros g' H. unfold Ball_update in H. fold g1 in H.
    unfold Ball_acquire in H.
    destruct (Ball_acquire_loop g1 (seq 0 (length (players g1)))) as [g2|e] eqn:E2;
      [|discriminate].
    simpl in H.
    destruct (Ball_acquire_owners_last L g1 g2 g' _ E2 H) as [Hl Hn].
    split; [|split; [|apply Huniq]].
    + simpl. destruct (Ball_acquire_owners L g1 (seq 0 (length (players g1))));
        [discriminate Hn|exact Hl].
    + simpl. rewrite Hn, length_seq.
      assert (Hlen : length (players g1) = length (players g)).
      { unfold g1, Ball_move, Ball_tick_timer. simpl.
        destruct (b_owner (ball g)); [|reflexivity].
        destruct (on_pitch L _ _); simpl; [reflexivity|apply length_update_nth]. }
      rewrite Hlen. lia.
Qed.

(** ** Hold-off timers *)

(** The timers of the players through an iteration of the search: kept, or
    set to 60. *)
Lemma Ball_acquire_step_timer (g g' : Game) (t : nat) :
  Ball_acquire_step g t = Ok g' ->
  forall p, p_timer (player_at g' p) = p_timer (player_at g p)
            \/ p_timer (player_at g' p) = 60.
Proof.
  unfold Ball_acquire_step.
  destruct (can_acquire g (player_at g t)).
  - destruct (update_team _ _ _) as [g2|e] eqn:E2; [|discriminate].
    simpl. intros H; injection H as <-. intros p.
    apply update_team_frame in E2. destruct E2 as (Hp2 & _ & _). simpl in Hp2.
    unfold player_at. simpl. rewrite Hp2.
    destruct (b_owner (ball g)) as [o|]; [|now left].
    simpl. destruct (Nat.eq_dec p o) as [->|Hne].
    + destruct (Nat.lt_ge_cases o (length (players g))) as [Hlt|Hge].
      * right. now rewrite nth_update_nth_eq.
      * left. rewrite !nth_overflow; try reflexivity; [exact Hge|].
        now rewrite length_update_nth.
    + left. now rewrite nth_update_nth_neq.
  - intros H; injection H as <-. now left.
Qed.

Lemma collide_timer (b : Ball) (p : Player) : Ball_collide b p = true -> p_timer p < 0.
Proof.
  unfold Ball_collide. intros H. apply andb_prop in H as [H _]. now apply Z.ltb_lt.
Qed.

(** Through the whole search: a new owner had a negative timer. *)
Lemma Ball_acquire_loop_timer (g g' : Game) (ts : list nat) :
  Ball_acquire_loop g ts = Ok g' ->
  (forall p, p_timer (player_at g' p) = p_timer (player_at g p)
             \/ p_timer (player_at g' p) = 60)
  /\ (b_owner (ball g') = b_owner (ball g)
      \/ exists q, b_owner (ball g') = Some q /\ p_timer (player_at g q) < 0).
Proof.
  revert g; induction ts as [|t ts IH]; simpl; intros g H.
  - injection H as <-. split; [now left|now left].
  - destruct (Ball_acquire_step g t) as [g1|e] eqn:E1; [|discriminate]. simpl in H.
    destruct (IH g1 H) as [Ht Ho].
    pose proof (Ball_acquire_step_timer g g1 t E1) as Ht1.
    destruct (Ball_acquire_step_owner g g1 t E1) as [_ Ho1].
    split.
    + intros p. destruct (Ht p) as [Hp|Hp]; [|now right].
      rewrite Hp. apply Ht1.
    + destruct Ho as [Ho|(q & Hq & Hlt)].
      * rewrite Ho. destruct Ho1 as [Ho1|(Ho1 & Hc & _)]; [now left|].
        right. exists t. split; [exact Ho1|now apply collide_timer with (ball g)].
      * right. exists q. split; [exact Hq|].
        destruct (Ht1 q) as [Hq1|Hq1]; lia.
Qed.

Lemma Ball_move_timer (L : Library) (g : Game) (p : nat) :
  p_timer (player_at (Ball_move L g) p) = p_timer (player_at g p)
  \/ p_timer (player_at (Ball_move L g) p) = 60.
Proof.
  unfold Ball_move. destruct (b_owner (ball g)) as [o|]; [|now left].
  destruct (on_pitch L _ _); [now left|].
  unfold player_at. simpl.
  destruct (Nat.eq_dec p o) as [->|Hne].
  - destruct (Nat.lt_ge_cases o (length (players g))) as [Hlt|Hge].
    + right. now rewrite nth_update_nth_eq.
    + left. rewrite !nth_overflow; try reflexivity; [exact Hge|].
      now rewrite length_update_nth.
  - left. now rewrite nth_update_nth_neq.
Qed.

(** C5, as stated, fails: the search for a player that can acquire the
    ball looks at the player's own timer and never at the ball's.  Player 0
    loses the ball to player 1 in [Ex.tackle]; sixty-one frames later its
    own timer has run out while the ball's timer is at 29, and it takes the
    ball back. *)
Lemma holdoff_counterexample :
  (exists g1, Ball_update ref_lib Ex.tackle = Ok g1
              /\ b_owner (ball Ex.tackle) = Some 0%nat
              /\ b_owner (ball g1) = Some 1%nat)
  /\ b_owner (ball Ex.retake) = Some 1%nat
  /\ 0 < b_timer (ball (Ball_tick_timer Ex.retake))
  /\ exists g2, Ball_update ref_lib Ex.retake = Ok g2
                /\ b_owner (ball g2) = Some 0%nat.
Proof.
  split; [eexists; split; [vm_compute; reflexivity|split; reflexivity]|].
  split; [reflexivity|]. split; [reflexivity|].
  eexists; split; [vm_compute; reflexivity|reflexivity].
Qed.

Lemma timer_update_nth (l : list Player) (o p : nat) (t : Z) :
  (p < length l)%nat ->
  p_timer (nth p (update_nth o (Player_set_timer t) l) dummy_player)
  = if Nat.eqb p o then t else p_timer (nth p l dummy_player).
Proof.
  intros Hlt. destruct (Nat.eqb_spec p o) as [->|Hne].
  - now rewrite nth_update_nth_eq.
  - now rewrite nth_update_nth_neq.
Qed.

Lemma timer_after_set (g : Game) (o p : nat) (t : Z) :
  (p < length (players g))%nat ->
  p_timer (player_at (set_player_timer g o t) p)
  = if Nat.eqb p o then t else p_timer (player_at g p).
Proof. apply timer_update_nth. Qed.

Lemma player_at_set_ball (g : Game) (b : Ball) (p : nat) :
  player_at (set_ball g b) p = player_at g p.
Proof. reflexivity. Qed.

Lemma Ball_move_kept_or_lost (L : Library) (g : Game) (p : nat) :
  kept_or_lost p g -> kept_or_lost p (Ball_move L g).
Proof.
  intros [Hlt H]. unfold Ball_move.
  destruct (b_owner (ball g)) as [o|] eqn:Eo.
  - destruct (on_pitch L _ _).
    + split; [exact Hlt|]. simpl. rewrite Eo. exact H.
    + split; [simpl; now rewrite length_update_nth|].
      right. split; [discriminate|].
      rewrite player_at_set_ball, timer_after_set by exact Hlt.
      destruct (Nat.eqb_spec p o) as [->|Hne]; [reflexivity|].
      destruct H as [H|[_ H]]; [congruence|exact H].
  - split; [exact Hlt|]. right.
    destruct H as [H|[_ H]]; [discriminate|].
    split; [|exact H].
    unfold Ball_roll. simpl.
    repeat match goal with |- context [ball_physics ?a ?c ?d] =>
      destruct (ball_physics a c d) end. simpl. rewrite Eo. discriminate.
Qed.

Lemma Ball_acquire_step_kept_or_lost (g g' : Game) (t p : nat) :
  Ball_acquire_step g t = Ok g' -> kept_or_lost p g -> kept_or_lost p g'.
Proof.
  unfold Ball_acquire_step. intros H [Hlt Hk].
  destruct (can_acquire g (player_at g t)) eqn:Ec;
    [|injection H as <-; now split].
  destruct (update_team _ _ _) as [g2|e] eqn:E2; [|discriminate].
  simpl in H. injection H as <-.
  apply update_team_frame in E2. destruct E2 as (Hp2 & Hb2 & _). simpl in Hp2, Hb2.
  unfold can_acquire in Ec. apply andb_prop in Ec as [Eo Ecol].
  apply collide_timer in Ecol.
  assert (Hlen : length (players g2) = length (players g)).
  { rewrite Hp2. destruct (b_owner (ball g)); [apply length_update_nth|reflexivity]. }
  split; [simpl; lia|].
  right. simpl.
  assert (Htp : t <> p /\ p_timer (player_at g2 p) = 60).
  { unfold player_at at 1. rewrite Hp2.
    destruct (b_owner (ball g)) as [o|] eqn:Eown.
    - apply negb_true_iff, Z.eqb_neq in Eo.
      fold (player_at (set_player_timer g o 60) p).
      rewrite timer_after_set by exact Hlt.
      destruct Hk as [Hk|[Hne Hk]].
      + injection Hk as ->. rewrite Nat.eqb_refl. split; [congruence|reflexivity].
      + destruct (Nat.eqb_spec p o) as [->|_]; [congruence|].
        split; [|exact Hk]. intros ->. lia.
    - destruct Hk as [Hk|[_ Hk]]; [discriminate|].
      split; [intros ->; lia|exact Hk]. }
  destruct Htp as [Htp Ht60]. split; [congruence|].
  unfold player_at in *. simpl. exact Ht60.
Qed.

Lemma Ball_acquire_loop_kept_or_lost (g g' : Game) (ts : list nat) (p : nat) :
  Ball_acquire_loop g ts = Ok g' -> kept_or_lost p g -> kept_or_lost p g'.
Proof.
  revert g; induction ts as [|t ts IH]; simpl; intros g H Hk.
  - now injection H as <-.
  - destruct (Ball_acquire_step g t) as [g1|e] eqn:E1; [|discriminate]. simpl in H.
    apply (IH g1 H). now apply Ball_acquire_step_kept_or_lost with g t.
Qed.

Lemma do_shoot_frame (L : Library) (g g1 : Game) (team : Team) (owner : Player)
      (target : option Ref) (b : bool) :
  do_shoot L g team owner target = Ok (b, g1) ->
  players g1 = players g /\ ball g1 = ball g.
Proof.
  unfold do_shoot. destruct (controls team) as [c|].
  - intros H; injection H as _ <-. now split.
  - destruct (cpu_do_shoot L g owner target); [|discriminate].
    simpl. intros H; injection H as _ <-. now split.
Qed.

Lemma Ball_shoot_kept_or_lost (L : Library) (g g' : Game) (p : nat) :
  Ball_shoot L g = Ok g' -> kept_or_lost p g ->
  b_owner (ball g') <> Some p ->
  p_timer (player_at g' p) = 60 \/ p_timer (player_at g' p) = 10.
Proof.
  unfold Ball_shoot. intros H [Hlt Hk] Hfinal.
  destruct (b_owner (ball g)) as [o|] eqn:Eo.
  - destruct (Py.index _ _) as [team|e]; [|discriminate]. simpl in H.
    destruct (shoot_target L g (player_at g o)) as [target|e]; [|discriminate].
    simpl in H.
    destruct (do_shoot L _ team (player_at g o) target) as [[shoot g1]|e] eqn:Ed;
      [|discriminate].
    simpl in H. apply do_shoot_frame in Ed. destruct Ed as [Hp1 Hb1].
    destruct (Ball_note_target_frame g target) as (_ & Hpn & Hbn & _).
    rewrite Hpn in Hp1. rewrite Hbn in Hb1. clear Hpn Hbn.
    destruct shoot.
    + unfold Ball_kick in H.
      destruct (match target with Some _ => _ | None => _ end) as [[vec tg]|e];
        [|discriminate].
      simpl in H.
      destruct (match tg with RPlayer _ => _ | RGoal _ => _ end) as [g2|e] eqn:E2;
        [|discriminate].
      simpl in H. injection H as <-.
      assert (Hp2 : players g2 = players g).
      { destruct tg; [|now injection E2 as <-].
        apply update_team_frame in E2. destruct E2 as [-> _]. exact Hp1. }
      unfold player_at. simpl. rewrite Hp2.
      rewrite timer_update_nth by exact Hlt.
      destruct (Nat.eqb_spec p o) as [->|Hne]; [now right|left].
      destruct Hk as [Hk|[_ Hk]]; [congruence|exact Hk].
    + injection H as <-. left.
      assert (Hne : Some o <> Some p) by (rewrite Hb1, Eo in Hfinal; exact Hfinal).
      unfold player_at. rewrite Hp1.
      destruct Hk as [Hk|[_ Hk]]; [congruence|exact Hk].
  - injection H as <-. left.
    destruct Hk as [Hk|[_ Hk]]; [discriminate|exact Hk].
Qed.

(** C5, amended.  What keeps a player from acquiring the ball is the
    player's own hold-off timer, and the ball's timer plays no part: a
    player who becomes the owner in a tick had a negative timer when
    [Ball.update] began.  A player who loses the ball in a tick leaves it
    with its timer at 60 (the ball was taken, or dropped off the pitch) or
    at 10 (a kick), so the previous owner cannot reacquire the ball before
    its own timer has run below zero. *)
Theorem holdoff_guards_acquisition (L : Library) (g g' : Game) (p : nat) :
  Ball_update L g = Ok g' ->
  (b_owner (ball g') = Some p ->
   b_owner (ball g) = Some p \/ p_timer (player_at g p) < 0)
  /\ (b_owner (ball g) = Some p -> (p < length (players g))%nat ->
      b_owner (ball g') <> Some p ->
      p_timer (player_at g' p) = 60 \/ p_timer (player_at g' p) = 10).
Proof.
  unfold Ball_update, Ball_acquire.
  set (g1 := Ball_move L (Ball_tick_timer g)).
  destruct (Ball_acquire_loop g1 (seq 0 (length (players g1)))) as [g2|e] eqn:E2;
    [|discriminate].
  simpl. intros H. split.
  - intros Hp.
    destruct (Ball_shoot_owner L g2 g' H) as [Hs|Hs]; [|congruence].
    rewrite Hp in Hs. symmetry in Hs.
    destruct (Ball_acquire_loop_timer g1 g2 _ E2) as [_ [Ho|(q & Hq & Hlt)]].
    + left. rewrite Hs in Ho. symmetry in Ho.
      destruct (Ball_move_owner L (Ball_tick_timer g)) as [_ [Hm|Hm]];
        fold g1 in Hm; [|congruence].
      rewrite Ho in Hm. symmetry. exact Hm.
    + right. rewrite Hs in Hq. injection Hq as <-.
      destruct (Ball_move_timer L (Ball_tick_timer g) p) as [Hm|Hm];
        fold g1 in Hm; [|lia].
      rewrite Hm in Hlt. exact Hlt.
  - intros Hown Hlt Hfinal.
    apply (Ball_shoot_kept_or_lost L g2 g' p H); [|exact Hfinal].
    apply (Ball_acquire_loop_kept_or_lost g1 g2 _ p E2).
    apply Ball_move_kept_or_lost. split; [exact Hlt|left; exact Hown].
Qed.

Lemma holdoff_guards_acquisition_witness :
  exists g', Ball_update ref_lib Ex.retake = Ok g'
             /\ (b_owner (ball g') = Some 0%nat ->
                 b_owner (ball Ex.retake) = Some 0%nat
                 \/ p_timer (player_at Ex.retake 0) < 0).
Proof.
  eexists. split; [vm_compute; reflexivity|].
  apply (holdoff_guards_acquisition ref_lib Ex.retake _ 0). vm_compute. reflexivity.
Defined.

(** ** Goals and kickoffs *)

Lemma two_teams (g : Game) :
  length (teams g) = 2%nat -> exists t0 t1, teams g = [t0; t1].
Proof.
  destruct (teams g) as [|t0 [|t1 [|t2 ts]]]; try discriminate.
  intros _. now exists t0, t1.
Qed.

(** An index that is not negative and below the length is in range. *)
Lemma index_ok {A : Type} (l : list A) (i : Z) :
  0 <= i < Z.of_nat (length l) -> exists a, Py.index l i = Ok a.
Proof.
  intros Hi. unfold Py.index. cbv zeta.
  assert (E : (i <? 0) = false) by (apply Z.ltb_ge; lia).
  assert (E2 : (Z.of_nat (length l) <=? i) = false) by (apply Z.leb_gt; lia).
  rewrite E. cbv iota. rewrite E, E2. simpl.
  destruct (nth_error l (Z.to_nat i)) eqn:En; [now eexists|].
  apply nth_error_None in En. lia.
Qed.

Lemma update_team_first (g : Game) (t0 t1 : Team) (f : Team -> Team) :
  teams g = [t0; t1] -> update_team g 0 f = Ok (set_teams g [f t0; t1]).
Proof. intros Ht. unfold update_team, Py.index. rewrite Ht. reflexivity. Qed.

Lemma update_team_second (g : Game) (t0 t1 : Team) (f : Team -> Team) :
  teams g = [t0; t1] -> update_team g 1 f = Ok (set_teams g [t0; f t1]).
Proof. intros Ht. unfold update_team, Py.index. rewrite Ht. reflexivity. Qed.

(** The roster that [Game.reset] builds is the kickoff formation. *)
Lemma roster_formation (jitter : nat -> Z) :
  assign_peers (roster jitter 0 PLAYER_START_POS) = formation jitter.
Proof. reflexivity. Qed.

Lemma formation_length (jitter : nat -> Z) : length (formation jitter) = 14%nat.
Proof. reflexivity. Qed.

(** [Game.reset]: the roster in kickoff formation, a new ball at the centre
    (at rest, without owner, its timer at 0), the kickoff given to the first
    player of the team that did not score, who stands by the centre spot. *)
Lemma Game_reset_spec (jitter : nat -> Z) (g : Game) :
  length (teams g) = 2%nat ->
  let other := if scoring_team g =? 0 then 1 else 0 in
  exists g',
    Game_reset jitter g = Ok g'
    /\ players g'
       = update_nth (Z.to_nat other) (Player_set_vpos (kickoff_spot other)) (formation jitter)
    /\ ball g' = mkBall (V2 500 700) (V2 0 0) None 0
    /\ kickoff_player g' = Some (Z.to_nat other)
    /\ p_team (player_at g' (Z.to_nat other)) = other
    /\ (forall i, (i < Z.to_nat other)%nat -> p_team (player_at g' i) <> other)
    /\ goals g' = [Goal_init 0; Goal_init 1]
    /\ same_score_state g g'.
Proof.
  intros Hlen other. destruct (two_teams g Hlen) as (t0 & t1 & Ht).
  unfold Game_reset. rewrite roster_formation.
  set (g0 := mkGame _ _ _ _ _ _ _ _ _ _ _).
  assert (Hl : length (players g0) = 14%nat) by apply formation_length.
  destruct (index_ok (players g0) 0) as [p0 E0]; [lia|]. rewrite E0. cbn [Py.bind].
  rewrite (update_team_first g0 t0 t1) by exact Ht. cbn [Py.bind].
  set (g1 := set_teams g0 _).
  destruct (index_ok (players g1) 1) as [p1 E1]; [change (players g1) with (players g0); lia|].
  rewrite E1. cbn [Py.bind].
  rewrite (update_team_second g1 (Team_set_active (Some 0%nat) t0) t1) by reflexivity.
  cbn [Py.bind]. set (g2 := set_teams g1 _).
  change (scoring_team g2) with (scoring_team g). fold other.
  destruct (index_ok (players g2) other) as [p2 E2].
  { change (players g2) with (players g0). unfold other.
    destruct (scoring_team g =? 0); lia. }
  rewrite E2. cbn [Py.bind]. eexists. split; [reflexivity|].
  split; [reflexivity|]. split; [reflexivity|]. split; [reflexivity|].
  cbn [players set_debug_shoot_target set_ball set_players].
  split; [|split; [|split]].
  - unfold player_at. cbn [players set_debug_shoot_target set_ball set_players set_kickoff_player set_teams g2 g1 g0].
    unfold other. destruct (scoring_team g =? 0); reflexivity.
  - intros i Hi. unfold player_at. cbn [players set_debug_shoot_target set_ball set_players set_kickoff_player set_teams g2 g1 g0].
    revert Hi. unfold other. destruct (scoring_team g =? 0).
    + intros Hi. assert (Hi0 : i = 0%nat) by (change (Z.to_nat 1) with 1%nat in Hi; lia).
      subst i. intros H. discriminate H.
    + change (Z.to_nat 0) with 0%nat. lia.
  - reflexivity.
  - unfold same_score_state. cbn. rewrite Ht. repeat split.
Qed.

(** A goal: the ball is beyond a goal line and no goal sequence runs. *)
Lemma Game_update_score_goal (jitter : nat -> Z) (g : Game) :
  length (teams g) = 2%nat ->
  score_timer g - 1 < 0 ->
  ball_in_goal (ball g) = true ->
  let scorer := if (vy (b_vpos (ball g)) <? F.of_Z HALF_LEVEL_H)%float then 0 else 1 in
  exists g',
    Game_update_score jitter g = Ok g'
    /\ score_timer g' = 60
    /\ scoring_team g' = scorer
    /\ score_of g' scorer = score_of g scorer + 1
    /\ score_of g' (1 - scorer) = score_of g (1 - scorer)
    /\ players g' = players g /\ ball g' = ball g
    /\ kickoff_player g' = kickoff_player g.
Proof.
  intros Hlen Ht Hin scorer. destruct (two_teams g Hlen) as (t0 & t1 & Hts).
  unfold Game_update_score.
  change (score_timer (set_score_timer g (score_timer g - 1))) with (score_timer g - 1).
  change (ball (set_score_timer g (score_timer g - 1))) with (ball g).
  destruct (Z.eqb_spec (score_timer g - 1) 0) as [E|_]; [lia|].
  apply Z.ltb_lt in Ht. rewrite Ht, Hin. cbn [andb].
  fold scorer. unfold update_team, score_of. cbn [scoring_team set_scoring_team teams
    set_score_timer]. rewrite Hts.
  unfold scorer. destruct (vy (b_vpos (ball g)) <? F.of_Z HALF_LEVEL_H)%float; simpl;
    eexists; (split; [reflexivity|]); simpl; now repeat split.
Qed.

(** While the goal sequence runs, the beginning of [Game.update] only
    counts down. *)
Lemma Game_update_score_countdown (jitter : nat -> Z) (g : Game) :
  1 < score_timer g ->
  Game_update_score jitter g = Ok (set_score_timer g (score_timer g - 1)).
Proof.
  intros H. unfold Game_update_score. simpl.
  destruct (Z.eqb_spec (score_timer g - 1) 0) as [E|_]; [lia|].
  destruct (Z.ltb_spec (score_timer g - 1) 0) as [E|_]; [lia|]. reflexivity.
Qed.

(** When the timer reaches zero, the match is reset. *)
Lemma Game_update_score_reset (jitter : nat -> Z) (g : Game) :
  score_timer g = 1 ->
  Game_update_score jitter g = Game_reset jitter (set_score_timer g 0).
Proof.
  intros H. unfold Game_update_score. simpl. rewrite H. reflexivity.
Qed.

Lemma frames_countdown (jitter : nat -> Z) (n : nat) (g g' : Game) :
  frames jitter n g g' ->
  Z.of_nat n < score_timer g ->
  score_timer g' = score_timer g - Z.of_nat n
  /\ scoring_team g' = scoring_team g
  /\ map score (teams g') = map score (teams g).
Proof.
  induction 1 as [g|n g g1 g2 g3 Hf IH Hu Hs]; intros Hn.
  - repeat split; lia.
  - destruct IH as (Ht & Hsc & Hm); [lia|].
    rewrite Game_update_score_countdown in Hu by lia.
    injection Hu as <-. destruct Hs as (Ht3 & Hsc3 & Hm3). simpl in *.
    repeat split; [lia|congruence|congruence].
Qed.

(** C7.  In the frame in which the ball is beyond a goal line (its Y
    distance from the centre of the level exceeds the half height of the
    pitch) while no goal sequence runs, the score of the scoring team goes
    up by exactly one, the other score stays, and the score timer is set to
    60.  During the next 59 frames the beginning of [Game.update] only
    counts the timer down: there is no further goal and no reset.  In the
    60th frame the timer reaches zero and the match is reset: the roster is
    rebuilt in kickoff formation with the jitter of the random generator,
    the ball is a new ball at the centre of the level, (500, 700), at rest,
    without owner and with its timer at 0, and the kickoff player is the
    first roster player of the team that did not score, placed by the
    centre spot. *)
Theorem goal_then_kickoff (jitter : nat -> Z) (g : Game) :
  length (teams g) = 2%nat ->
  score_timer g - 1 < 0 ->
  ball_in_goal (ball g) = true ->
  let scorer := if (vy (b_vpos (ball g)) <? F.of_Z HALF_LEVEL_H)%float then 0 else 1 in
  exists g1,
    Game_update_score jitter g = Ok g1
    /\ score_timer g1 = 60
    /\ scoring_team g1 = scorer
    /\ score_of g1 scorer = score_of g scorer + 1
    /\ score_of g1 (1 - scorer) = score_of g (1 - scorer)
    /\ forall g1', same_score_state g1 g1' ->
       (forall n g2, frames jitter n g1' g2 -> (n < 60)%nat ->
          score_timer g2 = 60 - Z.of_nat n
          /\ scoring_team g2 = scorer
          /\ map score (teams g2) = map score (teams g1)
          /\ ((n < 59)%nat ->
              Game_update_score jitter g2 = Ok (set_score_timer g2 (score_timer g2 - 1))))
       /\ (forall g2, frames jitter 59 g1' g2 ->
             exists g3,
               Game_update_score jitter g2 = Ok g3
               /\ players g3
                  = update_nth (Z.to_nat (1 - scorer))
                      (Player_set_vpos (kickoff_spot (1 - scorer))) (formation jitter)
               /\ ball g3 = mkBall (V2 500 700) (V2 0 0) None 0
               /\ kickoff_player g3 = Some (Z.to_nat (1 - scorer))
               /\ p_team (player_at g3 (Z.to_nat (1 - scorer))) = 1 - scorer
               /\ (forall i, (i < Z.to_nat (1 - scorer))%nat ->
                     p_team (player_at g3 i) <> 1 - scorer)
               /\ map score (teams g3) = map score (teams g1)).
Proof.
  intros Hlen Ht Hin scorer.
  destruct (Game_update_score_goal jitter g Hlen Ht Hin)
    as (g1 & Hu & Ht1 & Hs1 & Hsc & Hsc' & _).
  fold scorer in Hs1, Hsc, Hsc'.
  exists g1. repeat (split; [assumption|]).
  intros g1' Hsame.
  assert (Hrun : forall n g2, frames jitter n g1' g2 -> (n < 60)%nat ->
            score_timer g2 = 60 - Z.of_nat n
            /\ scoring_team g2 = scorer
            /\ map score (teams g2) = map score (teams g1)).
  { intros n g2 Hf Hn. destruct Hsame as (Ht' & Hs' & Hm').
    destruct (frames_countdown jitter n g1' g2 Hf) as (Ha & Hb & Hc); [lia|].
    repeat split; [lia|congruence|congruence]. }
  split.
  - intros n g2 Hf Hn. destruct (Hrun n g2 Hf Hn) as (Ha & Hb & Hc).
    repeat split; try assumption.
    intros Hn'. apply Game_update_score_countdown. lia.
  - intros g2 Hf. destruct (Hrun 59%nat g2 Hf) as (Ha & Hb & Hc); [lia|].
    rewrite Game_update_score_reset by lia.
    assert (Hlen2 : length (teams (set_score_timer g2 0)) = 2%nat).
    { simpl. apply (f_equal (@length Z)) in Hc. rewrite !length_map in Hc.
      rewrite Hc. destruct Hsame as (_ & _ & Hm).
      assert (Hg1 : length (teams g1) = length (teams g)).
      { unfold Game_update_score in Hu. simpl in Hu.
        destruct (score_timer g - 1 =? 0) eqn:E0; [lia|].
        apply Z.ltb_lt in Ht. rewrite Ht, Hin in Hu. simpl in Hu.
        unfold update_team in Hu. simpl in Hu.
        destruct (Py.index (teams g) _); [|discriminate]. simpl in Hu.
        injection Hu as <-. simpl. apply length_update_nth. }
      lia. }
    destruct (Game_reset_spec jitter (set_score_timer g2 0) Hlen2)
      as (g3 & Hr & Hp & Hb3 & Hk & Hteam & Hfirst & _ & (_ & _ & Hm3)).
    simpl in Hp, Hk, Hteam, Hfirst, Hm3. rewrite Hb in Hp, Hk, Hteam, Hfirst.
    assert (Hother : (if scorer =? 0 then 1 else 0) = 1 - scorer).
    { unfold scorer. now destruct (vy (b_vpos (ball g)) <? F.of_Z HALF_LEVEL_H)%float. }
    rewrite Hother in Hp, Hk, Hteam, Hfirst.
    exists g3. repeat split; try assumption. congruence.
Qed.

Lemma goal_then_kickoff_witness :
  exists g1,
    Game_update_score Ex.no_jitter Ex.in_net = Ok g1
    /\ score_timer g1 = 60
    /\ scoring_team g1 = 0
    /\ score_of g1 0 = score_of Ex.in_net 0 + 1.
Proof.
  destruct (goal_then_kickoff Ex.no_jitter Ex.in_net eq_refl eq_refl eq_refl)
    as (g1 & H1 & H2 & H3 & H4 & _).
  exists g1. repeat split; assumption.
Defined.

(** ** The chasers of the owner *)

Lemma filterM_none {A : Type} (f : A -> Py.result bool) (l : list A) :
  Forall (fun a => f a = Ok false) l -> filterM f l = Ok [].
Proof.
  induction 1 as [|a l Ha _ IH]; simpl; [reflexivity|].
  now rewrite Ha, IH.
Qed.

Lemma chasers_none (g : Game) (team1 : Team) (o : nat) :
  Py.index (teams g) 1 = Ok team1 ->
  forallb (filtered_out g team1 o) (seq 0 (length (players g))) = true ->
  chasers g o = Ok [].
Proof.
  intros Ht Hall. unfold chasers. rewrite filterM_none; [reflexivity|].
  rewrite forallb_forall in Hall. apply Forall_forall. intros i Hi.
  specialize (Hall i Hi). unfold filtered_out in Hall.
  replace (if p_team (player_at g o) =? 0 then 1 else 1) with 1
    by (now destruct (p_team (player_at g o) =? 0)).
  destruct (p_team (player_at g i) =? p_team (player_at g o)) eqn:E1; [reflexivity|].
  destruct (Z.ltb_spec 0 (p_timer (player_at g i))) as [E2|E2].
  - destruct (Z.leb_spec (p_timer (player_at g i)) 0) as [E3|_]; [lia|reflexivity].
  - destruct (Z.leb_spec (p_timer (player_at g i)) 0) as [_|E3]; [|lia].
    simpl. rewrite Ht. simpl. simpl in Hall.
    destruct (Team_human team1); simpl in *.
    + destruct (active_control_player team1) as [a|]; simpl in *.
      * destruct (Nat.eqb i a); simpl in *; [reflexivity|].
        now rewrite Hall.
      * now rewrite Hall.
    + now rewrite Hall.
Qed.

(** C10.  When the ball has an owner, [Game.update] gives a lead distance
    to the first element of the interleaved list of chasers without looking
    whether there is one.  In every state in which every opposing player is
    filtered out of that list (positive hold-off timer, player controlled
    by the human, or goalie marking a goal), the list is empty and the frame
    fails with [IndexError]. *)
Theorem chasers_index_error (g g1 : Game) (team1 : Team) (o : nat) :
  b_owner (ball g) = Some o ->
  assign_goalie g o = Ok g1 ->
  Py.index (teams g1) 1 = Ok team1 ->
  forallb (filtered_out g1 team1 o) (seq 0 (length (players g1))) = true ->
  chasers g1 o = Ok []
  /\ interleave [] [] = []
  /\ Game_assign_roles g = Raise IndexError.
Proof.
  intros Hown Hgoalie Ht Hall.
  pose proof (chasers_none g1 team1 o Ht Hall) as Hc.
  split; [exact Hc|]. split; [reflexivity|].
  unfold Game_assign_roles. rewrite Hown, Hgoalie. simpl. rewrite Hc. reflexivity.
Qed.

Lemma chasers_index_error_witness :
  exists g1,
    assign_goalie Ex.all_held 0 = Ok g1
    /\ Game_assign_roles Ex.all_held = Raise IndexError.
Proof.
  eexists. split; [vm_compute; reflexivity|].
  eapply (chasers_index_error Ex.all_held _ (mkTeam None (Some 1%nat) 0) 0).
  - reflexivity.
  - vm_compute. reflexivity.
  - vm_compute. reflexivity.
  - vm_compute. reflexivity.
Defined.

(** ** The division by the distance to the own goal *)

(** C9.  The own-goal term of [cost] divides 3500 by the distance from the
    position to the own-goal reference point, (500, 78) for team 1 and
    (500, 1322) for team 0, and nothing floors that distance: at the
    reference point itself the evaluation fails with a division by zero.
    At every other position the distance is not zero and the division is
    defined, and [cost] returns its value; the positions are those at which
    [**] does not overflow, as it does at no position within 1e154 of the
    level.  The divisions of the opponent-repulsion term never fail, their
    divisor being floored at 24. *)
Theorem own_goal_division (L : Library) (g : Game) (pos : Vector2) (team : Z)
        (handicap : float) :
  own_goal_pos 1 = V2 500 78
  /\ own_goal_pos 0 = V2 500 1322
  /\ cost L g (own_goal_pos team) team handicap = Raise ZeroDivisionError
  /\ (pos <> own_goal_pos team ->
      (exists q, F.div 3500 (Vec.length (Vec.sub pos (own_goal_pos team))) = Ok q)
      /\ (square_overflows L pos = false ->
          cost L g pos team handicap = Ok (spec_cost L g pos team handicap, pos)))
  /\ (forall p : Player,
        (24 <=? F.max 24 (Vec.length (Vec.sub (p_vpos p) pos)))%float = true
        /\ F.div 4000 (F.max 24 (Vec.length (Vec.sub (p_vpos p) pos)))
           = Ok (4000 / F.max 24 (Vec.length (Vec.sub (p_vpos p) pos)))%float).
Proof.
  split; [reflexivity|]. split; [reflexivity|]. split; [|split].
  - now rewrite cost_cases, distance_zero.
  - intros Hd. pose proof (distance_nonzero pos team Hd) as Hn. split.
    + unfold F.div. rewrite Hn. now eexists.
    + intros Hsq. now rewrite cost_cases, Hn, Hsq.
  - intros p. split; [apply max24_ge|].
    unfold F.div. now rewrite (FloatFacts.ge24_nonzero _ (max24_ge _)).
Qed.

Lemma own_goal_division_witness :
  V2 503 600 <> own_goal_pos 0
  /\ square_overflows ref_lib (V2 503 600) = false
  /\ cost ref_lib Ex.cpu_match (V2 503 600) 0 0
     = Ok (spec_cost ref_lib Ex.cpu_match (V2 503 600) 0 0, V2 503 600).
Proof.
  assert (H : V2 503 600 <> own_goal_pos 0).
  { intros H. apply (f_equal vy) in H. apply (f_equal Prim2SF) in H.
    vm_compute in H. discriminate H. }
  split; [exact H|]. split; [vm_compute; reflexivity|].
  apply (own_goal_division ref_lib Ex.cpu_match (V2 503 600) 0 0);
    [exact H|vm_compute; reflexivity].
Defined.

(** ** What [Ball.update] leaves alone *)

Lemma untouched_refl (g : Game) : untouched g g.
Proof. unfold untouched, same_but_timers, same_score_state. tauto. Qed.

Lemma untouched_trans (g1 g2 g3 : Game) :
  untouched g1 g2 -> untouched g2 g3 -> untouched g1 g3.
Proof.
  unfold untouched, same_but_timers, same_score_state.
  intros (A1 & A2 & A3 & A4 & A5 & A6 & A7 & A8 & A9)
         (B1 & B2 & B3 & B4 & B5 & B6 & B7 & B8 & B9).
  repeat split; congruence.
Qed.

Lemma untouched_set_ball (g : Game) (b : Ball) : untouched g (set_ball g b).
Proof. unfold untouched, same_but_timers, same_score_state. simpl. tauto. Qed.

Lemma untouched_key_status (g : Game) (ks : Key -> bool) : untouched g (set_key_status g ks).
Proof. unfold untouched, same_but_timers, same_score_state. simpl. tauto. Qed.

Lemma map_update_nth {A B : Type} (proj : A -> B) (i : nat) (f : A -> A) (l : list A) :
  (forall a, proj (f a) = proj a) -> map proj (update_nth i f l) = map proj l.
Proof.
  intros Hf. revert i; induction l as [|a l IH]; intros [|i]; simpl; try reflexivity.
  - now rewrite Hf.
  - now rewrite IH.
Qed.

Lemma untouched_timer (g : Game) (i : nat) (t : Z) : untouched g (set_player_timer g i t).
Proof.
  unfold untouched, same_but_timers, same_score_state. simpl.
  repeat split; try reflexivity.
  now apply map_update_nth.
Qed.

Lemma untouched_active (g g' : Game) (team : Z) (a : option nat) :
  update_team g team (Team_set_active a) = Ok g' -> untouched g g'.
Proof.
  unfold update_team. destruct (Py.index (teams g) team); [|discriminate].
  simpl. intros H; injection H as <-.
  unfold untouched, same_but_timers, same_score_state. simpl.
  repeat split; try reflexivity; now apply map_update_nth.
Qed.

Lemma untouched_key_just_pressed (g : Game) (key : Key) :
  untouched g (snd (key_just_pressed g key)).
Proof. unfold key_just_pressed. simpl. apply untouched_key_status. Qed.

Lemma nth_map_default {A B : Type} (f : A -> B) (l : list A) (d : A) (i : nat) :
  f (nth i l d) = nth i (map f l) (f d).
Proof. symmetry. apply map_nth. Qed.

(** What is [untouched] keeps the sizes of the roster and of the list of
    teams, and the team of every player. *)
Lemma untouched_roster (g g' : Game) :
  untouched g g' ->
  length (players g') = length (players g)
  /\ length (teams g') = length (teams g)
  /\ same_roster g g'.
Proof.
  intros (A & _ & _ & _ & _ & B & _). unfold same_but_timers in A.
  split; [|split].
  - rewrite <- (length_map (Player_set_timer 0) (players g')), A. apply length_map.
  - rewrite <- (length_map controls (teams g')), B. apply length_map.
  - intros i. unfold player_at.
    change (p_team (nth i (players g') dummy_player))
      with (p_team (Player_set_timer 0 (nth i (players g') dummy_player))).
    change (p_team (nth i (players g) dummy_player))
      with (p_team (Player_set_timer 0 (nth i (players g) dummy_player))).
    rewrite !(nth_map_default (Player_set_timer 0)). now rewrite A.
Qed.

Lemma Ball_move_untouched (L : Library) (g : Game) :
  untouched g (Ball_move L g) /\ teams (Ball_move L g) = teams g.
Proof.
  unfold Ball_move. destruct (b_owner (ball g)) as [o|].
  - destruct (on_pitch L _ _).
    + split; [apply untouched_set_ball|reflexivity].
    + split; [|reflexivity].
      eapply untouched_trans; [apply (untouched_timer g o 60)|apply untouched_set_ball].
  - split; [apply untouched_set_ball|reflexivity].
Qed.

Lemma Ball_acquire_step_untouched (g g' : Game) (t : nat) :
  Ball_acquire_step g t = Ok g' -> untouched g g'.
Proof.
  unfold Ball_acquire_step. destruct (can_acquire g (player_at g t)).
  - set (g1 := match b_owner (ball g) with
               | Some o => set_player_timer g o 60
               | None => g
               end).
    assert (H1 : untouched g g1).
    { unfold g1. destruct (b_owner (ball g)); [apply untouched_timer|apply untouched_refl]. }
    destruct (update_team _ _ _) as [g2|e] eqn:E2; [|discriminate].
    simpl. intros H; injection H as <-.
    apply untouched_active in E2.
    eapply untouched_trans; [exact H1|].
    eapply untouched_trans; [apply untouched_set_ball|].
    eapply untouched_trans; [exact E2|apply untouched_set_ball].
  - intros H; injection H as <-. apply untouched_refl.
Qed.

Lemma Ball_acquire_loop_untouched (g g' : Game) (ts : list nat) :
  Ball_acquire_loop g ts = Ok g' -> untouched g g'.
Proof.
  revert g; induction ts as [|t ts IH]; simpl; intros g H.
  - injection H as <-. apply untouched_refl.
  - destruct (Ball_acquire_step g t) as [g1|e] eqn:E; [|discriminate]. simpl in H.
    eapply untouched_trans; [apply (Ball_acquire_step_untouched _ _ _ E)|now apply IH].
Qed.

Lemma do_shoot_untouched (L : Library) (g g1 : Game) (team : Team) (owner : Player)
      (target : option Ref) (shoot : bool) :
  do_shoot L g team owner target = Ok (shoot, g1) ->
  untouched g g1 /\ teams g1 = teams g /\ players g1 = players g /\ ball g1 = ball g.
Proof.
  unfold do_shoot. destruct (controls team) as [c|].
  - intros H; injection H as _ <-. split; [apply untouched_key_just_pressed|].
    now repeat split.
  - destruct (cpu_do_shoot L g owner target); [|discriminate]. simpl.
    intros H; injection H as _ <-. split; [apply untouched_refl|]. now repeat split.
Qed.

Lemma Ball_kick_untouched (L : Library) (g g' : Game) (o : nat) (team : Team)
      (target : option Ref) :
  Ball_kick L g o team target = Ok g' -> untouched g g'.
Proof.
  unfold Ball_kick.
  destruct (match target with Some _ => _ | None => _ end) as [[vec tg]|e]; [|discriminate].
  simpl. destruct (match tg with RPlayer _ => _ | RGoal _ => _ end) as [g2|e] eqn:E2;
    [|discriminate].
  simpl. intros H; injection H as <-.
  assert (H2 : untouched g g2).
  { destruct tg; [now apply untouched_active in E2|].
    injection E2 as <-. apply untouched_refl. }
  eapply untouched_trans; [exact H2|].
  eapply untouched_trans; [apply (untouched_timer g2 o 10)|apply untouched_set_ball].
Qed.

Lemma untouched_note_target (g : Game) (target : option Ref) :
  untouched g (Ball_note_target g target).
Proof.
  destruct target; [|apply untouched_refl].
  unfold untouched, same_but_timers, same_score_state. simpl. tauto.
Qed.

Lemma do_shoot_note_untouched (L : Library) (g g1 : Game) (team : Team) (owner : Player)
      (target noted : option Ref) (shoot : bool) :
  do_shoot L (Ball_note_target g noted) team owner target = Ok (shoot, g1) ->
  untouched g g1 /\ teams g1 = teams g /\ players g1 = players g /\ ball g1 = ball g.
Proof.
  intros H. apply do_shoot_untouched in H. destruct H as (Hu & Ht & Hp & Hb).
  destruct (Ball_note_target_frame g noted) as (Htn & Hpn & Hbn & _).
  split; [exact (untouched_trans g _ g1 (untouched_note_target g noted) Hu)|].
  repeat split; congruence.
Qed.

Lemma Ball_shoot_untouched (L : Library) (g g' : Game) :
  Ball_shoot L g = Ok g' -> untouched g g'.
Proof.
  unfold Ball_shoot. destruct (b_owner (ball g)) as [o|].
  - destruct (Py.index _ _) as [team|e]; [|discriminate]. simpl.
    destruct (shoot_target L g (player_at g o)) as [target|e]; [|discriminate]. simpl.
    destruct (do_shoot L _ team (player_at g o) target) as [[shoot g1]|e] eqn:Ed;
      [|discriminate].
    simpl. apply do_shoot_note_untouched in Ed. destruct Ed as (Hu & _).
    destruct shoot.
    + intros H. apply Ball_kick_untouched in H. now apply untouched_trans with g1.
    + intros H; injection H as <-. exact Hu.
  - intros H; injection H as <-. apply untouched_refl.
Qed.

(** X1.  [Ball.update] changes nothing of the game but the ball, the
    hold-off timers of the players, the players that the teams control,
    [key_status] and [debug_shoot_target]: the players are the same but for
    their timers, and the goals, the difficulty, the kickoff player, the
    keyboard, the controls of the teams, the scores, the score timer and the
    scoring team are those of before. *)
Theorem Ball_update_untouched (L : Library) (g g' : Game) :
  Ball_update L g = Ok g' -> untouched g g'.
Proof.
  unfold Ball_update, Ball_acquire.
  set (g1 := Ball_move L (Ball_tick_timer g)).
  destruct (Ball_acquire_loop g1 _) as [g2|e] eqn:E2; [|discriminate]. simpl.
  intros H3.
  eapply untouched_trans; [apply (untouched_set_ball g)|].
  eapply untouched_trans; [apply (Ball_move_untouched L)|]. fold g1.
  eapply untouched_trans; [apply (Ball_acquire_loop_untouched _ _ _ E2)|].
  now apply Ball_shoot_untouched with L.
Qed.

Lemma Ball_update_untouched_witness :
  exists g',
    Ball_update ref_lib Ex.caught_and_kicked = Ok g' /\ untouched Ex.caught_and_kicked g'.
Proof.
  eexists. split; [vm_compute; reflexivity|].
  apply (Ball_update_untouched ref_lib). vm_compute. reflexivity.
Defined.

(** ** The references of a game *)

Lemma nth_error_update_nth_eq {A : Type} (i : nat) (f : A -> A) (l : list A) (b : A) :
  nth_error (update_nth i f l) i = Some b -> exists a, nth_error l i = Some a /\ b = f a.
Proof.
  revert i; induction l as [|a l IH]; intros [|i]; simpl; try discriminate.
  - intros H; injection H as <-. now exists a.
  - apply IH.
Qed.

Lemma nth_error_update_nth_neq {A : Type} (i j : nat) (f : A -> A) (l : list A) :
  i <> j -> nth_error (update_nth j f l) i = nth_error l i.
Proof.
  revert i j; induction l as [|a l IH]; intros [|i] [|j]; simpl; intros H;
    try reflexivity; try contradiction.
  apply IH; congruence.
Qed.

Lemma nth_error_update_nth_proj {A B : Type} (proj : A -> B) (i j : nat) (f : A -> A)
      (l : list A) (b : A) :
  (forall a, proj (f a) = proj a) ->
  nth_error (update_nth j f l) i = Some b ->
  exists a, nth_error l i = Some a /\ proj b = proj a.
Proof.
  intros Hf. revert i j; induction l as [|a l IH]; intros [|i] [|j]; simpl;
    try discriminate.
  - intros H; injection H as <-. exists a. now split.
  - intros H; injection H as <-. exists a. now split.
  - intros H. now exists b.
  - apply IH.
Qed.

Lemma index_In {A : Type} (l : list A) (i : Z) (a : A) : Py.index l i = Ok a -> In a l.
Proof.
  unfold Py.index. cbv zeta. destruct (_ || _); [discriminate|].
  destruct (nth_error l _) eqn:E; [|discriminate].
  intros H; injection H as <-. now apply nth_error_In in E.
Qed.

(** [well_formedb] decides [well_formed]. *)
Lemma well_formedb_sound (g : Game) : well_formedb g = true -> well_formed g.
Proof.
  unfold well_formedb. intros H.
  apply andb_prop in H. destruct H as [H H4].
  apply andb_prop in H. destruct H as [H H3].
  apply andb_prop in H. destruct H as [H1 H2].
  apply Nat.eqb_eq in H1. split; [|split].
  - split; [exact H1|]. intros i Hi. rewrite forallb_forall in H2.
    specialize (H2 (player_at g i) (nth_In _ _ Hi)).
    apply orb_prop in H2. destruct H2 as [E|E]; apply Z.eqb_eq in E; tauto.
  - unfold owner_ok. destruct (b_owner (ball g)); [now apply Nat.ltb_lt|exact I].
  - destruct (two_teams g H1) as (t0 & t1 & Ht). rewrite Ht in H4. simpl in H4.
    apply andb_prop in H4. destruct H4 as [A0 A1].
    apply andb_prop in A1. destruct A1 as [A1 _].
    intros t team a Hn Ha. rewrite Ht in Hn.
    assert (A : team_active_ok g t team = true).
    { destruct t as [|[|t]]; simpl in Hn.
      - now injection Hn as <-.
      - now injection Hn as <-.
      - destruct t; discriminate. }
    unfold team_active_ok in A. rewrite Ha in A.
    apply andb_prop in A. destruct A as [B1 B2].
    apply Nat.ltb_lt in B1. apply Z.eqb_eq in B2. now split.
Qed.

Lemma roster_ok_untouched (g g' : Game) : untouched g g' -> roster_ok g -> roster_ok g'.
Proof.
  intros Hu [Ht Hp]. destruct (untouched_roster g g' Hu) as (Hl & Hlt & Hr).
  split; [congruence|]. intros i Hi. rewrite Hr. apply Hp. lia.
Qed.

Lemma active_ok_same (g g' : Game) :
  teams g' = teams g -> untouched g g' -> active_ok g -> active_ok g'.
Proof.
  intros Ht Hu Ha t team a Hn Hact.
  destruct (untouched_roster g g' Hu) as (Hl & _ & Hr).
  rewrite Ht in Hn. destruct (Ha t team a Hn Hact) as [H1 H2].
  split; [lia|]. now rewrite Hr.
Qed.

(** A team takes control of one of its own players. *)
Lemma active_ok_update (g g' : Game) (team : Z) (t : nat) :
  active_ok g -> (t < length (players g))%nat -> p_team (player_at g t) = team ->
  0 <= team ->
  update_team g team (Team_set_active (Some t)) = Ok g' -> active_ok g'.
Proof.
  intros Ha Ht Hteam Hpos. unfold update_team.
  destruct (Py.index (teams g) team) as [tm0|e]; [|discriminate]. simpl.
  destruct (team <? 0) eqn:E; [apply Z.ltb_lt in E; lia|].
  intros H; injection H as <-. intros t' tm a Hn Hact. simpl in Hn.
  unfold player_at. simpl. fold (player_at g a).
  destruct (Nat.eq_dec t' (Z.to_nat team)) as [->|Hne].
  - apply nth_error_update_nth_eq in Hn. destruct Hn as (old & _ & ->).
    simpl in Hact. injection Hact as <-. split; [exact Ht|].
    rewrite Hteam. now rewrite Z2Nat.id.
  - rewrite nth_error_update_nth_neq in Hn by exact Hne. now apply (Ha t' tm a).
Qed.

Lemma roster_team_nonneg (g : Game) (i : nat) :
  roster_ok g -> (i < length (players g))%nat -> 0 <= p_team (player_at g i).
Proof. intros [_ H] Hi. destruct (H i Hi); lia. Qed.

Lemma Ball_move_well_formed (L : Library) (g : Game) :
  well_formed g -> well_formed (Ball_move L g).
Proof.
  intros (Hr & Ho & Ha). destruct (Ball_move_untouched L g) as [Hu Ht].
  split; [now apply (roster_ok_untouched g)|]. split; [|now apply (active_ok_same g)].
  destruct (untouched_roster _ _ Hu) as (Hl & _ & _).
  unfold owner_ok in *. destruct (Ball_move_owner L g) as [_ [E|E]]; rewrite E.
  - destruct (b_owner (ball g)); [lia|exact I].
  - exact I.
Qed.

Lemma Ball_acquire_step_well_formed (g g' : Game) (t : nat) :
  well_formed g -> (t < length (players g))%nat ->
  Ball_acquire_step g t = Ok g' -> well_formed g'.
Proof.
  intros (Hr & Ho & Ha) Ht E.
  pose proof (Ball_acquire_step_untouched g g' t E) as Hu.
  destruct (untouched_roster _ _ Hu) as (Hl & _ & _).
  split; [now apply (roster_ok_untouched g)|]. split.
  - unfold owner_ok in *.
    destruct (Ball_acquire_step_owner g g' t E) as [_ [Eo|[Eo _]]]; rewrite Eo.
    + destruct (b_owner (ball g)); [lia|exact I].
    + lia.
  - revert E. unfold Ball_acquire_step. destruct (can_acquire g (player_at g t)).
    + set (g1 := match b_owner (ball g) with
                 | Some o => set_player_timer g o 60
                 | None => g
                 end).
      assert (H1 : untouched g g1 /\ teams g1 = teams g).
      { unfold g1. destruct (b_owner (ball g));
          [split; [apply untouched_timer|reflexivity]
          |split; [apply untouched_refl|reflexivity]]. }
      destruct H1 as [Hu1 Ht1].
      set (g2 := set_ball g1 (Ball_set_timer (holdoff_timer (difficulty g1)) (ball g1))).
      assert (Hu2 : untouched g g2)
        by (eapply untouched_trans; [exact Hu1|apply untouched_set_ball]).
      assert (Ha2 : active_ok g2) by (apply (active_ok_same g); easy).
      destruct (untouched_roster _ _ Hu2) as (Hl2 & _ & Hr2).
      destruct (update_team g2 _ _) as [g3|e] eqn:E3; [|discriminate]. simpl.
      intros H; injection H as <-.
      assert (Ha3 : active_ok g3).
      { apply (active_ok_update g2 g3 (p_team (player_at g t)) t Ha2); try lia.
        - apply Hr2.
        - now apply roster_team_nonneg.
        - exact E3. }
      apply (active_ok_same g3); [reflexivity|apply untouched_set_ball|exact Ha3].
    + intros H; injection H as <-. exact Ha.
Qed.

Lemma Ball_acquire_loop_well_formed (g g' : Game) (ts : list nat) :
  well_formed g -> Forall (fun t => (t < length (players g))%nat) ts ->
  Ball_acquire_loop g ts = Ok g' -> well_formed g'.
Proof.
  revert g; induction ts as [|t ts IH]; simpl; intros g Hw Hts H.
  - now injection H as <-.
  - destruct (Ball_acquire_step g t) as [g1|e] eqn:E; [|discriminate]. simpl in H.
    inversion Hts as [|? ? Ht Hts']; subst.
    apply (IH g1); [now apply (Ball_acquire_step_well_formed g g1 t)| |exact H].
    destruct (untouched_roster _ _ (Ball_acquire_step_untouched g g1 t E)) as (Hl & _).
    rewrite Hl. exact Hts'.
Qed.

Lemma seq_bound (n : nat) : Forall (fun t => (t < n)%nat) (seq 0 n).
Proof. apply Forall_forall. intros t Ht. apply in_seq in Ht. lia. Qed.

Lemma In_all_refs_player (g : Game) (i : nat) :
  In (RPlayer i) (all_refs g) -> (i < length (players g))%nat.
Proof.
  unfold all_refs. intros H. apply in_app_or in H. destruct H as [H|H].
  - apply in_map_iff in H. destruct H as (j & Hj & Hin). injection Hj as ->.
    apply in_seq in Hin. lia.
  - apply in_map_iff in H. destruct H as (j & Hj & _). discriminate.
Qed.

(** The kick hands the control to the target, a player of the team of the
    owner. *)
Lemma Ball_kick_well_formed (L : Library) (g g' : Game) (o : nat) (team : Team)
      (target : option Ref) :
  well_formed g -> (o < length (players g))%nat ->
  match target with
  | Some (RPlayer i) =>
      (i < length (players g))%nat /\ p_team (player_at g i) = p_team (player_at g o)
  | _ => True
  end ->
  Ball_kick L g o team target = Ok g' -> well_formed g'.
Proof.
  intros (Hr & Ho & Ha) Hlo Htarget E.
  pose proof (Ball_kick_untouched L g g' o team target E) as Hu.
  split; [now apply (roster_ok_untouched g)|]. split.
  - revert E. unfold Ball_kick.
    destruct (match target with Some _ => _ | None => _ end) as [[vec tg]|e]; [|discriminate].
    simpl. destruct (match tg with RPlayer _ => _ | RGoal _ => _ end) as [g2|e];
      [|discriminate].
    simpl. intros H; injection H as <-. exact I.
  - revert E. unfold Ball_kick.
    destruct (match target with Some _ => _ | None => _ end) as [[vec tg]|e] eqn:Etg;
      [|discriminate].
    assert (Htg : match tg with
                  | RPlayer i => (i < length (players g))%nat
                                 /\ p_team (player_at g i) = p_team (player_at g o)
                  | RGoal _ => True
                  end).
    { destruct target as [t|].
      - injection Etg as _ <-. destruct t; [exact Htarget|exact I].
      - destruct (min_by _ _) as [i|e] eqn:Em; [|discriminate]. simpl in Etg.
        injection Etg as _ <-. apply min_by_In in Em. apply filter_In in Em.
        destruct Em as [Hin Ht]. apply in_seq in Hin. apply Z.eqb_eq in Ht.
        split; [lia|exact Ht]. }
    simpl. destruct (match tg with RPlayer _ => _ | RGoal _ => _ end) as [g2|e] eqn:E2;
      [|discriminate].
    simpl. intros H; injection H as <-.
    assert (Ha2 : active_ok g2).
    { destruct tg as [i|j].
      - destruct Htg as [Hi Hti].
        apply (active_ok_update g g2 (p_team (player_at g o)) i Ha Hi Hti); [|exact E2].
        now apply roster_team_nonneg.
      - now injection E2 as <-. }
    assert (Hu2 : untouched g2 (set_player_timer g2 o 10)) by apply untouched_timer.
    apply (active_ok_same (set_player_timer g2 o 10));
      [reflexivity|apply untouched_set_ball|].
    apply (active_ok_same g2); [reflexivity|exact Hu2|exact Ha2].
Qed.

Lemma Ball_shoot_well_formed (L : Library) (g g' : Game) :
  well_formed g -> Ball_shoot L g = Ok g' -> well_formed g'.
Proof.
  intros Hw. pose proof Hw as (Hr & Ho & Ha). unfold Ball_shoot.
  unfold owner_ok in Ho. destruct (b_owner (ball g)) as [o|] eqn:Eo.
  - destruct (Py.index _ _) as [team|e]; [|discriminate]. simpl.
    destruct (shoot_target L g (player_at g o)) as [target|e] eqn:Et; [|discriminate].
    simpl.
    destruct (do_shoot L _ team (player_at g o) target) as [[shoot g1]|e] eqn:Ed;
      [|discriminate].
    simpl. apply do_shoot_note_untouched in Ed. destruct Ed as (Hu & Hts & Hps & Hb).
    assert (Hw1 : well_formed g1).
    { split; [now apply (roster_ok_untouched g)|]. split.
      - unfold owner_ok. rewrite Hb, Eo, Hps. exact Ho.
      - now apply (active_ok_same g). }
    destruct shoot.
    + apply Ball_kick_well_formed; [exact Hw1|now rewrite Hps|].
      destruct target as [[i|j]|]; try exact I.
      apply shoot_target_targetable in Et. destruct Et as (Hin & Hteam & _).
      apply In_all_refs_player in Hin. simpl in Hteam.
      unfold player_at. rewrite Hps. split; assumption.
    + intros H; injection H as <-. exact Hw1.
  - intros H; injection H as <-. exact Hw.
Qed.

(** X2.  [Ball.update] keeps the references of the game valid.  If there
    are two teams, every player is on team 0 or 1, the owner of the ball is
    a player of the roster and the player that each team controls is a
    player of that team, then the same holds after [Ball.update]: whoever
    acquires the ball or is the target of a kick, the control of a team
    never goes to a player of the other team. *)
Theorem Ball_update_well_formed (L : Library) (g g' : Game) :
  well_formed g -> Ball_update L g = Ok g' -> well_formed g'.
Proof.
  intros Hw. unfold Ball_update, Ball_acquire.
  assert (Hw0 : well_formed (Ball_tick_timer g)).
  { destruct Hw as (Hr & Ho & Ha). split; [|split].
    - apply (roster_ok_untouched g); [apply untouched_set_ball|exact Hr].
    - exact Ho.
    - apply (active_ok_same g); [reflexivity|apply untouched_set_ball|exact Ha]. }
  pose proof (Ball_move_well_formed L _ Hw0) as Hw1.
  set (g1 := Ball_move L (Ball_tick_timer g)) in *.
  destruct (Ball_acquire_loop g1 _) as [g2|e] eqn:E2; [|discriminate]. simpl.
  apply Ball_shoot_well_formed.
  apply (Ball_acquire_loop_well_formed g1 g2 _ Hw1 (seq_bound _) E2).
Qed.

Lemma Ball_update_well_formed_witness :
  well_formed Ex.caught_and_kicked
  /\ exists g', Ball_update ref_lib Ex.caught_and_kicked = Ok g' /\ well_formed g'.
Proof.
  split; [apply well_formedb_sound; vm_compute; reflexivity|].
  eexists. split; [vm_compute; reflexivity|].
  apply (Ball_update_well_formed ref_lib Ex.caught_and_kicked).
  - apply well_formedb_sound. vm_compute. reflexivity.
  - vm_compute. reflexivity.
Defined.

(** ** The roster after a reset *)

(** [Game.reset] gives each team its first player to control, and leaves
    the difficulty alone. *)
Lemma Game_reset_controlled (jitter : nat -> Z) (g g' : Game) (t0 t1 : Team) :
  teams g = [t0; t1] ->
  Game_reset jitter g = Ok g' ->
  teams g' = [Team_set_active (Some 0%nat) t0; Team_set_active (Some 1%nat) t1]
  /\ difficulty g' = difficulty g.
Proof.
  intros Ht. unfold Game_reset.
  destruct (Py.index _ 0) as [p0|e]; [|discriminate]. cbn [Py.bind].
  rewrite (update_team_first _ t0 t1) by exact Ht. cbn [Py.bind].
  destruct (Py.index _ 1) as [p1|e]; [|discriminate]. cbn [Py.bind].
  rewrite (update_team_second _ (Team_set_active (Some 0%nat) t0) t1) by reflexivity.
  cbn [Py.bind].
  destruct (Py.index _ _) as [p2|e]; [|discriminate]. cbn [Py.bind].
  intros H; injection H as <-. split; reflexivity.
Qed.

Lemma formation_teams (jitter : nat -> Z) :
  map p_team (formation jitter) = [0; 1; 0; 1; 0; 1; 0; 1; 0; 1; 0; 1; 0; 1]
  /\ map p_peer (formation jitter) = [13; 12; 11; 10; 9; 8; 7; 6; 5; 4; 3; 2; 1; 0]%nat.
Proof. split; reflexivity. Qed.

Lemma Game_reset_roster (jitter : nat -> Z) (g g' : Game) :
  length (teams g) = 2%nat ->
  Game_reset jitter g = Ok g' ->
  (exists t0 t1, teams g' = [Team_set_active (Some 0%nat) t0; Team_set_active (Some 1%nat) t1])
  /\ map p_team (players g') = [0; 1; 0; 1; 0; 1; 0; 1; 0; 1; 0; 1; 0; 1]
  /\ map p_peer (players g') = [13; 12; 11; 10; 9; 8; 7; 6; 5; 4; 3; 2; 1; 0]%nat
  /\ b_owner (ball g') = None.
Proof.
  intros Hlen E. destruct (two_teams g Hlen) as (t0 & t1 & Ht).
  destruct (Game_reset_controlled jitter g g' t0 t1 Ht E) as [Hteams _].
  destruct (Game_reset_spec jitter g Hlen) as (g1 & E1 & Hp & Hb & _).
  rewrite E in E1. injection E1 as <-.
  destruct (formation_teams jitter) as [Ft Fp].
  split; [now exists t0, t1|]. rewrite Hp, Hb.
  rewrite !map_update_nth by reflexivity. now repeat split.
Qed.

Lemma Game_reset_teams (jitter : nat -> Z) (g g' : Game) (i : nat) :
  length (teams g) = 2%nat ->
  Game_reset jitter g = Ok g' ->
  (i < 14)%nat ->
  p_team (player_at g' i) = Z.of_nat (i mod 2) /\ p_peer (player_at g' i) = (13 - i)%nat.
Proof.
  intros Hlen E Hi.
  destruct (Game_reset_roster jitter g g' Hlen E) as (_ & Hp & Hq & _).
  unfold player_at. rewrite (nth_map_default p_team), (nth_map_default p_peer), Hp, Hq.
  do 14 (destruct i as [|i]; [split; reflexivity|]). lia.
Qed.

Lemma Game_reset_invariant (jitter : nat -> Z) (g g' : Game) :
  length (teams g) = 2%nat -> Game_reset jitter g = Ok g' -> well_formed g'.
Proof.
  intros Hlen E.
  destruct (Game_reset_roster jitter g g' Hlen E) as ((t0 & t1 & Ht) & Hp & Hq & Ho).
  assert (Hl : length (players g') = 14%nat).
  { rewrite <- (length_map p_team), Hp. reflexivity. }
  split; [|split].
  - split; [now rewrite Ht|]. rewrite Hl. intros i Hi.
    destruct (Game_reset_teams jitter g g' i Hlen E Hi) as [-> _].
    assert (H : (i mod 2 < 2)%nat) by (apply Nat.mod_upper_bound; lia). lia.
  - unfold owner_ok. now rewrite Ho.
  - intros t team a Hn Ha. rewrite Ht in Hn. rewrite Hl.
    destruct t as [|[|t]]; simpl in Hn.
    + injection Hn as <-. simpl in Ha. injection Ha as <-.
      split; [lia|]. now destruct (Game_reset_teams jitter g g' 0 Hlen E) as [-> _]; [lia|].
    + injection Hn as <-. simpl in Ha. injection Ha as <-.
      split; [lia|]. now destruct (Game_reset_teams jitter g g' 1 Hlen E) as [-> _]; [lia|].
    + destruct t; discriminate.
Qed.

(** X3.  [Game.reset] establishes the validity of the references, whatever
    the random offsets: the roster has 14 players, on team 0 at the even
    indices and on team 1 at the odd ones; the peer of player [i] is player
    [13 - i], who is on the other team; the ball has no owner, and each team
    controls its first player. *)
Theorem Game_reset_well_formed (jitter : nat -> Z) (g g' : Game) :
  length (teams g) = 2%nat ->
  Game_reset jitter g = Ok g' ->
  well_formed g'
  /\ length (players g') = 14%nat
  /\ forall i, (i < 14)%nat ->
       p_team (player_at g' i) = Z.of_nat (i mod 2)
       /\ p_peer (player_at g' i) = (13 - i)%nat
       /\ p_team (player_at g' (p_peer (player_at g' i))) = 1 - p_team (player_at g' i).
Proof.
  intros Hlen E. split; [now apply (Game_reset_invariant jitter g)|]. split.
  - destruct (Game_reset_roster jitter g g' Hlen E) as (_ & Hp & _).
    rewrite <- (length_map p_team), Hp. reflexivity.
  - intros i Hi. destruct (Game_reset_teams jitter g g' i Hlen E Hi) as [Ht Hp].
    split; [exact Ht|]. split; [exact Hp|]. rewrite Hp, Ht.
    destruct (Game_reset_teams jitter g g' (13 - i) Hlen E) as [-> _]; [lia|].
    do 14 (destruct i as [|i]; [reflexivity|]). lia.
Qed.

Lemma Game_reset_well_formed_witness :
  exists g',
    Game_reset Ex.no_jitter Ex.cpu_match = Ok g'
    /\ well_formed g' /\ length (players g') = 14%nat.
Proof.
  eexists. split; [vm_compute; reflexivity|].
  refine (let H := Game_reset_well_formed Ex.no_jitter Ex.cpu_match _ eq_refl _ in
          conj (proj1 H) (proj1 (proj2 H))).
  vm_compute. reflexivity.
Defined.

(** ** The hold-off of the ball *)

Lemma untouched_all_cpu (g g' : Game) : untouched g g' -> all_cpu g -> all_cpu g'.
Proof.
  intros (_ & _ & _ & _ & _ & Hc & _). unfold all_cpu.
  rewrite <- !(Forall_map controls (fun c => c = None)). now rewrite Hc.
Qed.

Lemma Ball_move_ball_timer (L : Library) (g : Game) :
  b_timer (ball (Ball_move L g)) = b_timer (ball g).
Proof.
  unfold Ball_move. destruct (b_owner (ball g)) as [o|].
  - destruct (on_pitch L _ _); reflexivity.
  - unfold Ball_roll. simpl.
    repeat match goal with |- context [ball_physics ?a ?c ?d] =>
      destruct (ball_physics a c d) end. reflexivity.
Qed.

Lemma Ball_acquire_step_ball_timer (g g' : Game) (t : nat) :
  Ball_acquire_step g t = Ok g' ->
  b_timer (ball g') = b_timer (ball g) \/ b_timer (ball g') = holdoff_timer (difficulty g).
Proof.
  unfold Ball_acquire_step. destruct (can_acquire g (player_at g t)).
  - set (g1 := match b_owner (ball g) with
               | Some o => set_player_timer g o 60
               | None => g
               end).
    assert (H1 : difficulty g1 = difficulty g) by (unfold g1; now destruct (b_owner (ball g))).
    destruct (update_team _ _ _) as [g2|e] eqn:E2; [|discriminate]. simpl.
    intros H; injection H as <-. apply update_team_frame in E2.
    destruct E2 as (_ & Hb & _). simpl. rewrite Hb. simpl. right. now rewrite H1.
  - intros H; injection H as <-. now left.
Qed.

Lemma Ball_acquire_loop_ball_timer (g g' : Game) (ts : list nat) :
  0 < b_timer (ball g) -> 0 < holdoff_timer (difficulty g) ->
  Ball_acquire_loop g ts = Ok g' -> 0 < b_timer (ball g').
Proof.
  revert g; induction ts as [|t ts IH]; simpl; intros g Hb Hh H.
  - now injection H as <-.
  - destruct (Ball_acquire_step g t) as [g1|e] eqn:E; [|discriminate]. simpl in H.
    apply (IH g1); [| |exact H].
    + destruct (Ball_acquire_step_ball_timer g g1 t E) as [-> | ->]; assumption.
    + destruct (Ball_acquire_step_untouched g g1 t E) as (_ & _ & -> & _). exact Hh.
Qed.

(** X4.  A computer-controlled team never kicks while the hold-off timer of
    the ball runs.  When no team is human, the timer of the ball is above 1
    (so that it is still positive once [Ball.update] has taken one off) and
    the hold-off time of the difficulty is positive, [Ball.update] ends with
    the search for a player that acquires the ball: the decision to kick is
    negative, whoever owns the ball and whatever the targets and their
    costs, and the state that [Ball.update] leaves is the state after the
    search, in which an owner's nearest target, if there is one, has been
    noted for the debug display. *)
Theorem cpu_keeps_ball_during_holdoff (L : Library) (g g' : Game) :
  all_cpu g ->
  1 < b_timer (ball g) ->
  0 < holdoff_timer (difficulty g) ->
  Ball_update L g = Ok g' ->
  exists g2,
    Ball_acquire (Ball_move L (Ball_tick_timer g)) = Ok g2
    /\ match b_owner (ball g2) with
       | None => g' = g2
       | Some o =>
           exists target,
             shoot_target L g2 (player_at g2 o) = Ok target
             /\ g' = Ball_note_target g2 target
       end.
Proof.
  intros Hcpu Hb Hh. unfold Ball_update, Ball_acquire.
  set (g1 := Ball_move L (Ball_tick_timer g)).
  assert (Hb1 : 0 < b_timer (ball g1)).
  { unfold g1. rewrite Ball_move_ball_timer. simpl. lia. }
  assert (Hu1 : untouched g g1).
  { eapply untouched_trans; [apply (untouched_set_ball g)|apply Ball_move_untouched]. }
  assert (Hh1 : 0 < holdoff_timer (difficulty g1)).
  { destruct Hu1 as (_ & _ & -> & _). exact Hh. }
  destruct (Ball_acquire_loop g1 _) as [g2|e] eqn:E2; [|discriminate]. simpl.
  pose proof (Ball_acquire_loop_ball_timer g1 g2 _ Hb1 Hh1 E2) as Hb2.
  assert (Hcpu2 : all_cpu g2).
  { apply (untouched_all_cpu g1); [now apply Ball_acquire_loop_untouched in E2|].
    now apply (untouched_all_cpu g). }
  intros H. exists g2. split; [reflexivity|]. revert H.
  unfold Ball_shoot. destruct (b_owner (ball g2)) as [o|].
  - destruct (Py.index _ _) as [team|e] eqn:Et; [|discriminate]. simpl.
    destruct (shoot_target L g2 (player_at g2 o)) as [target|e]; [|discriminate]. simpl.
    unfold do_shoot. apply index_In in Et. unfold all_cpu in Hcpu2.
    rewrite Forall_forall in Hcpu2. rewrite (Hcpu2 team Et), cpu_do_shoot_note.
    unfold cpu_do_shoot.
    destruct (b_timer (ball g2) <=? 0) eqn:E; [apply Z.leb_le in E; lia|].
    simpl. intros H; injection H as <-. exists target. now split.
  - intros H; injection H as <-. reflexivity.
Qed.

Lemma cpu_keeps_ball_during_holdoff_witness :
  exists g' g2,
    Ball_update ref_lib Ex.tackle = Ok g'
    /\ Ball_acquire (Ball_move ref_lib (Ball_tick_timer Ex.tackle)) = Ok g2
    /\ match b_owner (ball g2) with
       | None => g' = g2
       | Some o =>
           exists target,
             shoot_target ref_lib g2 (player_at g2 o) = Ok target
             /\ g' = Ball_note_target g2 target
       end.
Proof.
  destruct (cpu_keeps_ball_during_holdoff ref_lib Ex.tackle
              (Ex.get (Ball_update ref_lib Ex.tackle) Ex.empty_game))
    as (g2 & H1 & H2).
  - repeat constructor.
  - reflexivity.
  - reflexivity.
  - vm_compute. reflexivity.
  - eexists. exists g2. split; [vm_compute; reflexivity|]. split; assumption.
Defined.

(** ** The shoot key is read once in a frame *)

Lemma Key_eqb_refl (k : Key) : Key_eqb k k = true.
Proof. now destruct k. Qed.

Lemma key_just_pressed_twice (g : Game) (key : Key) :
  fst (key_just_pressed (snd (key_just_pressed g key)) key) = false.
Proof.
  unfold key_just_pressed. simpl. rewrite Key_eqb_refl.
  now destruct (keyboard g key).
Qed.

(** X5.  [key_just_pressed] reports the rising edges of a key.  Once the
    key has been asked for, asking again in the same frame gives false; and
    in a later frame, whatever other key has been asked for in between, the
    answer is true exactly when the key is down and was not down in the
    frame of the previous call. *)
Theorem key_just_pressed_edge (g : Game) (key other : Key) (kb : Key -> bool) :
  Key_eqb key other = false ->
  let g1 := snd (key_just_pressed g key) in
  let g2 := snd (key_just_pressed g1 other) in
  fst (key_just_pressed g1 key) = false
  /\ fst (key_just_pressed (next_frame g2 kb) key) = negb (keyboard g key) && kb key.
Proof.
  intros Hne. unfold key_just_pressed. simpl. rewrite Key_eqb_refl, Hne.
  split; [now destruct (keyboard g key)|reflexivity].
Qed.

Lemma key_just_pressed_edge_witness :
  Key_eqb SPACE LSHIFT = false
  /\ fst (key_just_pressed (snd (key_just_pressed Ex2.switch_pressed SPACE)) SPACE) = false.
Proof.
  split; [reflexivity|].
  exact (proj1 (key_just_pressed_edge Ex2.switch_pressed SPACE LSHIFT Ex.no_keys eq_refl)).
Defined.

Lemma Game_switch_team_untouched (g g' : Game) (owner : option nat) (team_num : Z) :
  Game_switch_team g owner team_num = Ok g' -> untouched g g'.
Proof.
  unfold Game_switch_team.
  destruct (Py.index (teams g) team_num) as [team|e]; [|discriminate]. cbn [Py.bind].
  destruct (controls team) as [c|].
  - destruct (Controls_shoot c g) as [pressed g1] eqn:Ec.
    assert (Hu : untouched g g1).
    { unfold Controls_shoot in Ec.
      replace g1 with (snd (key_just_pressed g (key_shoot c))) by now rewrite Ec.
      apply untouched_key_just_pressed. }
    destruct pressed.
    + destruct (min_by _ _) as [i|e]; [|discriminate]. cbn [Py.bind].
      intros H. apply untouched_active in H. now apply untouched_trans with g1.
    + intros H; injection H as <-. exact Hu.
  - intros H; injection H as <-. apply untouched_refl.
Qed.

(** X6.  In the frame of a [Ball.update] that leaves the ball to a player
    of a human team, the manual switch of that team does not fire:
    [Ball.update] has asked for the shoot key of the team, so the call of
    [Controls.shoot] at the end of [Game.update] gives false and the team
    keeps the player it controls.  Hence, when a manual switch fires while
    the ball has an owner, the owner is on the other team. *)
Theorem no_switch_for_the_owner (L : Library) (g g' : Game) (o : nat) (team : Team)
        (c : Controls) :
  Ball_update L g = Ok g' ->
  b_owner (ball g') = Some o ->
  Py.index (teams g') (p_team (player_at g' o)) = Ok team ->
  controls team = Some c ->
  fst (Controls_shoot c g') = false
  /\ exists g'',
       Game_switch_team g' (b_owner (ball g')) (p_team (player_at g' o)) = Ok g''
       /\ teams g'' = teams g'.
Proof.
  unfold Ball_update, Ball_acquire.
  set (g1 := Ball_move L (Ball_tick_timer g)).
  destruct (Ball_acquire_loop g1 _) as [g2|e]; [|discriminate]. simpl.
  unfold Ball_shoot. intros H Ho Ht Hc.
  assert (Hpoll : fst (Controls_shoot c g') = false).
  { destruct (b_owner (ball g2)) as [o2|] eqn:Eo2.
    - destruct (Py.index (teams g2) _) as [team2|e] eqn:Et2; [|discriminate]. simpl in H.
      destruct (shoot_target L g2 (player_at g2 o2)) as [target|e]; [|discriminate].
      simpl in H.
      destruct (do_shoot L _ team2 (player_at g2 o2) target) as [[shoot g3]|e] eqn:Ed;
        [|discriminate].
      simpl in H. destruct shoot.
      + unfold Ball_kick in H.
        destruct (match target with Some _ => _ | None => _ end) as [[vec tg]|e];
          [|discriminate].
        simpl in H.
        destruct (match tg with RPlayer _ => _ | RGoal _ => _ end) as [g4|e];
          [|discriminate].
        simpl in H. injection H as <-. discriminate.
      + injection H as <-.
        pose proof (do_shoot_note_untouched L g2 g3 team2 _ _ _ _ Ed) as (_ & Hts & Hps & Hb).
        rewrite Hb, Eo2 in Ho. injection Ho as <-.
        unfold player_at in Ht. rewrite Hts, Hps in Ht. fold (player_at g2 o2) in Ht.
        rewrite Et2 in Ht. injection Ht as <-.
        unfold do_shoot in Ed. rewrite Hc in Ed. injection Ed as Ef <-.
        unfold Controls_shoot. apply key_just_pressed_twice.
    - injection H as <-. congruence. }
  split; [exact Hpoll|]. rewrite Ho.
  unfold Game_switch_team. rewrite Ht. cbn [Py.bind]. rewrite Hc.
  destruct (Controls_shoot c g') as [pressed g3] eqn:Ec. simpl in Hpoll. subst pressed.
  cbv beta iota.
  exists g3. split; [reflexivity|].
  unfold Controls_shoot, key_just_pressed in Ec. injection Ec as _ <-. reflexivity.
Qed.

Lemma no_switch_for_the_owner_witness :
  exists g',
    Ball_update ref_lib Ex2.human_dribble = Ok g'
    /\ b_owner (ball g') = Some 0%nat
    /\ fst (Controls_shoot (Controls_init 0) g') = false.
Proof.
  eexists. split; [vm_compute; reflexivity|]. split; [vm_compute; reflexivity|].
  refine (proj1 (no_switch_for_the_owner ref_lib Ex2.human_dribble _ 0
                   (mkTeam (Some (Controls_init 0)) (Some 0%nat) 0) (Controls_init 0)
                   _ _ _ eq_refl)); vm_compute; reflexivity.
Defined.

Lemma Game_switch_team_well_formed (g g' : Game) (owner : option nat) (team_num : Z) :
  0 <= team_num ->
  well_formed g -> Game_switch_team g owner team_num = Ok g' -> well_formed g'.
Proof.
  intros Hpos Hw E. pose proof (Game_switch_team_untouched g g' owner team_num E) as Hu.
  destruct Hw as (Hr & Ho & Ha).
  destruct (untouched_roster g g' Hu) as (Hl & _ & _).
  split; [now apply (roster_ok_untouched g)|]. split.
  - revert E. unfold Game_switch_team.
    destruct (Py.index (teams g) team_num) as [team|e]; [|discriminate]. cbn [Py.bind].
    assert (Hb : forall g1 i g2, ball g1 = ball g ->
              update_team g1 team_num (Team_set_active (Some i)) = Ok g2 ->
              ball g2 = ball g).
    { intros g1 i g2 H1 H2. apply update_team_frame in H2. destruct H2 as (_ & -> & _).
      exact H1. }
    unfold owner_ok in *. rewrite Hl.
    destruct (controls team) as [c|].
    + unfold Controls_shoot, key_just_pressed.
      destruct (negb _ && _).
      * destruct (min_by _ _) as [i|e]; [|discriminate]. cbn [Py.bind].
        intros H. apply Hb in H; [|reflexivity]. now rewrite H.
      * intros H; injection H as <-. exact Ho.
    + intros H; injection H as <-. exact Ho.
  - revert E. unfold Game_switch_team.
    destruct (Py.index (teams g) team_num) as [team|e]; [|discriminate]. cbn [Py.bind].
    destruct (controls team) as [c|].
    + destruct (Controls_shoot c g) as [pressed g1] eqn:Ec.
      assert (Hg1 : g1 = snd (key_just_pressed g (key_shoot c)))
        by (unfold Controls_shoot in Ec; now rewrite Ec).
      assert (Hu1 : untouched g g1) by (rewrite Hg1; apply untouched_key_just_pressed).
      assert (Ha1 : active_ok g1).
      { apply (active_ok_same g); [rewrite Hg1; reflexivity|exact Hu1|exact Ha]. }
      destruct pressed.
      * destruct (min_by _ _) as [i|e] eqn:Em; [|discriminate]. cbn [Py.bind].
        apply min_by_In in Em. apply filter_In in Em. destruct Em as [Hin Ht].
        apply in_seq in Hin. apply Z.eqb_eq in Ht.
        apply (active_ok_update g1 g' team_num i Ha1); [lia|exact Ht|exact Hpos].
      * intros H; injection H as <-. exact Ha1.
    + intros H; injection H as <-. exact Ha.
Qed.

(** The order of binary64 is strict and transitive, whatever the operands. *)
Lemma SFltb_irrefl (a : spec_float) : SFltb a a = false.
Proof.
  unfold SFltb, SFcompare.
  destruct a as [s|s| |s m e]; try destruct s; try reflexivity;
    rewrite Z.compare_refl, Pos.compare_cont_refl; reflexivity.
Qed.

Lemma SFltb_trans (a b c : spec_float) :
  SFltb a b = true -> SFltb b c = true -> SFltb a c = true.
Proof.
  unfold SFltb, SFcompare.
  destruct a as [sa|sa| |sa ma ea], b as [sb|sb| |sb mb eb], c as [sc|sc| |sc mc ec];
    try destruct sa; try destruct sb; try destruct sc;
    try reflexivity; try discriminate; try (intros _ H; discriminate H).
  all: fold (Pos.compare ma mb) (Pos.compare mb mc) (Pos.compare ma mc).
  all: destruct (Z.compare_spec ea eb), (Z.compare_spec eb ec), (Z.compare_spec ea ec);
    try reflexivity; try discriminate; try (intros _ H; discriminate H); try lia.
  all: destruct (Pos.compare_spec ma mb), (Pos.compare_spec mb mc), (Pos.compare_spec ma mc);
    try reflexivity; try discriminate; try (intros _ H; discriminate H); try lia.
Qed.

Lemma ltb_irrefl (a : float) : (a <? a)%float = false.
Proof. rewrite ltb_spec. apply SFltb_irrefl. Qed.

Lemma ltb_trans (a b c : float) :
  (a <? b)%float = true -> (b <? c)%float = true -> (a <? c)%float = true.
Proof. rewrite !ltb_spec. apply SFltb_trans. Qed.

Lemma ltb_asym (a b : float) : (a <? b)%float = true -> (b <? a)%float = false.
Proof.
  intros H. destruct (b <? a)%float eqn:E; [|reflexivity].
  pose proof (ltb_irrefl a) as Hi. now rewrite (ltb_trans a b a H E) in Hi.
Qed.

Lemma SFltb_not_leb (a b : spec_float) : SFltb a b = true -> SFleb b a = false.
Proof.
  unfold SFltb, SFleb, SFcompare.
  destruct a as [sa|sa| |sa ma ea], b as [sb|sb| |sb mb eb];
    try destruct sa; try destruct sb; try reflexivity; try discriminate.
  all: fold (Pos.compare ma mb) (Pos.compare mb ma).
  all: destruct (Z.compare_spec ea eb), (Z.compare_spec eb ea);
    try reflexivity; try discriminate; try lia.
  all: destruct (Pos.compare_spec ma mb), (Pos.compare_spec mb ma);
    try reflexivity; try discriminate; try lia.
Qed.

Lemma SFleb_ltb_trans (a b c : spec_float) :
  SFleb a b = true -> SFltb b c = true -> SFltb a c = true.
Proof.
  unfold SFltb, SFleb, SFcompare.
  destruct a as [sa|sa| |sa ma ea], b as [sb|sb| |sb mb eb], c as [sc|sc| |sc mc ec];
    try destruct sa; try destruct sb; try destruct sc;
    try reflexivity; try discriminate; try (intros _ H; discriminate H).
  all: fold (Pos.compare ma mb) (Pos.compare mb mc) (Pos.compare ma mc).
  all: destruct (Z.compare_spec ea eb), (Z.compare_spec eb ec), (Z.compare_spec ea ec);
    try reflexivity; try discriminate; try (intros _ H; discriminate H); try lia.
  all: destruct (Pos.compare_spec ma mb), (Pos.compare_spec mb mc), (Pos.compare_spec ma mc);
    try reflexivity; try discriminate; try (intros _ H; discriminate H); try lia.
Qed.

Lemma SFleb_number (a b : spec_float) : SFleb a b = true -> SFleb b b = true.
Proof.
  unfold SFleb, SFcompare.
  destruct a as [sa|sa| |sa ma ea], b as [sb|sb| |sb mb eb];
    try destruct sa; try destruct sb; try reflexivity; try discriminate.
  all: intros _; rewrite Z.compare_refl, Pos.compare_cont_refl; reflexivity.
Qed.

(** A float that bounds another is a number. *)
Lemma leb_number (a b : float) : (a <=? b)%float = true -> (b <=? b)%float = true.
Proof. rewrite !leb_spec. apply SFleb_number. Qed.

Lemma ltb_not_leb (a b : float) : (a <? b)%float = true -> (b <=? a)%float = false.
Proof. rewrite ltb_spec, leb_spec. apply SFltb_not_leb. Qed.

Lemma leb_ltb_trans (a b c : float) :
  (a <=? b)%float = true -> (b <? c)%float = true -> (a <? c)%float = true.
Proof. rewrite !ltb_spec, leb_spec. apply SFleb_ltb_trans. Qed.

(** The key of the result of [min] is that of the first element, or is
    smaller. *)
Lemma min_by_from_key {A : Type} (key : A -> float) (l : list A) (best : A) :
  let r := min_by_from key best (key best) l in
  r = best \/ (key r <? key best)%float = true.
Proof.
  revert best; induction l as [|a l IH]; intros best; simpl; [now left|].
  destruct (key a <? key best)%float eqn:E.
  - right. destruct (IH a) as [-> | H]; [exact E|].
    now apply ltb_trans with (key a).
  - apply IH.
Qed.

(** [min(l, key=key)] is the first of the elements with the least key: no
    element has a smaller key, and no element before it has a key that is
    smaller or equal. *)
Lemma min_by_from_first {A : Type} (key : A -> float) (l : list A) (best : A) :
  let r := min_by_from key best (key best) l in
  exists l1 l2,
    best :: l = l1 ++ r :: l2
    /\ (forall x, In x l1 -> (key x <=? key r)%float = false)
    /\ (forall x, In x l2 -> (key x <? key r)%float = false).
Proof.
  revert best; induction l as [|a l IH]; intros best; simpl.
  - exists [], []. split; [reflexivity|]. split; intros x [].
  - destruct (key a <? key best)%float eqn:E.
    + destruct (IH a) as (l1 & l2 & Hl & H1 & H2).
      exists (best :: l1), l2. split; [simpl; now rewrite Hl|]. split; [|exact H2].
      intros x [<-|Hx]; [|now apply H1].
      apply ltb_not_leb.
      destruct (min_by_from_key key l a) as [-> | H]; [exact E|].
      now apply ltb_trans with (key a).
    + destruct (IH best) as (l1 & l2 & Hl & H1 & H2).
      destruct l1 as [|b l1].
      * simpl in Hl. injection Hl as Hb Hl. exists [], (a :: l2).
        split; [simpl; now rewrite <- Hb, Hl|]. split; [intros x []|].
        intros x [<-|Hx]; [now rewrite <- Hb|exact (H2 x Hx)].
      * simpl in Hl. injection Hl as Hb Hl. subst b.
        exists (best :: a :: l1), l2. split; [simpl; do 2 f_equal; exact Hl|].
        split; [|exact H2].
        intros x [<-|[<-|Hx]]; [apply H1; now left| |apply H1; now right].
        destruct (key a <=? key (min_by_from key best (key best) l))%float eqn:Ele;
          [|reflexivity].
        exfalso. destruct (min_by_from_key key l best) as [Hr | Hr].
        -- pose proof (H1 best (or_introl eq_refl)) as Hn.
           set (r := min_by_from key best (key best) l) in *. clearbody r. subst best.
           rewrite (leb_number _ _ Ele) in Hn. discriminate Hn.
        -- rewrite (leb_ltb_trans _ _ _ Ele Hr) in E. discriminate E.
Qed.

(** In a selection of consecutive indices, the selected indices below [i]
    come before [i]. *)
Lemma filter_seq_before (f : nat -> bool) (n a : nat) (l1 l2 : list nat) (i j : nat) :
  filter f (seq a n) = l1 ++ i :: l2 ->
  In j (filter f (seq a n)) -> (j < i)%nat -> In j l1.
Proof.
  revert a l1; induction n as [|n IH]; intros a l1; simpl.
  - now destruct l1.
  - destruct (f a) eqn:Ea.
    + destruct l1 as [|x l1]; simpl; intros H; injection H as Hx Hl.
      * subst i. intros [<-|Hj] Hlt; [lia|].
        apply filter_In in Hj. destruct Hj as [Hj _]. apply in_seq in Hj. lia.
      * subst x. intros [<-|Hj] Hlt; [now left|]. right. now apply (IH (S a)).
    + apply IH.
Qed.

(** [min] on the selected indices of a list. *)
Lemma min_by_first (key : nat -> float) (f : nat -> bool) (n i : nat) :
  min_by key (filter f (seq 0 n)) = Ok i ->
  (i < n)%nat /\ f i = true
  /\ (forall j, (j < n)%nat -> f j = true -> (key j <? key i)%float = false)
  /\ (forall j, (j < i)%nat -> f j = true -> (key j <=? key i)%float = false).
Proof.
  intros H. pose proof (min_by_In _ _ _ H) as Hin.
  apply filter_In in Hin. destruct Hin as [Hin Hf]. apply in_seq in Hin.
  split; [lia|]. split; [exact Hf|].
  unfold min_by in H. destruct (filter f (seq 0 n)) as [|b l] eqn:EF; [discriminate|].
  injection H as H.
  destruct (min_by_from_first key l b) as (l1 & l2 & Hl & H1 & H2).
  rewrite H in Hl, H1, H2. rewrite Hl in EF.
  assert (Hmem : forall j, (j < n)%nat -> f j = true -> In j (filter f (seq 0 n))).
  { intros j Hj Hfj. apply filter_In. split; [apply in_seq; lia|exact Hfj]. }
  split.
  - intros j Hj Hfj. pose proof (Hmem j Hj Hfj) as Hm. rewrite EF in Hm.
    apply in_app_or in Hm. destruct Hm as [Hm|[<-|Hm]].
    + destruct (key j <? key i)%float eqn:E; [|reflexivity].
      apply FloatFacts.ltb_leb in E. now rewrite (H1 j Hm) in E.
    + apply ltb_irrefl.
    + now apply H2.
  - intros j Hj Hfj. apply H1.
    apply (filter_seq_before f n 0 l1 l2 i j EF); [|exact Hj].
    apply Hmem; [lia|exact Hfj].
Qed.

Lemma switch_frame_refl (g : Game) : switch_frame g g.
Proof. unfold switch_frame. tauto. Qed.

Lemma switch_frame_trans (g1 g2 g3 : Game) :
  switch_frame g1 g2 -> switch_frame g2 g3 -> switch_frame g1 g3.
Proof.
  unfold switch_frame.
  intros (A1 & A2 & A3 & A4 & A5 & A6 & A7 & A8 & A9 & A10 & A11)
         (B1 & B2 & B3 & B4 & B5 & B6 & B7 & B8 & B9 & B10 & B11).
  repeat split; congruence.
Qed.

Lemma index_nth_error {A : Type} (l : list A) (n : nat) (a : A) :
  Py.index l (Z.of_nat n) = Ok a -> nth_error l n = Some a.
Proof.
  unfold Py.index. cbv zeta.
  assert (E : (Z.of_nat n <? 0) = false) by (apply Z.ltb_ge; lia).
  rewrite E. cbv iota. rewrite E. simpl. rewrite Nat2Z.id.
  destruct (Z.of_nat (length l) <=? Z.of_nat n); [discriminate|].
  destruct (nth_error l n); [|discriminate]. intros H. now injection H as <-.
Qed.

Lemma update_team_nat (g g' : Game) (n : nat) (f : Team -> Team) :
  update_team g (Z.of_nat n) f = Ok g' -> g' = set_teams g (update_nth n f (teams g)).
Proof.
  unfold update_team. destruct (Py.index _ _); [|discriminate]. cbn [Py.bind].
  assert (E : (Z.of_nat n <? 0) = false) by (apply Z.ltb_ge; lia).
  rewrite E, Nat2Z.id. intros H. now injection H as <-.
Qed.

Lemma nth_error_update_nth_at {A : Type} (i : nat) (f : A -> A) (l : list A) (a : A) :
  nth_error l i = Some a -> nth_error (update_nth i f l) i = Some (f a).
Proof.
  revert i; induction l as [|b l IH]; intros [|i]; simpl; try discriminate.
  - intros H. now injection H as <-.
  - apply IH.
Qed.

(** The switch of one team. *)
Lemma Game_switch_team_spec (g g' : Game) (n : nat) :
  Game_switch_team g (b_owner (ball g)) (Z.of_nat n) = Ok g' ->
  switch_frame g g' /\ team_switched g g' n.
Proof.
  unfold Game_switch_team, team_switched.
  destruct (Py.index (teams g) (Z.of_nat n)) as [t|e] eqn:Et; [|discriminate].
  cbn [Py.bind]. apply index_nth_error in Et.
  destruct (controls t) as [c|] eqn:Ec; cbv beta iota.
  - destruct (Controls_shoot c g) as [pressed g1] eqn:Es. cbn [fst snd].
    assert (Hg1 : g1 = set_key_status g (key_status g1)).
    { unfold Controls_shoot, key_just_pressed in Es. now injection Es as _ <-. }
    destruct pressed.
    + destruct (min_by _ _) as [i|e] eqn:Em; [|discriminate]. cbn [Py.bind].
      intros H. apply update_team_nat in H. subst g'.
      rewrite Hg1. cbn [teams set_key_status set_teams].
      split.
      * unfold switch_frame. cbn. repeat split; now apply map_update_nth.
      * exists t. split; [exact Et|]. split.
        { intros m Hm. now apply nth_error_update_nth_neq. }
        rewrite Ec, Es. cbn [fst snd key_status set_teams set_key_status].
        split; [reflexivity|].
        exists i. split; [now apply nth_error_update_nth_at|].
        apply (min_by_first _ (fun i => p_team (player_at g1 i) =? Z.of_nat n)) in Em.
        destruct Em as (Hi & Hti & Hmin & Hfirst).
        rewrite Hg1 in Hi, Hti, Hmin, Hfirst.
        unfold player_at in *. cbn [players set_key_status] in *.
        apply Z.eqb_eq in Hti.
        unfold nearest_of_team, switch_key, player_at.
        split; [exact Hi|]. split; [exact Hti|]. split.
        -- intros j Hj Htj. apply (Hmin j Hj). now apply Z.eqb_eq.
        -- intros j Hj Htj. apply (Hfirst j Hj). now apply Z.eqb_eq.
    + intros H; injection H as <-. rewrite Hg1. split.
      * unfold switch_frame. cbn. tauto.
      * exists t. split; [exact Et|]. split; [reflexivity|]. rewrite Ec, Es.
        split; reflexivity.
  - intros H; injection H as <-. split; [apply switch_frame_refl|].
    exists t. split; [exact Et|]. split; [reflexivity|]. now rewrite Ec.
Qed.

(** With a player on the team, the switch of a team raises no error. *)
Lemma Game_switch_team_total (g : Game) (owner : option nat) (n : nat) :
  (n < length (teams g))%nat ->
  (exists i, (i < length (players g))%nat /\ p_team (player_at g i) = Z.of_nat n) ->
  exists g', Game_switch_team g owner (Z.of_nat n) = Ok g'.
Proof.
  intros Hn (i & Hi & Hti). unfold Game_switch_team.
  destruct (index_ok (teams g) (Z.of_nat n)) as [t Et]; [lia|].
  rewrite Et. cbn [Py.bind].
  destruct (controls t) as [c|]; [|now eexists].
  destruct (Controls_shoot c g) as [pressed g1] eqn:Es.
  assert (Hg1 : g1 = set_key_status g (key_status g1)).
  { unfold Controls_shoot, key_just_pressed in Es. now injection Es as _ <-. }
  destruct pressed; [|now eexists].
  assert (Hin : In i (filter (fun i => p_team (player_at g1 i) =? Z.of_nat n)
                             (seq 0 (length (players g1))))).
  { rewrite Hg1. apply filter_In. split; [apply in_seq; cbn; lia|].
    apply Z.eqb_eq. exact Hti. }
  destruct (filter _ _) as [|b l]; [destruct Hin|].
  cbn [min_by Py.bind]. unfold update_team.
  rewrite Hg1. cbn [teams set_key_status]. rewrite Et. cbn [Py.bind]. now eexists.
Qed.

(** X7.  The manual switch at the end of [Game.update].  In a game whose
    references are valid, the switch raises no error when each team has a
    player, and what it returns has valid references and differs from the
    game by [key_status] and the players that the teams control at most.
    Team 0 is served first, then team 1.  A computer team changes nothing.
    A human team reads its shoot key; when the key has not just been
    pressed every team keeps its player; when it has, the team takes the
    first of its own players with the least weighted distance to the ball,
    the distance being halved for a player on the side of the ball towards
    the team's own goal when the ball has an owner. *)
Theorem Game_switch_spec (g : Game) :
  well_formed g ->
  ((forall n, (n < 2)%nat ->
      exists i, (i < length (players g))%nat /\ p_team (player_at g i) = Z.of_nat n) ->
   exists g', Game_switch g = Ok g')
  /\ forall g', Game_switch g = Ok g' ->
       well_formed g' /\ switch_frame g g'
       /\ exists g1, switch_frame g g1 /\ team_switched g g1 0 /\ team_switched g1 g' 1.
Proof.
  intros Hw. unfold Game_switch. split.
  - intros Hp. destruct Hw as ((Hlen & _) & _).
    destruct (Game_switch_team_total g (b_owner (ball g)) 0) as [g1 E1];
      [lia|apply Hp; lia|].
    change (Z.of_nat 0) with 0 in E1. rewrite E1. cbn [Py.bind].
    destruct (Game_switch_team_spec g g1 0 E1) as [Hf _].
    destruct Hf as (Hps & _ & _ & _ & _ & _ & _ & _ & _ & Hc & _).
    apply (Game_switch_team_total g1 (b_owner (ball g)) 1).
    + rewrite <- (length_map controls), Hc, length_map. lia.
    + unfold player_at. rewrite Hps. apply Hp. lia.
  - intros g'.
    destruct (Game_switch_team g (b_owner (ball g)) 0) as [g1|e] eqn:E1; [|discriminate].
    cbn [Py.bind]. intros E2.
    destruct (Game_switch_team_spec g g1 0 E1) as [Hf1 Hs1].
    assert (Hb : ball g1 = ball g) by apply Hf1.
    rewrite <- Hb in E2.
    destruct (Game_switch_team_spec g1 g' 1 E2) as [Hf2 Hs2].
    rewrite Hb in E2.
    split; [|split].
    + apply (Game_switch_team_well_formed g1 g' (b_owner (ball g)) 1); [lia| |exact E2].
      apply (Game_switch_team_well_formed g g1 (b_owner (ball g)) 0); [lia|exact Hw|exact E1].
    + now apply switch_frame_trans with g1.
    + exists g1. split; [exact Hf1|]. split; [exact Hs1|exact Hs2].
Qed.

Lemma Game_switch_spec_witness :
  exists g',
    Game_switch Ex2.switch_weighted = Ok g'
    /\ well_formed g'
    /\ map active_control_player (teams g') = [Some 6%nat; Some 1%nat]
    /\ switch_key Ex2.switch_weighted 0 6 = 12.5%float.
Proof.
  eexists. split; [vm_compute; reflexivity|]. split; [|split; vm_compute; reflexivity].
  refine (proj1 (proj2 (Game_switch_spec Ex2.switch_weighted _) _ _)).
  - apply well_formedb_sound. vm_compute. reflexivity.
  - vm_compute. reflexivity.
Defined.

(** ** The references at the beginning of a frame *)

Lemma well_formed_roster (g g' : Game) :
  teams g' = teams g -> ball g' = ball g ->
  length (players g') = length (players g) -> same_roster g g' ->
  well_formed g -> well_formed g'.
Proof.
  intros Ht Hb Hl Hr ((Hlen & Hteam) & Ho & Ha). split; [|split].
  - split; [now rewrite Ht|]. intros i Hi. rewrite Hr. apply Hteam. lia.
  - unfold owner_ok in *. rewrite Hb, Hl. exact Ho.
  - intros t team a Hn Hact. rewrite Ht in Hn. destruct (Ha t team a Hn Hact) as [H1 H2].
    split; [lia|]. now rewrite Hr.
Qed.

Lemma well_formed_update_player (g : Game) (i : nat) (f : Player -> Player) :
  (forall p, p_team (f p) = p_team p) ->
  well_formed g -> well_formed (set_players g (update_nth i f (players g))).
Proof.
  intros Hf. apply well_formed_roster; try reflexivity.
  - simpl. apply length_update_nth.
  - intros j. unfold player_at. simpl. now apply (nth_update_nth_field p_team).
Qed.

Lemma Game_reset_roles_well_formed (g : Game) :
  well_formed g -> well_formed (Game_reset_roles g).
Proof.
  apply well_formed_roster; try reflexivity.
  - unfold Game_reset_roles. simpl. apply length_map.
  - intros i. unfold player_at, Game_reset_roles. simpl.
    rewrite !(nth_map_default p_team), map_map. reflexivity.
Qed.

Lemma assign_goalie_well_formed (g g' : Game) (o : nat) :
  well_formed g -> assign_goalie g o = Ok g' -> well_formed g'.
Proof.
  intros Hw. unfold assign_goalie. destruct (goalie_enabled (difficulty g)).
  - destruct (Py.index _ _); [|discriminate]. cbn [Py.bind].
    destruct (min_by _ _) as [nearest|e]; [|discriminate]. cbn [Py.bind].
    intros H; injection H as <-.
    unfold set_player_mark.
    apply (well_formed_update_player (set_players g _)); [reflexivity|].
    apply well_formed_update_player; [reflexivity|exact Hw].
  - destruct (Py.index _ _); [|discriminate]. cbn [Py.bind].
    intros H; now injection H as <-.
Qed.

Lemma Game_assign_roles_well_formed (g g' : Game) :
  well_formed g -> Game_assign_roles g = Ok g' -> well_formed g'.
Proof.
  intros Hw. unfold Game_assign_roles.
  destruct (b_owner (ball g)) as [o|]; [|intros H; now injection H as <-].
  destruct (assign_goalie g o) as [g1|e] eqn:E1; [|discriminate]. cbn [Py.bind].
  apply assign_goalie_well_formed in E1; [|exact Hw].
  destruct (chasers g1 o) as [l|e]; [|discriminate]. cbn [Py.bind].
  destruct (Py.index _ 0) as [first|e]; [|discriminate]. cbn [Py.bind].
  assert (H1 : well_formed (set_player_lead g1 first (Some LEAD_DISTANCE_1)))
    by (apply well_formed_update_player; [reflexivity|exact E1]).
  destruct (second_lead_enabled _).
  - destruct (Py.index _ 1) as [second|e]; [|discriminate]. cbn [Py.bind].
    intros H; injection H as <-.
    apply (well_formed_roster (set_player_lead (set_player_lead g1 first (Some LEAD_DISTANCE_1))
                                               second (Some LEAD_DISTANCE_2)));
      try reflexivity; try (intros j; reflexivity).
    apply well_formed_update_player; [reflexivity|exact H1].
  - cbn [Py.bind]. intros H; injection H as <-.
    apply (well_formed_roster (set_player_lead g1 first (Some LEAD_DISTANCE_1)));
      try reflexivity; try (intros j; reflexivity). exact H1.
Qed.

Lemma Game_update_score_well_formed (jitter : nat -> Z) (g g' : Game) :
  well_formed g -> Game_update_score jitter g = Ok g' -> well_formed g'.
Proof.
  intros Hw. unfold Game_update_score.
  set (g0 := set_score_timer g (score_timer g - 1)).
  assert (Hw0 : well_formed g0)
    by (apply (well_formed_roster g); try reflexivity; try (intros j; reflexivity); exact Hw).
  destruct (score_timer g0 =? 0).
  - intros E. apply (Game_reset_invariant jitter g0 g'); [|exact E].
    destruct Hw as ((Hlen & _) & _). exact Hlen.
  - destruct ((score_timer g0 <? 0) && ball_in_goal (ball g0)).
    + set (g1 := set_scoring_team g0 _).
      assert (Hw1 : well_formed g1)
        by (apply (well_formed_roster g0); try reflexivity; try (intros j; reflexivity);
            exact Hw0).
      unfold update_team. destruct (Py.index _ _) as [t|e]; [|discriminate].
      cbn [Py.bind]. intros H; injection H as <-.
      destruct Hw1 as ((Hlen & Hteam) & Ho & Ha). split; [|split].
      * split; [|exact Hteam]. simpl. rewrite length_update_nth. exact Hlen.
      * exact Ho.
      * intros t' tm a Hn Hact. simpl in Hn.
        apply (nth_error_update_nth_proj active_control_player) in Hn; [|reflexivity].
        destruct Hn as (old & Hold & Heq). rewrite Heq in Hact.
        apply (Ha t' old a Hold Hact).
    + intros H; now injection H as <-.
Qed.

(** X8.  The beginning of [Game.update] (the score timer, the reset after
    a goal, the detection of a goal, the reset and the assignment of the
    roles) keeps the references of the game valid. *)
Theorem Game_update_head_well_formed (jitter : nat -> Z) (g g' : Game) :
  well_formed g -> Game_update_head jitter g = Ok g' -> well_formed g'.
Proof.
  intros Hw. unfold Game_update_head.
  destruct (Game_update_score jitter g) as [g1|e] eqn:E1; [|discriminate]. cbn [Py.bind].
  apply Game_assign_roles_well_formed, Game_reset_roles_well_formed.
  now apply (Game_update_score_well_formed jitter g).
Qed.

Lemma Game_update_head_well_formed_witness :
  exists g', Game_update_head Ex.no_jitter Ex.tackle = Ok g' /\ well_formed g'.
Proof.
  eexists. split; [vm_compute; reflexivity|].
  apply (Game_update_head_well_formed Ex.no_jitter Ex.tackle).
  - apply well_formedb_sound. vm_compute. reflexivity.
  - vm_compute. reflexivity.
Defined.

(** ** The lead players *)

Lemma interleave_length (a b : list nat) :
  (2 <= length a + length b -> 2 <= length (interleave a b))%nat
  /\ (1 <= length a + length b -> 1 <= length (interleave a b))%nat.
Proof.
  destruct a as [|x [|y a]], b as [|u [|v b]]; simpl; lia.
Qed.

Lemma interleave_short (a b : list nat) :
  (length a + length b < 2)%nat ->
  interleave a b = a ++ b.
Proof.
  destruct a as [|x [|y a]], b as [|u [|v b]]; simpl; try lia; reflexivity.
Qed.

(** The elements of [l] that are not in [filter f l] are those that [f]
    rejects. *)
Lemma partition_not_in (f : nat -> bool) (l : list nat) :
  filter (fun i => negb (existsb (Nat.eqb i) (filter f l))) l
  = filter (fun i => negb (f i)) l.
Proof.
  apply filter_ext_in. intros i Hi. f_equal.
  destruct (f i) eqn:Ef.
  - apply existsb_exists. exists i. split; [|apply Nat.eqb_refl].
    apply filter_In. now split.
  - destruct (existsb _ _) eqn:Ee; [|reflexivity].
    apply existsb_exists in Ee. destruct Ee as (x & Hx & Hix).
    apply Nat.eqb_eq in Hix. subst x. apply filter_In in Hx. destruct Hx. congruence.
Qed.

Lemma assign_goalie_difficulty (g g1 : Game) (o : nat) :
  assign_goalie g o = Ok g1 -> difficulty g1 = difficulty g.
Proof.
  unfold assign_goalie. destruct (goalie_enabled (difficulty g)).
  - destruct (Py.index _ _); [|discriminate]. simpl.
    destruct (min_by _ _); [|discriminate]. simpl.
    intros H; injection H as <-. reflexivity.
  - destruct (Py.index _ _); [|discriminate]. simpl.
    intros H; now injection H as <-.
Qed.

(** X9.  The assignment of the lead players succeeds exactly when there
    are enough candidates.  With [l] the opponents of the owner that may
    chase it, the role assignment of [Game.update] goes through when [l]
    has at least as many players as the difficulty asks leads for (two with
    [second_lead_enabled], one without), and raises [IndexError] when it has
    fewer: the padding of the two halves of [l] with two [None] each does
    not make up for missing candidates. *)
Theorem leads_need_chasers (g g1 : Game) (o : nat) (l : list nat) :
  b_owner (ball g) = Some o ->
  assign_goalie g o = Ok g1 ->
  chasers g1 o = Ok l ->
  ((leads_needed g <= length l)%nat -> exists g', Game_assign_roles g = Ok g')
  /\ ((length l < leads_needed g)%nat -> Game_assign_roles g = Raise IndexError).
Proof.
  intros Ho Hg Hl. unfold Game_assign_roles. rewrite Ho, Hg. cbn [Py.bind].
  rewrite Hl. cbn [Py.bind].
  set (upfield := fun i : nat =>
         if p_team (player_at g o) =? 0
         then (vy (p_vpos (player_at g o)) <? vy (p_vpos (player_at g1 i)))%float
         else (vy (p_vpos (player_at g1 i)) <? vy (p_vpos (player_at g o)))%float).
  rewrite (partition_not_in upfield l).
  set (a := filter upfield l). set (b := filter (fun i => negb (upfield i)) l).
  assert (Hab : (length a + length b = length l)%nat) by apply filter_length.
  pose proof (assign_goalie_difficulty g g1 o Hg) as Hd.
  unfold leads_needed. destruct (second_lead_enabled (difficulty g)) eqn:Es; split.
  - intros Hn. destruct (interleave_length a b) as [H2 _].
    destruct (index_ok (interleave a b) 0) as [first E0]; [lia|].
    destruct (index_ok (interleave a b) 1) as [second E1]; [lia|].
    rewrite E0. cbn [Py.bind]. change (difficulty (set_player_lead g1 first _))
      with (difficulty g1). rewrite Hd, Es, E1. cbn [Py.bind]. now eexists.
  - intros Hn.
    assert (Hshort : (length a + length b < 2)%nat) by lia.
    rewrite (interleave_short a b Hshort).
    destruct a as [|x [|y a']], b as [|u [|v b']]; simpl in Hshort; try lia.
    + reflexivity.
    + cbn. now rewrite Hd, Es.
    + cbn. now rewrite Hd, Es.
  - intros Hn. destruct (interleave_length a b) as [_ H1].
    destruct (index_ok (interleave a b) 0) as [first E0]; [lia|].
    rewrite E0. cbn [Py.bind]. change (difficulty (set_player_lead g1 first _))
      with (difficulty g1). rewrite Hd, Es. cbn [Py.bind]. now eexists.
  - intros Hn. assert (Hshort : (length a + length b < 2)%nat) by lia.
    rewrite (interleave_short a b Hshort).
    destruct a as [|x a'], b as [|u b']; simpl in Hab, Hshort; try lia.
    reflexivity.
Qed.

Lemma leads_need_chasers_witness :
  exists g1 l,
    assign_goalie Ex2.one_chaser 0 = Ok g1
    /\ chasers g1 0 = Ok l
    /\ (length l < leads_needed Ex2.one_chaser)%nat
    /\ Game_assign_roles Ex2.one_chaser = Raise IndexError.
Proof.
  exists Ex2.one_chaser, [5%nat].
  split; [vm_compute; reflexivity|]. split; [vm_compute; reflexivity|].
  split; [vm_compute; lia|].
  refine (proj2 (leads_need_chasers Ex2.one_chaser Ex2.one_chaser 0 [5%nat] eq_refl _ _) _).
  - vm_compute. reflexivity.
  - vm_compute. reflexivity.
  - vm_compute. lia.
Defined.

(** ** First to nine *)

Lemma Game_reset_scores (jitter : nat -> Z) (g g' : Game) :
  Game_reset jitter g = Ok g' -> same_score_state g g'.
Proof.
  unfold Game_reset.
  destruct (Py.index _ 0) as [p0|e]; [|discriminate]. cbn [Py.bind].
  destruct (update_team _ 0 _) as [g1|e] eqn:E1; [|discriminate]. cbn [Py.bind].
  destruct (Py.index _ 1) as [p1|e]; [|discriminate]. cbn [Py.bind].
  destruct (update_team g1 1 _) as [g2|e] eqn:E2; [|discriminate]. cbn [Py.bind].
  destruct (Py.index _ _) as [p2|e]; [|discriminate]. cbn [Py.bind].
  intros H; injection H as <-.
  apply untouched_active in E1, E2.
  destruct E1 as (_ & _ & _ & _ & _ & _ & A1 & B1 & C1).
  destruct E2 as (_ & _ & _ & _ & _ & _ & A2 & B2 & C2).
  simpl in *. unfold same_score_state. simpl.
  repeat split; congruence.
Qed.

Lemma fold_max_ge (l : list Z) (x : Z) :
  x <= fold_left (fun m y => if m <? y then y else m) l x
  /\ Forall (fun s => s <= fold_left (fun m y => if m <? y then y else m) l x) l.
Proof.
  revert x; induction l as [|a l IH]; intros x; simpl.
  - split; [lia|constructor].
  - destruct (IH (if x <? a then a else x)) as [H1 H2].
    destruct (Z.ltb_spec x a); split; try lia; constructor; try lia; exact H2.
Qed.

Lemma fold_max_In (l : list Z) (x : Z) :
  In (fold_left (fun m y => if m <? y then y else m) l x) (x :: l).
Proof.
  revert x; induction l as [|a l IH]; intros x; simpl.
  - now left.
  - destruct (IH (if x <? a then a else x)) as [H|H].
    + destruct (x <? a); [right; left|left]; exact H.
    + right. right. exact H.
Qed.

(** [max(l)] is an element of [l] that no element exceeds. *)
Lemma py_max_list_spec (l : list Z) (m : Z) :
  py_max_list l = Ok m -> Forall (fun s => s <= m) l /\ In m l.
Proof.
  destruct l as [|x l]; [discriminate|]. unfold py_max_list. intros H; injection H as <-.
  destruct (fold_max_ge l x) as [H1 H2]. split; [now constructor|apply fold_max_In].
Qed.

(** While the match goes on, a score of 9 leaves at least two frames on
    the score timer. *)
Lemma not_over_timer (g : Game) :
  scores_bounded g -> match_over g = Ok false ->
  Exists (fun s => s = 9) (map score (teams g)) -> 2 <= score_timer g <= 60.
Proof.
  intros [Hle Hnine] Hover Hex. specialize (Hnine Hex).
  unfold match_over in Hover.
  destruct (py_max_list _) as [m|e] eqn:Em; [|discriminate]. cbn [Py.bind] in Hover.
  injection Hover as Hover. apply py_max_list_spec in Em. destruct Em as [Hmax Hin].
  assert (Hm : m = 9).
  { apply Exists_exists in Hex. destruct Hex as (s & Hs & ->).
    rewrite Forall_forall in Hmax, Hle.
    specialize (Hmax 9 Hs). specialize (Hle m Hin). simpl in Hle. lia. }
  subst m. rewrite Z.eqb_refl in Hover. cbn [andb] in Hover.
  apply Z.eqb_neq in Hover. lia.
Qed.

Lemma Forall_update_nth {A : Type} (P : A -> Prop) (i : nat) (f : A -> A) (l : list A) :
  Forall P l -> (forall a, In a l -> P a -> P (f a)) -> Forall P (update_nth i f l).
Proof.
  revert i; induction l as [|a l IH]; intros i Hl Hf; [destruct i; constructor|].
  inversion Hl; subst. destruct i; simpl.
  - constructor; [apply Hf; [now left|assumption]|assumption].
  - constructor; [assumption|]. apply IH; [assumption|].
    intros b Hb. apply Hf. now right.
Qed.

Lemma scores_bounded_same (g g' : Game) :
  same_score_state g g' -> scores_bounded g -> scores_bounded g'.
Proof.
  intros (Ht & _ & Hs) H. unfold scores_bounded in *. now rewrite Hs, Ht.
Qed.

Lemma map_score_update_nth (i : nat) (l : list Team) :
  map score (update_nth i (fun t => Team_set_score (score t + 1) t) l)
  = update_nth i (fun s => s + 1) (map score l).
Proof.
  revert i; induction l as [|a l IH]; intros [|i]; simpl; try reflexivity.
  now rewrite IH.
Qed.

Lemma Game_update_score_bounded (jitter : nat -> Z) (g g' : Game) :
  scores_bounded g -> match_over g = Ok false ->
  Game_update_score jitter g = Ok g' -> scores_bounded g'.
Proof.
  intros Hb Hover. pose proof (not_over_timer g Hb Hover) as Hnine.
  destruct Hb as [Hle Hb9].
  unfold Game_update_score.
  change (score_timer (set_score_timer g (score_timer g - 1))) with (score_timer g - 1).
  destruct (Z.eqb_spec (score_timer g - 1) 0) as [E0|E0].
  - intros H. apply Game_reset_scores in H.
    apply (scores_bounded_same (set_score_timer g (score_timer g - 1))); [exact H|].
    split; [exact Hle|]. simpl. intros Hex. specialize (Hnine Hex). lia.
  - destruct (Z.ltb_spec (score_timer g - 1) 0) as [Elt|Ege]; cbn [andb].
    + destruct (ball_in_goal _).
      * set (g1 := set_scoring_team _ _).
        unfold update_team.
        destruct (Py.index (teams g1) (scoring_team g1)) as [t|e]; [|discriminate].
        cbn [Py.bind]. intros H; injection H as <-.
        assert (H8 : Forall (fun s => s <= 8) (map score (teams g))).
        { apply Forall_forall. intros s Hs. rewrite Forall_forall in Hle.
          specialize (Hle s Hs). simpl in Hle.
          destruct (Z.eq_dec s 9) as [->|Hne]; [|lia].
          assert (Hex : Exists (fun s => s = 9) (map score (teams g)))
            by (apply Exists_exists; now exists 9).
          specialize (Hnine Hex). lia. }
        split; simpl; [|lia].
        rewrite map_score_update_nth. apply Forall_update_nth.
        -- exact Hle.
        -- intros s Hs _. rewrite Forall_forall in H8. specialize (H8 s Hs).
           simpl in H8. lia.
      * intros H; injection H as <-. split; [exact Hle|]. simpl.
        intros Hex. specialize (Hnine Hex). lia.
    + intros H; injection H as <-. split; [exact Hle|]. simpl.
      intros Hex. specialize (Hnine Hex). lia.
Qed.

(** X10.  First to nine: while the program is in its play state, no score
    exceeds 9.  If no score is above 9, and a score of 9 occurs only with a
    score timer between 1 and 60, then the same holds after any number of
    frames of the play branch of [update()]: in the frame in which a ninth
    goal is scored the score timer is set to 60, no goal is counted while
    it runs, and when it is down to 1 the play branch leaves the play state
    instead of calling [game.update()]. *)
Theorem first_to_nine (jitter : nat -> Z) (n : nat) (g g' : Game) :
  scores_bounded g -> play jitter n g g' -> scores_bounded g'.
Proof.
  intros Hb Hp.
  induction Hp as [g|n g g1 g2 g3 Hp IH Hover Hu Hs]; [exact Hb|].
  apply (scores_bounded_same g2 g3 Hs).
  apply (Game_update_score_bounded jitter g1 g2 (IH Hb) Hover Hu).
Qed.

Lemma first_to_nine_witness :
  scores_bounded (Ex.get (Game_update_score Ex.no_jitter Ex.in_net) Ex.empty_game).
Proof.
  apply (first_to_nine Ex.no_jitter 1 Ex.in_net).
  - split.
    + repeat constructor; discriminate.
    + intros H. exfalso.
      inversion H as [? ? Ha|? ? Hb]; [discriminate Ha|].
      inversion Hb as [? ? Hc|? ? Hd]; [discriminate Hc|inversion Hd].
  - apply (play_S Ex.no_jitter 0 Ex.in_net Ex.in_net
             (Ex.get (Game_update_score Ex.no_jitter Ex.in_net) Ex.empty_game)
             (Ex.get (Game_update_score Ex.no_jitter Ex.in_net) Ex.empty_game)).
    + apply play_O.
    + vm_compute. reflexivity.
    + vm_compute. reflexivity.
    + repeat split.
Defined.

(** ** The menu *)

Lemma new_game_ok (jitter : nat -> Z) (old : Game) (p1 p2 : option Controls) (d : Z) :
  0 <= d <= 2 ->
  exists g dif,
    new_game jitter old p1 p2 d = Ok g
    /\ Py.index DIFFICULTY d = Ok dif
    /\ difficulty g = dif
    /\ map controls (teams g) = [p1; p2]
    /\ map score (teams g) = [0; 0].
Proof.
  intros Hd. unfold new_game, Game_init.
  destruct (index_ok DIFFICULTY d) as [dif Hdif]; [simpl; lia|].
  rewrite Hdif. cbn [Py.bind].
  set (g0 := mkGame _ _ _ _ _ _ _ _ _ _ _).
  destruct (Game_reset_spec jitter g0 eq_refl) as (g & E & _).
  destruct (Game_reset_controlled jitter g0 g _ _ eq_refl E) as [Ht Hdf].
  exists g, dif. split; [exact E|]. split; [reflexivity|].
  rewrite Ht, Hdf. now repeat split.
Qed.

(** X11.  The keys of the menu.  In the menu, with a difficulty index in
    0..2, the menu branch of [update()], up to its call of [game.update()],
    raises an error in one case only: an arrow key has just been pressed
    without the space bar and [sounds.move.play()] raises; the error is that
    of the sound.  Otherwise it returns.  Without the space bar the program
    stays in the menu, on the same choice: on the choice of the number of
    players an arrow key toggles the number between 1 and 2; on the choice
    of the difficulty the down arrow adds 1 to the difficulty index and the
    up arrow, when the down arrow has not just been pressed, subtracts 1,
    modulo 3, so that the index stays in 0..2.  With the space bar the two
    numbers are kept; on the choice of the number of players with one player
    chosen the program goes to the choice of the difficulty; otherwise it
    leaves the menu for the play state with a new game at 0-0: after two
    players were chosen a game of two humans at the hardest difficulty,
    after the choice of the difficulty a game of a human against the
    computer at the chosen difficulty.  The new game is created without
    error, the index of [DIFFICULTY] being in range. *)
Theorem menu_keys_total (L : Library) (jitter : nat -> Z) (a : App) :
  state a = MENU ->
  0 <= menu_difficulty a <= 2 ->
  let space := fst (key_just_pressed (game a) SPACE) in
  let g := snd (key_just_pressed (game a) SPACE) in
  let change := fst (menu_selection g) in
  let on_players := match menu_state a with Some NUM_PLAYERS => true | _ => false end in
  (forall e, space = false -> change <> 0 -> sounds_move_play L = Raise e ->
     menu_keys L jitter a = Raise e)
  /\ (space = true \/ change = 0 \/ sounds_move_play L = Ok tt ->
      exists a',
        menu_keys L jitter a = Ok a'
        /\ 0 <= menu_difficulty a' <= 2
        /\ (space = false ->
            state a' = MENU /\ menu_state a' = menu_state a
            /\ game a' = snd (menu_selection g)
            /\ (change = 1 \/ change = -1 \/ change = 0)
            /\ if on_players
               then menu_difficulty a' = menu_difficulty a
                    /\ menu_num_players a'
                       = (if change =? 0 then menu_num_players a
                          else if menu_num_players a =? 1 then 2 else 1)
               else menu_num_players a' = menu_num_players a
                    /\ menu_difficulty a' = (menu_difficulty a + change) mod 3)
        /\ (space = true ->
            menu_num_players a' = menu_num_players a
            /\ menu_difficulty a' = menu_difficulty a
            /\ if on_players && (menu_num_players a =? 1)
               then state a' = MENU /\ menu_state a' = Some DIFFICULTY_MENU
                    /\ game a' = g
               else state a' = PLAY /\ menu_state a' = None
                    /\ map score (teams (game a')) = [0; 0]
                    /\ map controls (teams (game a'))
                       = [Some (Controls_init 0);
                          if on_players then Some (Controls_init 1) else None]
                    /\ Py.index DIFFICULTY (if on_players then 2 else menu_difficulty a)
                       = Ok (difficulty (game a')))).
Proof.
  intros Hst Hd space g change on_players.
  assert (Hchange : change = 1 \/ change = -1 \/ change = 0).
  { unfold change, menu_selection.
    destruct (key_just_pressed g DOWN) as [[|] g1]; [now left|].
    destruct (key_just_pressed g1 UP) as [[|] g2]; simpl; tauto. }
  assert (Hm : forall c, 0 <= (menu_difficulty a + c) mod 3 <= 2).
  { intros c. pose proof (Z.mod_pos_bound (menu_difficulty a + c) 3). lia. }
  unfold menu_keys.
  destruct (key_just_pressed (game a) SPACE) as [sp g0] eqn:Es.
  cbn [fst snd] in space, g. subst space g.
  destruct (menu_selection g0) as [ch g1] eqn:Em.
  cbn [fst snd] in change |- *. subst change.
  destruct sp.
  - split; [intros e H; discriminate H|]. intros _.
    destruct (menu_state a) as [[|]|] eqn:Ems; cbn [on_players andb].
    + destruct (menu_num_players a =? 1) eqn:En.
      * eexists. split; [reflexivity|]. cbn [menu_difficulty state menu_state game
          menu_num_players].
        split; [lia|]. split; [intros H; discriminate H|]. intros _.
        repeat split; assumption.
      * destruct (new_game_ok jitter g0 (Some (Controls_init 0)) (Some (Controls_init 1)) 2)
          as (g' & dif & E & Hi & Hdif & Hc & Hs); [lia|].
        rewrite E. cbn [Py.bind]. eexists. split; [reflexivity|].
        cbn [menu_difficulty state menu_state game menu_num_players].
        split; [lia|]. split; [intros H; discriminate H|]. intros _.
        split; [reflexivity|]. split; [reflexivity|]. split; [reflexivity|].
        split; [reflexivity|]. split; [exact Hs|]. split; [exact Hc|].
        rewrite Hdif. exact Hi.
    + destruct (new_game_ok jitter g0 (Some (Controls_init 0)) None (menu_difficulty a))
        as (g' & dif & E & Hi & Hdif & Hc & Hs); [lia|].
      rewrite E. cbn [Py.bind]. eexists. split; [reflexivity|].
      cbn [menu_difficulty state menu_state game menu_num_players].
      split; [lia|]. split; [intros H; discriminate H|]. intros _.
      split; [reflexivity|]. split; [reflexivity|]. split; [reflexivity|].
      split; [reflexivity|]. split; [exact Hs|]. split; [exact Hc|].
      rewrite Hdif. exact Hi.
    + destruct (new_game_ok jitter g0 (Some (Controls_init 0)) None (menu_difficulty a))
        as (g' & dif & E & Hi & Hdif & Hc & Hs); [lia|].
      rewrite E. cbn [Py.bind]. eexists. split; [reflexivity|].
      cbn [menu_difficulty state menu_state game menu_num_players].
      split; [lia|]. split; [intros H; discriminate H|]. intros _.
      split; [reflexivity|]. split; [reflexivity|]. split; [reflexivity|].
      split; [reflexivity|]. split; [exact Hs|]. split; [exact Hc|].
      rewrite Hdif. exact Hi.
  - destruct (ch =? 0) eqn:Ec; cbn [negb].
    + apply Z.eqb_eq in Ec. subst ch. split; [intros e _ H; now contradiction H|].
      intros _. eexists. split; [reflexivity|].
      unfold set_game. cbn [menu_difficulty state menu_state game menu_num_players].
      split; [exact Hd|]. split; [|intros H; discriminate H]. intros _.
      split; [exact Hst|]. split; [reflexivity|]. split; [reflexivity|].
      split; [exact Hchange|].
      destruct on_players; split; try reflexivity.
      rewrite Z.add_0_r, Z.mod_small; lia.
    + apply Z.eqb_neq in Ec. split.
      * intros e _ _ Hs. rewrite Hs. reflexivity.
      * intros [H|[H|Hs]]; [discriminate H|now contradiction Ec|].
        rewrite Hs. cbn [Py.bind].
        destruct (menu_state a) as [[|]|] eqn:Ems; cbn [on_players];
          (eexists; split; [reflexivity|]);
          cbn [menu_difficulty state menu_state game menu_num_players];
          (split; [first [exact Hd|apply Hm]|]);
          (split; [|intros H; discriminate H]); intros _;
          (split; [exact Hst|]); (split; [reflexivity|]); (split; [reflexivity|]);
          (split; [exact Hchange|]); split; reflexivity.
Qed.

Lemma menu_keys_total_witness :
  state Ex2.menu = MENU
  /\ 0 <= menu_difficulty Ex2.menu <= 2
  /\ exists a',
       menu_keys ref_lib Ex.no_jitter Ex2.menu = Ok a'
       /\ state a' = MENU /\ menu_difficulty a' = 0.
Proof.
  split; [reflexivity|]. split; [simpl; lia|].
  destruct (proj2 (menu_keys_total ref_lib Ex.no_jitter Ex2.menu eq_refl ltac:(simpl; lia)))
    as (a' & E & _ & H & _).
  - right. right. reflexivity.
  - exists a'. split; [exact E|].
    destruct (H eq_refl) as (Hs & _ & _ & _ & _ & Hdif).
    split; [exact Hs|exact Hdif].
Defined.

(** ** The kickoff formation *)

Lemma Z_range_In (n : nat) (lo j : Z) : lo <= j < lo + Z.of_nat n -> In j (Z_range lo n).
Proof.
  revert lo; induction n as [|n IH]; intros lo H; [lia|].
  simpl. destruct (Z.eq_dec lo j) as [->|Hne]; [now left|right].
  apply IH. lia.
Qed.

(** Every start position, with every vertical offset, by evaluation. *)
Lemma formation_halves :
  forallb (fun k =>
    forallb (fun j =>
      in_own_half (formation_player k 0 0 j O) && in_own_half (formation_player k 1 0 j O))
      (Z_range (-32) 65))
    (seq 0 7) = true.
Proof. vm_compute. reflexivity. Qed.

Lemma in_own_half_formation (k : nat) (team jx jy : Z) (peer : nat) :
  (k < 7)%nat -> team = 0 \/ team = 1 -> -32 <= jy <= 32 ->
  in_own_half (formation_player k team jx jy peer) = true.
Proof.
  intros Hk Ht Hj. pose proof formation_halves as H.
  rewrite forallb_forall in H. specialize (H k).
  assert (Hin : In k (seq 0 7)) by (apply in_seq; lia). specialize (H Hin).
  rewrite forallb_forall in H. specialize (H jy (Z_range_In 65 (-32) jy ltac:(lia))).
  apply andb_prop in H. destruct H as [H0 H1].
  destruct Ht as [-> | ->]; [exact H0|exact H1].
Qed.

(** X12.  At a kickoff every player but the one who kicks off stands in
    the half of its own team.  Whatever offsets in -32..32 the random
    generator gives, after [Game.reset] the players of team 0 are below the
    half-way line and those of team 1 above it, strictly; the kickoff
    player is the one exception, being moved next to the centre spot. *)
Theorem kickoff_in_own_half (jitter : nat -> Z) (g g' : Game) (i : nat) :
  jitter_ok jitter ->
  length (teams g) = 2%nat ->
  Game_reset jitter g = Ok g' ->
  (i < 14)%nat ->
  kickoff_player g' <> Some i ->
  in_own_half (player_at g' i) = true.
Proof.
  intros Hj Hlen E Hi Hk.
  destruct (Game_reset_spec jitter g Hlen) as (g1 & E1 & Hp & _ & Hko & _).
  rewrite E in E1. injection E1 as <-.
  set (other := if scoring_team g =? 0 then 1 else 0) in *.
  assert (Hne : i <> Z.to_nat other) by (intros ->; now apply Hk).
  unfold player_at. rewrite Hp, nth_update_nth_neq by exact Hne.
  unfold formation.
  do 14 (destruct i as [|i];
         [apply in_own_half_formation; [lia|tauto|apply Hj]|]).
  lia.
Qed.

Lemma kickoff_in_own_half_witness :
  in_own_half (player_at (Ex.get (Game_reset Ex.no_jitter Ex.cpu_match) Ex.empty_game) 3)
  = true.
Proof.
  apply (kickoff_in_own_half Ex.no_jitter Ex.cpu_match _ 3).
  - intros k. unfold Ex.no_jitter. lia.
  - reflexivity.
  - vm_compute. reflexivity.
  - lia.
  - vm_compute. discriminate.
Defined.

(** ** The length of a normalised vector *)

(** A square root is not negative; when it is a number other than zero,
    it is positive. *)
Lemma sqrt_sign (s : float) :
  (PrimFloat.sqrt s <? 0)%float = false
  /\ ((PrimFloat.sqrt s =? 0)%float = false ->
      (PrimFloat.sqrt s =? PrimFloat.sqrt s)%float = true ->
      (0 <? PrimFloat.sqrt s)%float = true).
Proof.
  rewrite !ltb_spec, !eqb_spec, sqrt_spec.
  change (Prim2SF 0) with (S754_zero false).
  unfold SF64sqrt.
  destruct (Prim2SF s) as [b|b| |b m e]; try destruct b; cbn; try (split; congruence).
  destruct (SFsqrt_core_binary prec emax (Z.pos m) e) as [[mz ez] lz].
  pose proof (Rounding.round_shape mz ez lz) as H.
  destruct (binary_round_aux prec emax false mz ez lz) as [b|b| |b m' e'];
    try destruct b; cbn; try (split; congruence); try contradiction.
Qed.

(** X13.  The length that [safe_normalise] returns is never negative; it
    is zero only together with the zero vector, the length being the int 0
    of the source and never a negative zero; and a length that is a number
    other than zero is positive, so that the callers' test [length > 0]
    fails only for the zero vector and for a length that is not a number. *)
Theorem safe_normalise_length (vec : Vector2) :
  let d := snd (safe_normalise vec) in
  (d <? 0)%float = false
  /\ ((d =? 0)%float = true -> safe_normalise vec = (Vec.zero, 0%float))
  /\ ((d =? 0)%float = false -> (d =? d)%float = true -> (0 <? d)%float = true).
Proof.
  unfold safe_normalise.
  destruct (sqrt_sign (Vec.dot vec vec)) as [Hneg Hpos].
  fold (Vec.length vec) in Hneg, Hpos.
  destruct (Vec.length vec =? 0)%float eqn:E; simpl.
  - split; [reflexivity|]. split; [reflexivity|]. intros H; discriminate H.
  - rewrite E. split; [exact Hneg|]. split; [discriminate|exact Hpos].
Qed.

(** ** The facing direction *)

Lemma turn_unfold (dir target_dir : Z) :
  exists step,
    In step [0; 1; 7]
    /\ turn dir target_dir = Ok ((dir + step) mod 8).
Proof.
  unfold turn.
  assert (H : 0 <= (target_dir - dir) mod 8 < 8) by (apply Z.mod_pos_bound; lia).
  set (k := (target_dir - dir) mod 8) in *.
  assert (K : k = 0 \/ k = 1 \/ k = 2 \/ k = 3 \/ k = 4 \/ k = 5 \/ k = 6 \/ k = 7) by lia.
  destruct K as [->|[->|[->|[->|[->|[->|[->| ->]]]]]]];
    (eexists; split; [|reflexivity]; simpl; tauto).
Qed.

(** X14.  The update of the facing direction in [Player.update] never
    raises an error, whatever ints the current and the target direction are
    (a negative difference included: [%] gives an index in 0..7), and gives
    a direction in 0..7 that is the current direction or one step from it,
    clockwise or anticlockwise, modulo 8. *)
Theorem turn_one_step (dir target_dir : Z) :
  exists d,
    turn dir target_dir = Ok d
    /\ 0 <= d < 8
    /\ ((d - dir) mod 8 = 0 \/ (d - dir) mod 8 = 1 \/ (d - dir) mod 8 = 7).
Proof.
  destruct (turn_unfold dir target_dir) as (step & Hin & E).
  exists ((dir + step) mod 8). split; [exact E|]. split.
  - apply Z.mod_pos_bound; lia.
  - rewrite Zminus_mod_idemp_l. replace (dir + step - dir) with step by lia.
    simpl in Hin. destruct Hin as [<-|[<-|[<-|[]]]]; cbn; tauto.
Qed.

Lemma turn_mod (dir target_dir : Z) : turn dir target_dir = turn dir (target_dir mod 8).
Proof.
  unfold turn. now rewrite (Zminus_mod_idemp_l target_dir dir 8).
Qed.

Lemma turn_frames_mod (n : nat) (dir target_dir : Z) :
  turn_frames n dir target_dir = turn_frames n dir (target_dir mod 8).
Proof.
  revert dir. induction n as [|n IH]; intros dir; [reflexivity|].
  simpl. rewrite turn_mod. destruct (turn dir (target_dir mod 8)); simpl; auto.
Qed.

Lemma all_dirs_In (d : Z) : 0 <= d < 8 -> In d [0; 1; 2; 3; 4; 5; 6; 7].
Proof. simpl. lia. Qed.

Lemma result_is_eq (m : Py.result Z) (d : Z) :
  match m with Ok d' => d' =? d | Raise _ => false end = true -> m = Ok d.
Proof. destruct m; [|discriminate]. intros H. apply Z.eqb_eq in H. now subst. Qed.

(** X15.  A player faces its target direction after at most four frames,
    and then keeps facing it: from any direction in 0..7, four updates of
    the facing direction towards the same target give the target direction
    modulo 8, and one more update leaves it there. *)
Theorem turn_reaches (dir target_dir : Z) :
  0 <= dir < 8 ->
  turn_frames 4 dir target_dir = Ok (target_dir mod 8)
  /\ turn (target_dir mod 8) target_dir = Ok (target_dir mod 8).
Proof.
  intros Hd.
  assert (Ht : 0 <= target_dir mod 8 < 8) by (apply Z.mod_pos_bound; lia).
  rewrite turn_frames_mod, turn_mod. set (t := target_dir mod 8) in *.
  assert (A : forallb (fun d => forallb (fun t =>
               match turn_frames 4 d t with Ok d' => d' =? t | Raise _ => false end
               && match turn t t with Ok d' => d' =? t | Raise _ => false end)
               [0; 1; 2; 3; 4; 5; 6; 7]) [0; 1; 2; 3; 4; 5; 6; 7] = true)
    by (vm_compute; reflexivity).
  rewrite forallb_forall in A. specialize (A dir (all_dirs_In dir Hd)).
  rewrite forallb_forall in A. specialize (A t (all_dirs_In t Ht)).
  apply andb_prop in A. destruct A as [A1 A2].
  split; now apply result_is_eq.
Qed.

Lemma turn_reaches_witness :
  0 <= 6 < 8 /\ turn_frames 4 6 (-7) = Ok 1 /\ turn 1 (-7) = Ok 1.
Proof.
  split; [lia|]. exact (turn_reaches 6 (-7) ltac:(lia)).
Defined.

(** ** Clamping *)

Lemma clamp_bounds (lo hi : Z) (x : float) :
  (F.of_Z lo <=? F.of_Z lo)%float = true -> (F.of_Z hi <=? F.of_Z hi)%float = true ->
  (F.of_Z lo <=? F.of_Z hi)%float = true ->
  (F.of_Z lo <=? clamp lo hi x)%float = true /\ (clamp lo hi x <=? F.of_Z hi)%float = true.
Proof.
  intros Hl Hh Hlh. unfold clamp, F.max, py_min.
  destruct (x <? F.of_Z hi)%float eqn:E1.
  - destruct (F.of_Z lo <? x)%float eqn:E2.
    + split; now apply FloatFacts.ltb_leb.
    + now split.
  - destruct (F.of_Z lo <? F.of_Z hi)%float eqn:E2; now split.
Qed.

(** X16.  The target of a lead player is always on the pitch: whatever
    the coordinates before the clamping in [Player.update], infinities and
    values that are not numbers included, the clamped x lies in 78..922 and
    the clamped y in 98..1302. *)
Theorem stay_on_pitch_bounds (target : Vector2) :
  let p := stay_on_pitch target in
  (78 <=? vx p)%float = true /\ (vx p <=? 922)%float = true
  /\ (98 <=? vy p)%float = true /\ (vy p <=? 1302)%float = true.
Proof.
  simpl.
  destruct (clamp_bounds AI_MIN_X AI_MAX_X (vx target)) as [A B]; try reflexivity.
  destruct (clamp_bounds AI_MIN_Y AI_MAX_Y (vy target)) as [C D]; try reflexivity.
  repeat split; assumption.
Qed.

(** X17.  The scrolling offsets of [Game.draw] keep the window inside the
    level: whatever the camera focus, the x offset lies in 0..200 and the y
    offset in 0..920, the level being 1000 by 1400 and the window 800 by
    480. *)
Theorem draw_offset_bounds (camera_focus : Vector2) :
  let o := draw_offset camera_focus in
  (0 <=? vx o)%float = true /\ (vx o <=? 200)%float = true
  /\ (0 <=? vy o)%float = true /\ (vy o <=? 920)%float = true.
Proof.
  simpl.
  destruct (clamp_bounds 0 (LEVEL_W - WIDTH) (vx camera_focus - F.of_Z WIDTH / 2)%float)
    as [A B]; try reflexivity.
  destruct (clamp_bounds 0 (LEVEL_H - HEIGHT) (vy camera_focus - F.of_Z HEIGHT / 2)%float)
    as [C D]; try reflexivity.
  repeat split; assumption.
Qed.
